(** * Verification of the storefront-connection core (drp5)

    A shallow embedding of the route handlers
    - [src/app/api/shopify-webhook/route.ts]  (module [ShopifyWebhook])
    - [src/app/api/auth/session/route.ts]     (module [AuthSession])
    - [src/app/api/push-to-shopify/route.ts]  (module [PushToShopify])
    - the store-listing route whose text follows the supplier route in
      [src/app/api/products/supplier/route.ts] (module [StoresUser])
    - the supplier-products route of the same file, with
      [getSupplierProducts] and [createProduct] of
      [src/lib/product-service.ts]            (module [ProductService])
    and of [fetchOrders] and the status update of the delivery page
    ([src/unnamed/part_000], module [Delivery]).

    A handler is a function from the request and from the answers of the
    collaborators it awaits (database client, token manager, session
    service, upstream HTTP) to a response and the ordered list of effects
    it performed. *)

From Stdlib Require Import ZArith List String Ascii Bool Lia PrimFloat.
Import ListNotations.
Local Open Scope string_scope.
Local Open Scope Z_scope.
Local Open Scope list_scope.
Set Warnings "-register-all".

(** ** JavaScript values and control flow *)
Module JS.

(** A value produced by [JSON.parse] / [response.json()]. Objects keep
    their properties in insertion order, each key once. *)
Inductive json : Type :=
| JNull
| JBool (b : bool)
| JNum (x : float)
| JStr (s : string)
| JArr (items : list json)
| JObj (props : list (string * json)).

(** A JavaScript value that may be [undefined]: [None] is [undefined]. *)
Definition jsval := option json.

Definition str_truthy (s : string) : bool :=
  match s with EmptyString => false | String _ _ => true end.

(** ToBoolean: [null], [false], [0], [-0], [NaN] and [""] are falsy. *)
Definition truthy (v : json) : bool :=
  match v with
  | JNull => false
  | JBool b => b
  | JNum x => negb (PrimFloat.eqb x PrimFloat.zero || PrimFloat.is_nan x)
  | JStr s => str_truthy s
  | JArr _ => true
  | JObj _ => true
  end.

Definition truthy_val (v : jsval) : bool :=
  match v with None => false | Some j => truthy j end.

(** A [string | null] or [string | undefined] value, as headers, cookies
    and nullable text columns are. *)
Definition truthy_str (v : option string) : bool :=
  match v with None => false | Some s => str_truthy s end.

Fixpoint assoc {A : Type} (k : string) (l : list (string * A)) : option A :=
  match l with
  | [] => None
  | (k', v) :: tl => if String.eqb k k' then Some v else assoc k tl
  end.

(** [v.k] for [v] neither [null] nor [undefined], and for a key [k] that no
    prototype defines ([title], [variants], [price], [errors], [product],
    [id]): own property of an object, [undefined] on anything else. *)
Definition prop (v : json) (k : string) : jsval :=
  match v with
  | JObj ps => assoc k ps
  | _ => None
  end.

(** [Array.isArray(v)] *)
Definition isArray (v : jsval) : bool :=
  match v with Some (JArr _) => true | _ => false end.

(** [v[0]] for an array [v]. *)
Definition index0 (v : json) : jsval :=
  match v with
  | JArr (x :: _) => Some x
  | _ => None
  end.

(** [v?.k] *)
Definition opt_prop (v : jsval) (k : string) : jsval :=
  match v with
  | None => None
  | Some JNull => None
  | Some j => prop j k
  end.

(** The string held by a [string | undefined] value past a truthiness guard. *)
Definition the (v : option string) : string :=
  match v with Some s => s | None => EmptyString end.

(** The value held by a possibly [undefined] value past a truthiness guard. *)
Definition the_val (v : jsval) : json :=
  match v with Some j => j | None => JNull end.

(** [String(h)] for a [string | null] header inside a template literal. *)
Definition show_nullable (h : option string) : string :=
  match h with None => "null" | Some s => s end.

(** [obj[k] = v] on a plain object, and [Map.prototype.set]: an existing
    key keeps its position and takes the new value, a new key goes last. *)
Fixpoint set {A : Type} (k : string) (v : A) (m : list (string * A))
  : list (string * A) :=
  match m with
  | [] => [(k, v)]
  | (k', v') :: tl =>
      if String.eqb k' k then (k', v) :: tl else (k', v') :: set k v tl
  end.

(** [Map.prototype.has] *)
Definition has {A : Type} (k : string) (m : list (string * A)) : bool :=
  match assoc k m with Some _ => true | None => false end.

(** [Array.from(m.values())] *)
Definition values {A : Type} (m : list (string * A)) : list A := map snd m.

(** ToString, as a template literal applies it, does not throw on [v]. An
    object is converted by the [toString] it finds: an own property of
    that name, which in a parsed value is never a function, hides
    [Object.prototype.toString], and [valueOf] then yields no primitive, so
    the conversion throws a [TypeError]. An array is converted by [join],
    which converts every element that is not [null]. *)
Fixpoint convertible (v : json) : bool :=
  match v with
  | JArr items => forallb convertible items
  | JObj props => negb (has "toString" props)
  | _ => true
  end.

(** [undefined] converts to a string without throwing. *)
Definition convertible_val (v : jsval) : bool :=
  match v with None => true | Some j => convertible j end.

Section Conversion.

(** [Number.prototype.toString()], the shortest decimal form that reads
    back as the number; the engine's algorithm is taken as given. *)
Variable number_to_string : float -> string.

(** ToString of a [convertible] value, which is also what [v.toString()]
    returns for such a value other than [null]. *)
Fixpoint to_string (v : json) : string :=
  match v with
  | JNull => "null"
  | JBool b => if b then "true" else "false"
  | JNum x => number_to_string x
  | JStr s => s
  | JArr items =>
      String.concat ","
        (map (fun item => match item with
                          | JNull => EmptyString
                          | _ => to_string item
                          end) items)
  | JObj _ => "[object Object]"
  end.

End Conversion.

(** [console.log], [console.warn], [console.error] *)
Inductive level := Log | Warn | Error.

(** Effects a handler performs, in program order. A console call keeps its
    level, its message text and the values passed after it; where a template
    literal interpolates a value that is not a header, the value is listed
    among the arguments instead. *)
Inductive event : Type :=
| Console (lv : level) (msg : string) (args : list jsval)
| SelectStoreConfig (shop : json)
| GetToken (shop : json)
| Fetch (shop : json) (headers : list (string * string)) (product : json)
| InsertMapping (supplier_product_id shopify_product_id : string) (shop : json)
| VerifySession (token : string)
| GetSellerStoreConnections (username : string)
| GetUserStores (username : string).

(** What a thrown value was, as far as the handlers can tell: they log it
    and answer 500 whatever it is. *)
Inductive exn := TypeError | RangeError | SyntaxError | Rejected.

(** The answer of an awaited collaborator. *)
Inductive awaited (A : Type) :=
| Resolved (a : A)
| Rejects.
Arguments Resolved {A} a.
Arguments Rejects {A}.

Record Response (B : Type) := mkResponse {
  status : Z;
  body : B;
  deleted_cookies : list string
}.
Arguments mkResponse {B}.
Arguments status {B}.
Arguments body {B}.
Arguments deleted_cookies {B}.

(** [NextResponse.json(b, { status: s })]; the status defaults to 200. *)
Definition json_response {B} (b : B) (s : Z) : Response B := mkResponse s b [].

(** [response.cookies.delete(name)] *)
Definition delete_cookie {B} (name : string) (r : Response B) : Response B :=
  mkResponse (status r) (body r) (deleted_cookies r ++ [name]).

(** How a block of statements ends: it falls through with a value, it
    executes [return r], or it throws. *)
Inductive outcome (R A : Type) :=
| Val (a : A)
| Return (r : R)
| Throw (e : exn).
Arguments Val {R A} a.
Arguments Return {R A} r.
Arguments Throw {R A} e.

Definition M (R A : Type) : Type := outcome R A * list event.

Definition ret {R A} (a : A) : M R A := (Val a, []).
Definition bind {R A B} (m : M R A) (f : A -> M R B) : M R B :=
  match m with
  | (Val a, t) => let (o, t') := f a in (o, t ++ t')
  | (Return r, t) => (Return r, t)
  | (Throw e, t) => (Throw e, t)
  end.
Definition leave {R A} (r : R) : M R A := (Return r, []).
Definition throw {R A} (e : exn) : M R A := (Throw e, []).
Definition emit {R} (e : event) : M R unit := (Val tt, [e]).
Definition console {R} (lv : level) (msg : string) (args : list jsval) : M R unit :=
  emit (Console lv msg args).

(** [await c], the call being recorded as [e]. *)
Definition await {R A} (e : event) (c : awaited A) : M R A :=
  match c with
  | Resolved a => (Val a, [e])
  | Rejects => (Throw Rejected, [e])
  end.

(** [await c] on a value the request or a response already holds: no
    call of its own is recorded. *)
Definition await_silent {R A} (c : awaited A) : M R A :=
  match c with
  | Resolved a => (Val a, [])
  | Rejects => (Throw Rejected, [])
  end.

(** [try { m } catch (error) { h }] *)
Definition try_catch {R A} (m : M R A) (h : exn -> M R A) : M R A :=
  match m with
  | (Throw e, t) => let (o, t') := h e in (o, t ++ t')
  | other => other
  end.

(** [v.k] where [v] may be [null]: reading a property of [null] throws. *)
Definition get {R} (v : json) (k : string) : M R jsval :=
  match v with
  | JNull => throw TypeError
  | _ => ret (prop v k)
  end.

(** [if (c) { m }] with no [else]. *)
Definition when {R} (c : bool) (m : M R unit) : M R unit :=
  if c then m else ret tt.

(** The statuses that allow no body (Fetch standard). *)
Definition null_body_status (s : Z) : bool :=
  existsb (Z.eqb s) [101; 103; 204; 205; 304].

(** [return NextResponse.json(b, { status: s })] for a status [s] the code
    does not fix: the [Response] it builds throws a [RangeError] for a
    status outside 200..599 and a [TypeError] for one that allows no
    body. *)
Definition return_json {B A} (b : B) (s : Z) : M (Response B) A :=
  if negb ((200 <=? s) && (s <=? 599)) then throw RangeError
  else if null_body_status s then throw TypeError
  else leave (json_response b s).

(** [async function f() { try { m } catch (error) { console.error(msg, error);
    return r500 } }], for a block [m] whose every path returns or throws. The
    caught value itself is not kept in the logged arguments. *)
Definition try_handler {R} (m : M R Empty_set) (msg : string) (r500 : R)
  : R * list event :=
  match m with
  | (Return r, t) => (r, t)
  | (Throw _, t) => (r500, t ++ [Console Error msg []])
  | (Val a, _) => match a with end
  end.

Module Notations.
  Notation "x <- m ;; k" := (bind m (fun x => k))
    (at level 61, m at next level, right associativity).
  Notation "m ;;; k" := (bind m (fun _ => k))
    (at level 61, right associativity).
End Notations.

End JS.

(** ** Node's [crypto.createHmac("sha256", k)] and [Buffer#toString("base64")]

    Models of the two library calls the handlers make, on bytes as [Z]. *)
Module Crypto.

Definition bytes := list Z.

(** The UTF-8 bytes of a string; a [string] here is that byte sequence. *)
Fixpoint bytes_of_string (s : string) : bytes :=
  match s with
  | EmptyString => []
  | String c tl => Z.of_N (N_of_ascii c) :: bytes_of_string tl
  end.

Definition w32 (x : Z) : Z := x mod 2 ^ 32.
Definition add32 (x y : Z) : Z := w32 (x + y).
Definition rotr (n x : Z) : Z :=
  Z.lor (Z.shiftr x n) (w32 (Z.shiftl x (32 - n))).
Definition not32 (x : Z) : Z := Z.lxor x 4294967295.

Definition Ch (x y z : Z) := Z.lxor (Z.land x y) (Z.land (not32 x) z).
Definition Maj (x y z : Z) :=
  Z.lxor (Z.lxor (Z.land x y) (Z.land x z)) (Z.land y z).
Definition Sigma0 x := Z.lxor (Z.lxor (rotr 2 x) (rotr 13 x)) (rotr 22 x).
Definition Sigma1 x := Z.lxor (Z.lxor (rotr 6 x) (rotr 11 x)) (rotr 25 x).
Definition sigma0 x := Z.lxor (Z.lxor (rotr 7 x) (rotr 18 x)) (Z.shiftr x 3).
Definition sigma1 x := Z.lxor (Z.lxor (rotr 17 x) (rotr 19 x)) (Z.shiftr x 10).

(** The first [n] primes, by trial division over [2 .. bound]. *)
Definition is_prime (p : Z) : bool :=
  forallb (fun d => negb (p mod Z.of_nat d =? 0))
          (seq 2 (Z.to_nat p - 2)).

Definition primes (n bound : nat) : list Z :=
  firstn n (filter is_prime (map Z.of_nat (seq 2 bound))).

(** The integer cube root, one bit at a time from bit [n - 1] down. *)
Fixpoint cube_root_bits (n : nat) (x r : Z) : Z :=
  match n with
  | O => r
  | S n' =>
      let r' := Z.lor r (Z.shiftl 1 (Z.of_nat n')) in
      if r' * r' * r' <=? x then cube_root_bits n' x r'
      else cube_root_bits n' x r
  end.

(** FIPS 180-4, 4.2.2: the first 32 bits of the fractional parts of the
    cube roots of the first 64 primes. *)
Definition K256 : list Z :=
  map (fun p => w32 (cube_root_bits 40 (p * 2 ^ 96) 0)) (primes 64 320).

(** FIPS 180-4, 5.3.3: the first 32 bits of the fractional parts of the
    square roots of the first 8 primes. *)
Definition H256 : list Z :=
  map (fun p => w32 (Z.sqrt (p * 2 ^ 64))) (primes 8 20).

(** Big-endian bytes of [x], [n] of them. *)
Fixpoint be_bytes (n : nat) (x : Z) : bytes :=
  match n with
  | O => []
  | S n' => (Z.shiftr x (8 * Z.of_nat n')) mod 256 :: be_bytes n' x
  end.

Definition pad (msg : bytes) : bytes :=
  let len := Z.of_nat (List.length msg) in
  let zeros := Z.to_nat ((55 - len) mod 64) in
  msg ++ [128] ++ repeat 0 zeros ++ be_bytes 8 (8 * len).

Fixpoint words (n : nat) (bs : bytes) : list Z :=
  match n, bs with
  | S n', a :: b :: c :: d :: tl =>
      (Z.lor (Z.shiftl a 24) (Z.lor (Z.shiftl b 16) (Z.lor (Z.shiftl c 8) d)))
        :: words n' tl
  | _, _ => []
  end.

Definition nthw (l : list Z) (i : nat) : Z := nth i l 0.

(** The message schedule: [w] holds W[0..t-1]; extend it [n] times. *)
Fixpoint schedule (n : nat) (w : list Z) : list Z :=
  match n with
  | O => w
  | S n' =>
      let t := List.length w in
      let x := add32 (add32 (sigma1 (nthw w (t - 2))) (nthw w (t - 7)))
                     (add32 (sigma0 (nthw w (t - 15))) (nthw w (t - 16))) in
      schedule n' (w ++ [x])
  end.

Definition round (st : list Z) (kw : Z * Z) : list Z :=
  match st with
  | [a; b; c; d; e; f; g; h] =>
      let t1 := add32 (add32 (add32 h (Sigma1 e)) (add32 (Ch e f g) (fst kw)))
                      (snd kw) in
      let t2 := add32 (Sigma0 a) (Maj a b c) in
      [add32 t1 t2; a; b; c; add32 d t1; e; f; g]
  | _ => st
  end.

Fixpoint zip_add (a b : list Z) : list Z :=
  match a, b with
  | x :: a', y :: b' => add32 x y :: zip_add a' b'
  | _, _ => []
  end.

Definition compress (st : list Z) (block : bytes) : list Z :=
  let w := schedule 48 (words 16 block) in
  zip_add st (fold_left round (combine K256 w) st).

Fixpoint blocks (n : nat) (st : list Z) (bs : bytes) : list Z :=
  match n with
  | O => st
  | S n' => blocks n' (compress st (firstn 64 bs)) (skipn 64 bs)
  end.

Definition sha256 (msg : bytes) : bytes :=
  let p := pad msg in
  flat_map (be_bytes 4) (blocks (List.length p / 64) H256 p).

(** RFC 2104, block size 64. *)
Definition hmac_sha256 (key msg : bytes) : bytes :=
  let k0 := if (64 <? List.length key)%nat then sha256 key else key in
  let k := k0 ++ repeat 0 (64 - List.length k0) in
  sha256 (map (Z.lxor 0x5c) k ++ sha256 (map (Z.lxor 0x36) k ++ msg)).

Definition b64_alphabet : string :=
  "ABCDEFGHIJKLMNOPQRSTUVWXYZabcdefghijklmnopqrstuvwxyz0123456789+/".

Definition b64_char (i : Z) : ascii :=
  match String.get (Z.to_nat i) b64_alphabet with
  | Some c => c
  | None => "="%char
  end.

(** Standard base64 with [=] padding; [n] bounds the number of groups. *)
Fixpoint base64_groups (n : nat) (bs : bytes) : string :=
  match n with
  | O => EmptyString
  | S n' =>
      match bs with
      | [] => EmptyString
      | [a] =>
          String (b64_char (Z.shiftr a 2))
         (String (b64_char (Z.land (Z.shiftl a 4) 63)) "==")
      | [a; b] =>
          String (b64_char (Z.shiftr a 2))
         (String (b64_char (Z.land (Z.lor (Z.shiftl a 4) (Z.shiftr b 4)) 63))
         (String (b64_char (Z.land (Z.shiftl b 2) 63)) "="))
      | a :: b :: c :: tl =>
          String (b64_char (Z.shiftr a 2))
         (String (b64_char (Z.land (Z.lor (Z.shiftl a 4) (Z.shiftr b 4)) 63))
         (String (b64_char (Z.land (Z.lor (Z.shiftl b 2) (Z.shiftr c 6)) 63))
         (String (b64_char (Z.land c 63)) (base64_groups n' tl))))
      end
  end.

Definition base64 (bs : bytes) : string := base64_groups (List.length bs) bs.

(** [Buffer.from(s).toString('base64')] *)
Definition base64_of_string (s : string) : string :=
  base64 (bytes_of_string s).

(** [crypto.createHmac("sha256", key).update(msg, "utf8").digest("base64")] *)
Definition hmac_sha256_base64 (key msg : string) : string :=
  base64 (hmac_sha256 (bytes_of_string key) (bytes_of_string msg)).

Fixpoint hex (bs : bytes) : string :=
  match bs with
  | [] => EmptyString
  | b :: tl =>
      let d i := match String.get (Z.to_nat i) "0123456789abcdef" with
                 | Some c => c | None => "?"%char end in
      String (d (b / 16)) (String (d (b mod 16)) (hex tl))
  end.

End Crypto.

Arguments Crypto.base64_of_string : simpl never.
Arguments Crypto.hmac_sha256_base64 : simpl never.

(** ** [request.text()]: the body decoded as UTF-8

    The platform's decoder (Encoding standard, "UTF-8 decode"), on bytes as
    [Z] and code points as [Z], and the encoder that [update(body, "utf8")]
    applies to the text again. *)
Module Utf8.
Import Crypto.

(** The decoder between two bytes: how many continuation bytes the
    sequence under way has and has seen, the code point so far, and the
    range the next byte has to lie in. *)
Record state := mkState {
  needed : Z;
  seen : Z;
  code_point : Z;
  lower : Z;
  upper : Z
}.

Definition initial : state := mkState 0 0 0 0x80 0xBF.

(** U+FFFD, which stands for every malformed sequence. *)
Definition replacement : Z := 0xFFFD.

(** A byte met with no sequence under way. *)
Definition lead (b : Z) : list Z * state :=
  if b <=? 0x7F then ([b], initial)
  else if (0xC2 <=? b) && (b <=? 0xDF) then
    ([], mkState 1 0 (Z.land b 0x1F) 0x80 0xBF)
  else if (0xE0 <=? b) && (b <=? 0xEF) then
    ([], mkState 2 0 (Z.land b 0xF)
           (if b =? 0xE0 then 0xA0 else 0x80)
           (if b =? 0xED then 0x9F else 0xBF))
  else if (0xF0 <=? b) && (b <=? 0xF4) then
    ([], mkState 3 0 (Z.land b 0x7)
           (if b =? 0xF0 then 0x90 else 0x80)
           (if b =? 0xF4 then 0x8F else 0xBF))
  else ([replacement], initial).

(** One byte: the code points it completes and the state after it. A byte
    that cannot continue the sequence under way ends it with U+FFFD and is
    then read again as the first byte of the next. *)
Definition step (s : state) (b : Z) : list Z * state :=
  if needed s =? 0 then lead b
  else if negb ((lower s <=? b) && (b <=? upper s)) then
    let (out, s') := lead b in (replacement :: out, s')
  else
    let cp := Z.lor (Z.shiftl (code_point s) 6) (Z.land b 0x3F) in
    if seen s + 1 =? needed s then ([cp], initial)
    else ([], mkState (needed s) (seen s + 1) cp 0x80 0xBF).

Fixpoint run (s : state) (bs : bytes) : list Z :=
  match bs with
  | [] => if needed s =? 0 then [] else [replacement]
  | b :: tl => let (out, s') := step s b in out ++ run s' tl
  end.

(** A leading byte order mark is dropped before decoding. *)
Definition skip_bom (bs : bytes) : bytes :=
  match bs with
  | b0 :: b1 :: b2 :: tl =>
      if (b0 =? 0xEF) && (b1 =? 0xBB) && (b2 =? 0xBF) then tl else bs
  | _ => bs
  end.

(** The code points of the text. *)
Definition decode (bs : bytes) : list Z := run initial (skip_bom bs).

(** The UTF-8 bytes of one code point: the first byte is the high bits
    plus the offset of the length, every further byte is [0x80] with six
    bits of the code point. *)
Definition encode_code_point (c : Z) : bytes :=
  if c <=? 0x7F then [c]
  else if c <=? 0x7FF then
    [Z.shiftr c 6 + 0xC0; Z.lor 0x80 (Z.land c 0x3F)]
  else if c <=? 0xFFFF then
    [Z.shiftr c 12 + 0xE0;
     Z.lor 0x80 (Z.land (Z.shiftr c 6) 0x3F);
     Z.lor 0x80 (Z.land c 0x3F)]
  else
    [Z.shiftr c 18 + 0xF0;
     Z.lor 0x80 (Z.land (Z.shiftr c 12) 0x3F);
     Z.lor 0x80 (Z.land (Z.shiftr c 6) 0x3F);
     Z.lor 0x80 (Z.land c 0x3F)].

Definition encode (cs : list Z) : bytes := flat_map encode_code_point cs.

Fixpoint string_of_bytes (bs : bytes) : string :=
  match bs with
  | [] => EmptyString
  | b :: tl => String (ascii_of_N (Z.to_N b)) (string_of_bytes tl)
  end.

(** What [request.text()] resolves to for a body of the bytes [raw]: the
    text, held as its UTF-8 bytes like every string here. *)
Definition text_of (raw : bytes) : string :=
  string_of_bytes (encode (decode raw)).

End Utf8.

(** ** [src/app/api/shopify-webhook/route.ts] *)
Module ShopifyWebhook.
Import JS JS.Notations Crypto.

Definition placeholder : string := "your-webhook-secret".

(** [process.env.SHOPIFY_WEBHOOK_SECRET || "your-webhook-secret"] *)
Definition WEBHOOK_SECRET (env : option string) : string :=
  match env with
  | Some s => if str_truthy s then s else placeholder
  | None => placeholder
  end.

(** The request as the handler reads it: [request.text()] and the three
    headers, each [string | null]. *)
Record Request := mkRequest {
  text : string;
  hmacHeader : option string;
  topicHeader : option string;
  shopHeader : option string
}.

(** The request the handler reads when the body arrives as the bytes
    [raw]: line 9 decodes them with [request.text()]. *)
Definition received (raw : Crypto.bytes)
    (hmacHeader topicHeader shopHeader : option string) : Request :=
  mkRequest (Utf8.text_of raw) hmacHeader topicHeader shopHeader.

(** [h !== expected] for [h : string | null]. *)
Definition strict_ne (h : option string) (expected : string) : bool :=
  match h with
  | None => true
  | Some s => negb (String.eqb s expected)
  end.

(** [case label:] of a [switch (h)] on a [string | null] value. *)
Definition is_case (h : option string) (label : string) : bool :=
  match h with
  | Some s => String.eqb s label
  | None => false
  end.

Definition error_body (msg : string) : json := JObj [("error", JStr msg)].
Definition success_body : json := JObj [("success", JBool true)].

Section Handler.

(** [JSON.parse]: [None] when it throws a [SyntaxError]. *)
Variable JSON_parse : string -> option json.
(** The value of [process.env.SHOPIFY_WEBHOOK_SECRET] when the module loads. *)
Variable env : option string.

(** Lines 17-27. *)
Definition verify_signature (body : string) (hmacHeader : option string)
  : M (Response json) unit :=
  when (negb (String.eqb (WEBHOOK_SECRET env) placeholder))
    (let expectedHmac := hmac_sha256_base64 (WEBHOOK_SECRET env) body in
     when (strict_ne hmacHeader expectedHmac)
       (console Error "Webhook signature verification failed" [] ;;;
        leave (json_response (error_body "Invalid signature") 401))).

(** Lines 30-36. *)
Definition parse_payload (body : string) : M (Response json) json :=
  try_catch
    (match JSON_parse body with
     | Some payload => ret payload
     | None => throw SyntaxError
     end)
    (fun _ =>
       console Error "Failed to parse webhook payload:" [] ;;;
       leave (json_response (error_body "Invalid JSON") 400)).

(** Lines 39-67: the [switch] on the topic header. *)
Definition dispatch (topicHeader shopHeader : option string) (payload : json)
  : M (Response json) unit :=
  if is_case topicHeader "orders/create" then
    id <- get payload "id" ;; console Log "New order created:" [id]
  else if is_case topicHeader "orders/updated" then
    id <- get payload "id" ;; console Log "Order updated:" [id]
  else if is_case topicHeader "products/create" then
    id <- get payload "id" ;; console Log "New product created:" [id]
  else if is_case topicHeader "products/update" then
    id <- get payload "id" ;; console Log "Product updated:" [id]
  else if is_case topicHeader "app/uninstalled" then
    console Log "App uninstalled from shop:" [option_map JStr shopHeader]
  else
    console Log ("Unhandled webhook topic: " ++ show_nullable topicHeader)%string [].

Definition POST (request : Request) : Response json * list event :=
  try_handler
    (let body := text request in
     console Log ("Webhook received: " ++ show_nullable (topicHeader request)
                  ++ " from " ++ show_nullable (shopHeader request))%string [] ;;;
     verify_signature body (hmacHeader request) ;;;
     payload <- parse_payload body ;;
     dispatch (topicHeader request) (shopHeader request) payload ;;;
     leave (json_response success_body 200))
    "Webhook processing error:"
    (json_response (error_body "Internal server error") 500).

Definition GET : Response json :=
  json_response
    (JObj [("message", JStr "Shopify webhook endpoint is active");
           ("status", JStr "ok")]) 200.

End Handler.
End ShopifyWebhook.

(** ** [src/app/api/auth/session/route.ts] *)
Module AuthSession.
Import JS JS.Notations.

(** The user object a verified session carries. *)
Record User := mkUser {
  userId : string;
  username : string;
  userType : string
}.

(** What [AuthService.verifySession] resolves to. *)
Record VerifyResult := mkVerifyResult {
  result_success : bool;
  result_user : option User;
  result_error : option string
}.

(** The JSON object the route answers with; an absent key is [None]. *)
Record Body := mkBody {
  success : bool;
  user : option User;
  error : option string
}.

Section Handler.

(** [AuthService.verifySession], declared in [@/lib/auth-service]. *)
Variable verifySession : string -> awaited VerifyResult.

(** [request.cookies.get('session_token')?.value] is the argument. *)
Definition GET (sessionToken : option string) : Response Body * list event :=
  try_handler
    (when (negb (truthy_str sessionToken))
       (leave (json_response
                 (mkBody false None (Some "No session token found")) 401)) ;;;
     result <- await (VerifySession (the sessionToken))
                     (verifySession (the sessionToken)) ;;
     when (negb (result_success result))
       (let response :=
          json_response (mkBody false None (result_error result)) 401 in
        leave (delete_cookie "session_token" response)) ;;;
     leave (json_response (mkBody true (result_user result) None) 200))
    "Session API error:"
    (json_response (mkBody false None (Some "Internal server error")) 500).

End Handler.
End AuthSession.

(** ** [src/app/api/push-to-shopify/route.ts] *)
Module PushToShopify.
Import JS JS.Notations Crypto.

(** A row of [store_configs], as far as the route reads it; the three
    columns are nullable text. *)
Record StoreConfig := mkStoreConfig {
  access_token : option string;
  api_key : option string;
  api_secret : option string
}.

Definition Headers := list (string * string).

(** What the collaborators answer during one request. *)
Record World := mkWorld {
  (** [supabase.from('store_configs').select('*').eq('store_url', shop)
      .eq('is_active', true).single()]: the [data] of the answer, [null]
      when the query yields no single active row. *)
  store_config : json -> awaited (option StoreConfig);
  (** [TokenManager.getToken(shop)], declared in [@/lib/token-manager]. *)
  getToken : json -> awaited (option string);
  (** [fetch] of the products endpoint of [shop]: the status of the
      response and what [response.json()] settles to. *)
  fetch : json -> Headers -> json -> awaited (Z * awaited json);
  (** The insert into [product_shopify_mappings], given the supplier
      product, the platform's product id as a string and the shop: whether
      the answer carries an [error]. *)
  insert_mapping : string -> string -> json -> awaited bool;
  (** [Number.prototype.toString()] of the engine. *)
  numberToString : float -> string
}.

Record Request := mkRequest {
  (** [request.json()] *)
  json : awaited JS.json;
  (** [request.headers.get('X-Supplier-Product-ID')] *)
  supplierProductIdHeader : option string
}.

Definition error_body (msg : string) : JS.json := JObj [("error", JStr msg)].

(** [{ success: true, product: v }] as serialised: an [undefined] value
    drops its key. *)
Definition success_body (product : jsval) : JS.json :=
  JObj (("success", JBool true) ::
        match product with Some p => [("product", p)] | None => [] end).

(** [{ "Content-Type": "application/json" }] *)
Definition json_headers : Headers := [("Content-Type", "application/json")].

(** [response.ok] *)
Definition ok (status : Z) : bool := (200 <=? status) && (status <=? 299).

Section Handler.
Variable W : World.

(** Lines 7-14. The destructuring of a [null] body throws. *)
Definition validate (body : JS.json)
  : M (Response JS.json) (JS.json * JS.json) :=
  product <- get body "product" ;;
  shop <- get body "shop" ;;
  when (negb (truthy_val product) || negb (truthy_val shop))
    (leave (json_response (error_body "Missing shop or product data") 400)) ;;;
  let product := the_val product in
  let shop := the_val shop in
  when (negb (truthy_val (prop product "title"))
        || negb (truthy_val (prop product "variants"))
        || negb (isArray (prop product "variants"))
        || negb (truthy_val
                   (opt_prop (index0 (the_val (prop product "variants")))
                             "price")))
    (leave (json_response
              (error_body
                 "Product must have a title and at least one variant with a price")
              400)) ;;;
  ret (product, shop).

(** Lines 24-49: which credential goes into the headers. *)
Definition resolve_credentials (shop : JS.json) (headers : Headers)
  : M (Response JS.json) Headers :=
  storeConfig <- await (SelectStoreConfig shop) (store_config W shop) ;;
  match storeConfig with
  | Some storeConfig =>
      if truthy_str (access_token storeConfig) then
        ret (set "X-Shopify-Access-Token" (the (access_token storeConfig)) headers)
      else if truthy_str (api_key storeConfig)
              && truthy_str (api_secret storeConfig) then
        let credentials :=
          base64_of_string (the (api_key storeConfig) ++ ":"
                            ++ the (api_secret storeConfig))%string in
        ret (set "Authorization" ("Basic " ++ credentials)%string headers)
      else
        leave (json_response
                 (error_body "No valid credentials found for direct API store")
                 401)
  | None =>
      accessToken <- await (GetToken shop) (getToken W shop) ;;
      when (negb (truthy_str accessToken))
        (leave (json_response
                  (error_body
                     "Missing access token. Please connect to Shopify first.")
                  401)) ;;;
      ret (set "X-Shopify-Access-Token" (the accessToken) headers)
  end.

(** [data.product.id.toString()], lines 77 and 85, for an id that line 70
    has converted to a string already. *)
Definition id_string (product : jsval) : string :=
  to_string (numberToString W) (the_val (opt_prop product "id")).

(** Lines 72-104: the best-effort mapping write. *)
Definition store_mapping (shop : JS.json) (supplierProductId : option string)
    (product : jsval) : M (Response JS.json) unit :=
  if truthy_val product
     && truthy_val (opt_prop product "id")
     && truthy_str supplierProductId then
    try_catch
      (console Log "Storing product mapping:" [] ;;;
       mappingError <-
         await (InsertMapping (the supplierProductId) (id_string product)
                  shop)
               (insert_mapping W (the supplierProductId) (id_string product)
                  shop) ;;
       if (mappingError : bool) then
         console Error "Error storing product mapping:" []
       else
         console Log "Product mapping stored successfully" [])
      (fun _ => console Error "Error in mapping storage:" [])
  else
    console Log "No mapping stored - missing data:" [].

(** Lines 107-110: the answer of the outer [catch]. The caught value is
    an [Error] object, which serialises to an empty object. *)
Definition internal_error : Response JS.json :=
  json_response
    (JObj [("error", JStr "Internal server error"); ("details", JObj [])]) 500.

(** Lines 16-106: what the handler does with a validated product. The
    template literals of lines 52, 55 and 70 convert [shop], and the
    [title] and [id] of the pushed product, to strings, which throws on a
    value that is not [convertible]. *)
Definition push (product shop : JS.json) (supplierProductId : option string)
  : M (Response JS.json) Empty_set :=
  console Log "Supplier Product ID from headers:"
    [option_map JStr supplierProductId] ;;;
  let headers := json_headers in
  headers <- resolve_credentials shop headers ;;
  when (negb (convertible shop)) (throw TypeError) ;;;
  console Log "Pushing product to shop:" [Some shop; Some product] ;;;
  response <- await (Fetch shop headers product)
                    (fetch W shop headers product) ;;
  data <- await_silent (snd response) ;;
  console Log "Push response status:" [] ;;;
  console Log "Shopify response:" [Some data] ;;;
  when (negb (ok (fst response)))
    (console Error "Shopify API error:" [Some data] ;;;
     errors <- get data "errors" ;;
     return_json
       (JObj [("error",
               if truthy_val errors then the_val errors
               else if truthy data then data
               else JStr "Shopify error")])
       (fst response)) ;;;
  pushed <- get data "product" ;;
  when (negb (convertible_val (opt_prop pushed "title"))
        || negb (convertible_val (opt_prop pushed "id")))
    (throw TypeError) ;;;
  console Log "Successfully pushed product:"
    [opt_prop pushed "title"; opt_prop pushed "id"] ;;;
  store_mapping shop supplierProductId pushed ;;;
  leave (json_response (success_body pushed) 200).

Definition POST (request : Request) : Response JS.json * list event :=
  try_handler
    (body <- await_silent (json request) ;;
     ps <- validate body ;;
     push (fst ps) (snd ps) (supplierProductIdHeader request))
    "Internal server error:" internal_error.

End Handler.
End PushToShopify.

(** ** The store-listing route ([GET /api/stores/user]) *)
Module StoresUser.
Import JS JS.Notations.

(** An element of [SellerStoreService.getSellerStoreConnections(username)]. *)
Record SellerConnection := mkSellerConnection {
  storeUrl : string;
  storeName : string;
  connectedAt : string;
  updatedAt : string;
  connectionType : string
}.

(** An element of [TokenManager.getUserStores(username)]. *)
Record TokenStore := mkTokenStore {
  shop : string;
  created_at : string;
  updated_at : string
}.

(** A value of [storeMap]. *)
Module Entry.
Record t := mk {
  shop : string;
  name : string;
  connectedAt : string;
  lastUpdated : string;
  type : string;
  source : string
}.
End Entry.

(** [storeMap]: a [Map] in insertion order. *)
Definition StoreMap := list (string * Entry.t).

(** Lines 47-52: the entry built from a seller connection. *)
Definition seller_entry (conn : SellerConnection) : Entry.t :=
  Entry.mk (storeUrl conn) (storeName conn) (connectedAt conn)
           (updatedAt conn) (connectionType conn) "seller_connections".

(** Lines 60-65: the entry built from a token-store row; the shop URL
    stands in for the name. *)
Definition legacy_entry (store : TokenStore) : Entry.t :=
  Entry.mk (shop store) (shop store) (created_at store)
           (updated_at store) "legacy" "shopify_tokens".

(** Lines 45-54: the callback of [sellerConnections.forEach]. *)
Definition add_seller_connection (storeMap : StoreMap) (conn : SellerConnection)
  : StoreMap :=
  set (storeUrl conn) (seller_entry conn) storeMap.

(** Lines 57-68: the callback of [tokenStores.forEach]. *)
Definition add_token_store (storeMap : StoreMap) (store : TokenStore)
  : StoreMap :=
  if negb (has (shop store) storeMap) then
    set (shop store) (legacy_entry store) storeMap
  else storeMap.

(** Lines 42-68: [storeMap] after both loops. *)
Definition store_map (sellerConnections : list SellerConnection)
    (tokenStores : list TokenStore) : StoreMap :=
  let storeMap : StoreMap := [] in
  let storeMap := fold_left add_seller_connection sellerConnections storeMap in
  fold_left add_token_store tokenStores storeMap.

(** Lines 42-70: [stores]. *)
Definition merge_stores (sellerConnections : list SellerConnection)
    (tokenStores : list TokenStore) : list Entry.t :=
  values (store_map sellerConnections tokenStores).

(** The JSON object the route answers with. *)
Inductive Body :=
| Stores (stores : list Entry.t) (username : string) (totalStores : nat)
| Failure (error : string).

Section Handler.

Variable verifySession : string -> awaited AuthSession.VerifyResult.
Variable getSellerStoreConnections : string -> awaited (list SellerConnection).
Variable getUserStores : string -> awaited (list TokenStore).

(** [sessionResult.user.userType !== 'seller'], [true] when there is no user. *)
Definition not_seller (u : option AuthSession.User) : bool :=
  match u with
  | Some u => negb (String.eqb (AuthSession.userType u) "seller")
  | None => true
  end.

Definition username_of (u : option AuthSession.User) : string :=
  match u with Some u => AuthSession.username u | None => EmptyString end.

Definition GET (sessionToken : option string) : Response Body * list event :=
  try_handler
    (when (negb (truthy_str sessionToken))
       (leave (json_response (Failure "Authentication required") 401)) ;;;
     sessionResult <- await (VerifySession (the sessionToken))
                            (verifySession (the sessionToken)) ;;
     when (negb (AuthSession.result_success sessionResult)
           || match AuthSession.result_user sessionResult with
              | Some _ => false | None => true end
           || not_seller (AuthSession.result_user sessionResult))
       (leave (json_response (Failure "Seller authentication required") 401)) ;;;
     let username := username_of (AuthSession.result_user sessionResult) in
     sellerConnections <- await (GetSellerStoreConnections username)
                                (getSellerStoreConnections username) ;;
     tokenStores <- await (GetUserStores username) (getUserStores username) ;;
     let stores := merge_stores sellerConnections tokenStores in
     leave (json_response (Stores stores username (List.length stores)) 200))
    "Error in GET /api/stores/user:"
    (json_response (Failure "Internal server error") 500).

End Handler.
End StoresUser.

(** ** Effects over any trace and exception type

    The same control flow as in [JS], for code whose effects are not those
    of the route handlers and whose thrown values carry a message. *)
Module Eff.
Import JS.

(** How a block of statements ends: it falls through with a value, it
    executes [return r], or it throws [x]. *)
Inductive result (X R A : Type) :=
| Value (a : A)
| Returned (r : R)
| Thrown (x : X).
Arguments Value {X R A} a.
Arguments Returned {X R A} r.
Arguments Thrown {X R A} x.

(** A block's result and the effects it performed, in program order. *)
Definition T (E X R A : Type) : Type := result X R A * list E.

Section Ops.
Context {E X R : Type}.

Definition ret {A} (a : A) : T E X R A := (Value a, []).
Definition bind {A B} (m : T E X R A) (f : A -> T E X R B) : T E X R B :=
  match m with
  | (Value a, t) => let (o, t') := f a in (o, t ++ t')
  | (Returned r, t) => (Returned r, t)
  | (Thrown x, t) => (Thrown x, t)
  end.
Definition leave {A} (r : R) : T E X R A := (Returned r, []).
Definition throw {A} (x : X) : T E X R A := (Thrown x, []).
Definition emit (e : E) : T E X R unit := (Value tt, [e]).

(** A call recorded as [e] that may throw (or an awaited promise that may
    reject); [x] is what is thrown then. *)
Definition invoke {A} (e : E) (x : X) (answer : awaited A) : T E X R A :=
  match answer with
  | Resolved a => (Value a, [e])
  | Rejects => (Thrown x, [e])
  end.

(** [await p] for a promise the block already holds. *)
Definition settle {A} (x : X) (answer : awaited A) : T E X R A :=
  match answer with
  | Resolved a => (Value a, [])
  | Rejects => (Thrown x, [])
  end.

(** [if (c) { m }] with no [else]. *)
Definition when (c : bool) (m : T E X R unit) : T E X R unit :=
  if c then m else ret tt.

(** [try { m } catch (error) { h }] *)
Definition try_catch {A} (m : T E X R A) (h : X -> T E X R A) : T E X R A :=
  match m with
  | (Thrown x, t) => let (o, t') := h x in (o, t ++ t')
  | other => other
  end.

(** [try { m } finally { f }] for a [finally] block that only performs the
    effects [f]. *)
Definition finally {A} (m : T E X R A) (f : list E) : T E X R A :=
  (fst m, snd m ++ f).

End Ops.

(** [await f()] for an [async] function [f] whose block is [m]: what [f]
    returns is the value, what it throws is thrown on. *)
Definition await_call {E X R R'} (m : T E X R' Empty_set) : T E X R R' :=
  match m with
  | (Returned r, t) => (Value r, t)
  | (Thrown x, t) => (Thrown x, t)
  | (Value a, _) => match a with end
  end.

Module Notations.
  Notation "x <~ m ;; k" := (bind m (fun x => k))
    (at level 61, m at next level, right associativity).
  Notation "m ;;~ k" := (bind m (fun _ => k))
    (at level 61, right associativity).
End Notations.

End Eff.

(** ** [src/lib/product-service.ts] ([getSupplierProducts],
    [createProduct]) and the supplier-products route, lines 1-15 of
    [src/app/api/products/supplier/route.ts] *)
Module ProductService.
Import JS Eff Eff.Notations.

(** What the service does, in program order: console calls with their
    message text (the values logged after it are not kept), and the calls
    to the auth client, to [localStorage] and to the tables. *)
Inductive call : Type :=
| Say (lv : level) (msg : string)
| AuthGetUser
| AuthRefreshSession
| LocalStorageGetItem (key : string)
| SelectSupplierByEmail (email : option string)
| SelectProductsBySupplier (supplier_id : string)
| InsertProduct (row : list (string * json)).

(** A block of statements of the service or of the route. A thrown value
    is told apart no further than [JS.exn] does. *)
Definition T (R A : Type) : Type := Eff.T call exn R A.

Definition say {R} (lv : level) (msg : string) : T R unit :=
  emit (Say lv msg).

(** A call that throws [Rejected] when it fails. *)
Definition ask {R A} (c : call) (answer : awaited A) : T R A :=
  invoke c Rejected answer.

(** The [user] of the auth client, as far as the service reads it. *)
Record AuthUser := mkAuthUser { email : option string }.

(** The row of [suppliers] selected by [select('username')]. *)
Record Supplier := mkSupplier { username : string }.

(** The row of [suppliers] selected by [select('username, name')]. *)
Record SupplierProfile := mkSupplierProfile {
  profile_username : string;
  profile_name : option string
}.

(** [{ data, error }] of a query; [error] says whether the answer carries
    a (truthy) error. *)
Record Answer (A : Type) := mkAnswer { data : option A; error : bool }.
Arguments mkAnswer {A}.
Arguments data {A}.
Arguments error {A}.

Section Service.

(** A row of [products]; its type is declared in [./types/product]. *)
Variable Product : Type.

(** What the collaborators answer during one call of
    [getSupplierProducts]. A thrown value is taken to be an [Error] object,
    hence truthy. *)
Record World := mkWorld {
  (** [supabase.auth.getUser()]: [authResult.data.user] and whether
      [authResult.error] is set. *)
  getUser : awaited (option AuthUser * bool);
  (** [supabase.auth.refreshSession()]: [refreshData.user] and whether
      [refreshError] is set. *)
  refreshSession : awaited (option AuthUser * bool);
  (** [localStorage.getItem(key)]; it throws where [localStorage] is not
      defined. *)
  getItem : string -> awaited (option string);
  (** [from('suppliers').select('username').eq('email', e).single()] *)
  supplier_by_email : option string -> awaited (Answer Supplier);
  (** [from('products').select('*').eq('supplier_id', id).order(...)] *)
  products_by_supplier : string -> awaited (Answer (list Product))
}.

Variable W : World.

(** [data || []] *)
Definition rows (d : option (list Product)) : list Product :=
  match d with Some l => l | None => [] end.

(** Lines 73-96: [user] and whether [userError] is set, after the first
    auth check and, when that throws, the session refresh. *)
Definition authenticate : T (list Product) (option AuthUser * bool) :=
  try_catch
    (authResult <~ ask AuthGetUser (getUser W) ;;
     ret (fst authResult, snd authResult))
    (fun _ =>
       say Log "⚠️ Initial auth check failed, trying session refresh..." ;;~
       try_catch
         (refresh <~ ask AuthRefreshSession (refreshSession W) ;;
          match fst refresh with
          | Some user =>
              say Log "✅ Session refreshed successfully" ;;~
              ret (Some user, false)
          | None => ret (None, snd refresh)
          end)
         (fun _ =>
            say Log "❌ Session refresh also failed:" ;;~
            ret (None, true))).

(** Lines 105-131: no verified user. *)
Definition from_local_storage : T (list Product) Empty_set :=
  say Error "❌ Error getting authenticated user:" ;;~
  say Log "🔄 Falling back to localStorage authentication..." ;;~
  supplierName <~ ask (LocalStorageGetItem "supplierName")
                      (getItem W "supplierName") ;;
  if truthy_str supplierName then
    say Log "📦 PRODUCT SERVICE - Querying products with localStorage supplier_id:" ;;~
    answer <~ ask (SelectProductsBySupplier (the supplierName))
                  (products_by_supplier W (the supplierName)) ;;
    say Log "📊 PRODUCT SERVICE - Query result (localStorage):" ;;~
    if error answer then
      say Error "❌ Error fetching products with localStorage fallback:" ;;~
      leave []
    else leave (rows (data answer))
  else leave [].

(** Lines 134-177: a verified user. *)
Definition from_supplier_row (user : AuthUser) : T (list Product) Empty_set :=
  supplier <~ ask (SelectSupplierByEmail (email user))
                  (supplier_by_email W (email user)) ;;
  say Log "👤 PRODUCT SERVICE - Supplier lookup:" ;;~
  supplierId <~
    match error supplier, data supplier with
    | false, Some supplierData =>
        say Log "✅ PRODUCT SERVICE - Using DB supplier ID:" ;;~
        ret (username supplierData)
    | _, _ =>
        stored <~ ask (LocalStorageGetItem "supplierName")
                      (getItem W "supplierName") ;;
        say Log "⚠️ PRODUCT SERVICE - Using localStorage fallback:" ;;~
        ret (if truthy_str stored then the stored else "Unknown User")
    end ;;
  say Log "📦 PRODUCT SERVICE - Querying products for supplier_id:" ;;~
  answer <~ ask (SelectProductsBySupplier supplierId)
                (products_by_supplier W supplierId) ;;
  say Log "📊 PRODUCT SERVICE - Query result:" ;;~
  if error answer then
    say Error "❌ Error fetching supplier products:" ;;~ leave []
  else leave (rows (data answer)).

(** Lines 68-182. *)
Definition getSupplierProducts : T (list Product) Empty_set :=
  try_catch
    (say Log "🔍 PRODUCT SERVICE - Getting supplier products..." ;;~
     auth <~ authenticate ;;
     say Log "🔐 PRODUCT SERVICE - Auth check:" ;;~
     match snd auth, fst auth with
     | false, Some user => from_supplier_row user
     | _, _ => from_local_storage
     end)
    (fun _ => say Error "Error in getSupplierProducts:" ;;~ leave []).

(** The JSON object the supplier-products route answers with. *)
Inductive Body :=
| Products (products : list Product)
| Failure (error : string).

(** [GET] of [src/app/api/products/supplier/route.ts], lines 4-15. *)
Definition GET : T (Response Body) Empty_set :=
  try_catch
    (products <~ await_call getSupplierProducts ;;
     leave (json_response (Products products) 200))
    (fun _ =>
       say Error "Error fetching supplier products:" ;;~
       leave (json_response (Failure "Failed to fetch supplier products") 500)).

(** What the collaborators answer during one call of [createProduct]. *)
Record CreationWorld := mkCreationWorld {
  (** [supabase.auth.getUser()]: [data.user] and whether [error] is set. *)
  creator : awaited (option AuthUser * bool);
  (** [from('suppliers').select('username, name').eq('email', e).single()] *)
  profile_by_email : option string -> awaited (Answer SupplierProfile);
  (** [localStorage.getItem(key)] *)
  stored_item : string -> awaited (option string);
  (** [from('products').insert(row).select().single()] *)
  insert_product : list (string * json) -> awaited (Answer Product)
}.

Variable C : CreationWorld.

(** [s || 'Unknown User'] *)
Definition or_unknown (s : option string) : string :=
  if truthy_str s then the s else "Unknown User".

(** Lines 216-222: [{ ...productData, supplier_id, supplier_name,
    status: 'pending', images: productData.images || [] }]: the own
    properties of [productData] in their order, the four keys overridden
    in place or added after them. *)
Definition new_row (productData : list (string * json))
    (supplierId supplierName : string) : list (string * json) :=
  set "images"
      (if truthy_val (assoc "images" productData)
       then the_val (assoc "images" productData) else JArr [])
    (set "status" (JStr "pending")
       (set "supplier_name" (JStr supplierName)
          (set "supplier_id" (JStr supplierId) productData))).

(** Lines 185-236. [productData] is a plain object, given by its own
    properties. *)
Definition createProduct (productData : list (string * json))
  : T (option Product) Empty_set :=
  try_catch
    (auth <~ ask AuthGetUser (creator C) ;;
     match snd auth, fst auth with
     | false, Some user =>
         supplier <~ ask (SelectSupplierByEmail (email user))
                         (profile_by_email C (email user)) ;;
         names <~
           match error supplier, data supplier with
           | false, Some supplierData =>
               ret (profile_username supplierData,
                    if truthy_str (profile_name supplierData)
                    then the (profile_name supplierData)
                    else profile_username supplierData)
           | _, _ =>
               first <~ ask (LocalStorageGetItem "supplierName")
                            (stored_item C "supplierName") ;;
               second <~ ask (LocalStorageGetItem "supplierName")
                             (stored_item C "supplierName") ;;
               ret (or_unknown first, or_unknown second)
           end ;;
         let row := new_row productData (fst names) (snd names) in
         answer <~ ask (InsertProduct row) (insert_product C row) ;;
         if error answer then
           say Error "Error creating product:" ;;~ leave None
         else leave (data answer)
     | _, _ =>
         say Error "Error getting authenticated user:" ;;~ leave None
     end)
    (fun _ => say Error "Error in createProduct:" ;;~ leave None).

End Service.

Arguments getUser {Product}.
Arguments refreshSession {Product}.
Arguments getItem {Product}.
Arguments supplier_by_email {Product}.
Arguments products_by_supplier {Product}.
Arguments rows {Product}.
Arguments authenticate {Product}.
Arguments from_local_storage {Product}.
Arguments from_supplier_row {Product}.
Arguments getSupplierProducts {Product}.
Arguments Products {Product}.
Arguments Failure {Product}.
Arguments GET {Product}.
Arguments creator {Product}.
Arguments profile_by_email {Product}.
Arguments stored_item {Product}.
Arguments insert_product {Product}.
Arguments createProduct {Product}.

End ProductService.

(** ** The delivery page ([DeliveryPage], first file of
    [src/unnamed/part_000]): [fetchOrders] and the status update *)
Module Delivery.
Import JS Eff Eff.Notations.

(** The [message] of an [Error] object: a text the code gives, the string
    form of a value the code passes to [new Error], or the text the engine
    or the network layer chose. *)
Inductive message :=
| Text (s : string)
| StringOf (v : json)
| EngineMessage.

(** [new Error(v).message] *)
Definition message_of (v : json) : message :=
  match v with
  | JStr s => Text s
  | _ => StringOf v
  end.

(** An element of [normalizedOrders], lines 125-140. *)
Record Order := mkOrder {
  id : jsval;
  orderNumber : jsval;
  name : jsval;
  customerName : jsval;
  customerEmail : jsval;
  customerPhone : jsval;
  shippingAddress : jsval;
  billingAddress : jsval;
  status : jsval;
  financialStatus : jsval;
  amount : jsval;
  currency : jsval;
  date : jsval;
  lineItems : jsval
}.

(** What [fetchOrders] does, in program order. *)
Inductive effect :=
| SetLoading (loading : bool)
| SetError (error : option message)
| SetOrders (orders : list Order)
| Toast (title description : string) (destructive : bool)
| FetchUrl (url : string)
| ConsoleLog (msg : string).

(** Every value thrown in [fetchOrders] is an [Error] object, known by
    its message. *)
Definition T (A : Type) : Type := Eff.T effect message unit A.

(** [a || b] *)
Definition or_else (a b : jsval) : jsval := if truthy_val a then a else b.

(** Lines 125-140: the callback of [map]; [None] when it throws, which it
    does on a [null] element. *)
Definition normalize (order : json) : option Order :=
  match order with
  | JNull => None
  | _ =>
      Some (mkOrder
              (prop order "id")
              (or_else (prop order "orderNumber")
                 (or_else (prop order "order_number") (prop order "name")))
              (prop order "name")
              (or_else (prop order "customerName") (Some (JStr "Guest")))
              (or_else (prop order "customerEmail") (Some (JStr "No email")))
              (or_else (prop order "customerPhone") (Some JNull))
              (or_else (prop order "shippingAddress") (Some JNull))
              (or_else (prop order "billingAddress") (Some JNull))
              (or_else (prop order "status") (Some (JStr "pending")))
              (or_else (prop order "financialStatus")
                 (or_else (prop order "financial_status")
                    (Some (JStr "pending"))))
              (or_else (prop order "amount") (Some (JNum 0%float)))
              (or_else (prop order "currency") (Some (JStr "INR")))
              (or_else (prop order "date") (prop order "created_at"))
              (or_else (prop order "lineItems") (Some (JArr []))))
  end.

(** [items.map(callback)]; [None] when the callback throws. *)
Fixpoint normalize_all (items : list json) : option (list Order) :=
  match items with
  | [] => Some []
  | order :: tl =>
      match normalize order, normalize_all tl with
      | Some o, Some os => Some (o :: os)
      | _, _ => None
      end
  end.

(** [(data.orders || []).map(callback)]: a falsy [orders] gives the empty
    list; a truthy one that is no array has no [map] and throws. *)
Definition normalized_orders (orders : jsval) : option (list Order) :=
  if truthy_val orders then
    match orders with
    | Some (JArr items) => normalize_all items
    | _ => None
    end
  else Some [].

(** [v.k], throwing on [null]. *)
Definition read (v : json) (k : string) : T jsval :=
  match v with
  | JNull => throw EngineMessage
  | _ => ret (prop v k)
  end.

Definition unified_url (store : string) : string :=
  ("/api/stores/orders?storeUrl=" ++ store)%string.
Definition graphql_url (store : string) : string :=
  ("/api/shopify-orders-graphql?shop=" ++ store)%string.
Definition rest_url (store : string) : string :=
  ("/api/shopify-orders?shop=" ++ store)%string.

Section Page.

(** [fetch(url)]: [response.ok] and what [response.json()] settles to. *)
Variable fetch : string -> awaited (bool * awaited json).

Definition request (url : string) : T (bool * awaited json) :=
  invoke (FetchUrl url) EngineMessage (fetch url).

(** Lines 98-122: the three sources in turn. *)
Definition load (store : string) : T json :=
  response <~ request (unified_url store) ;;
  if fst response then settle EngineMessage (snd response)
  else
    emit (ConsoleLog "Unified API failed, trying GraphQL...") ;;~
    response <~ request (graphql_url store) ;;
    if fst response then settle EngineMessage (snd response)
    else
      emit (ConsoleLog "GraphQL failed, trying REST...") ;;~
      response <~ request (rest_url store) ;;
      if fst response then settle EngineMessage (snd response)
      else
        errorData <~ settle EngineMessage (snd response) ;;
        error <~ read errorData "error" ;;
        throw (if truthy_val error then message_of (the_val error)
               else Text "Failed to fetch orders from all APIs").

(** Lines 88-153; [selectedStore] comes from the store context. *)
Definition fetchOrders (selectedStore : option string) : T unit :=
  finally
    (try_catch
       (emit (SetLoading true) ;;~
        emit (SetError None) ;;~
        when (negb (truthy_str selectedStore))
          (throw (Text "No store selected")) ;;~
        data <~ load (the selectedStore) ;;
        orders <~ read data "orders" ;;
        match normalized_orders orders with
        | Some normalizedOrders => emit (SetOrders normalizedOrders)
        | None => throw EngineMessage
        end)
       (fun err =>
          emit (SetError (Some err)) ;;~
          emit (Toast "Error" "Failed to fetch orders from store" true)))
    [SetLoading false].

End Page.

(** [order.id === orderId] *)
Definition has_id (order : Order) (orderId : string) : bool :=
  match id order with
  | Some (JStr s) => String.eqb s orderId
  | _ => false
  end.

(** [{ ...order, status: newStatus }] *)
Definition set_status (order : Order) (newStatus : string) : Order :=
  mkOrder (id order) (orderNumber order) (name order) (customerName order)
    (customerEmail order) (customerPhone order) (shippingAddress order)
    (billingAddress order) (Some (JStr newStatus)) (financialStatus order)
    (amount order) (currency order) (date order) (lineItems order).

(** Lines 175-177: the updater [updateDeliveryStatus] hands to
    [setOrders]. *)
Definition with_status (orderId newStatus : string) (prev : list Order)
  : list Order :=
  map (fun order =>
         if has_id order orderId then set_status order newStatus else order)
      prev.

(** [orders.filter((d) => d.status === s).length], the counters of the
    page. *)
Definition count_status (s : string) (orders : list Order) : nat :=
  List.length
    (filter (fun d => match status d with
                      | Some (JStr x) => String.eqb x s
                      | _ => false
                      end) orders).

End Delivery.

(** ** Concrete requests and collaborator answers used by the examples *)
Module Samples.
Import JS Crypto.

(** The double-quote character. *)
Definition dq : string := String (ascii_of_nat 34) EmptyString.

(** The text [{"id":1}]. *)
Definition id_text : string := ("{" ++ dq ++ "id" ++ dq ++ ":1}")%string.

(** [JSON.parse] on the two texts the examples send. *)
Definition parse (s : string) : option json :=
  if String.eqb s "null" then Some JNull
  else if String.eqb s id_text then Some (JObj [("id", JNum 1%float)])
  else None.

Definition secret : option string := Some "s3cret".

(** The signature of [id_text] under ["s3cret"]. *)
Definition id_signature : string := "Y92rNNpYOOODVF6ckLQPdKTj2qvF3ZqNSaUYda1LJBg=".

Definition signed_request : ShopifyWebhook.Request :=
  ShopifyWebhook.mkRequest id_text (Some id_signature)
    (Some "orders/create") (Some "shop.myshopify.com").

(** The same request with the first character of the signature changed. *)
Definition tampered_request : ShopifyWebhook.Request :=
  ShopifyWebhook.mkRequest id_text
    (Some "X92rNNpYOOODVF6ckLQPdKTj2qvF3ZqNSaUYda1LJBg=")
    (Some "orders/create") (Some "shop.myshopify.com").

Definition empty_signature_request : ShopifyWebhook.Request :=
  ShopifyWebhook.mkRequest id_text (Some EmptyString)
    (Some "orders/create") (Some "shop.myshopify.com").

(** The bytes of [id_text] behind a byte order mark. *)
Definition marked_body : bytes := [0xEF; 0xBB; 0xBF] ++ bytes_of_string id_text.

(** The signature of the bytes [marked_body] under ["s3cret"]. *)
Definition marked_signature : string :=
  base64 (hmac_sha256 (bytes_of_string "s3cret") marked_body).

Definition unsigned_request : ShopifyWebhook.Request :=
  ShopifyWebhook.mkRequest id_text None
    (Some "orders/create") (Some "shop.myshopify.com").

(** A correctly signed request whose text is the JSON literal [null]. *)
Definition null_request : ShopifyWebhook.Request :=
  ShopifyWebhook.mkRequest "null"
    (Some (hmac_sha256_base64 "s3cret" "null"))
    (Some "orders/create") (Some "shop.myshopify.com").

Definition seller : AuthSession.User :=
  AuthSession.mkUser "u-17" "asha" "seller".

(** A session service that knows one token, ["tok-live"], and reports
    another, ["tok-old"], as expired. *)
Definition verifySession (token : string)
  : awaited AuthSession.VerifyResult :=
  if String.eqb token "tok-live" then
    Resolved (AuthSession.mkVerifyResult true (Some seller) None)
  else if String.eqb token "tok-old" then
    Resolved (AuthSession.mkVerifyResult false None (Some "Session expired"))
  else
    Resolved (AuthSession.mkVerifyResult false None (Some "Invalid session")).

Definition mug : json :=
  JObj [("title", JStr "Mug");
        ("variants", JArr [JObj [("price", JStr "9.99")]])].

(** A product with a title and no [variants] key. *)
Definition mug_without_variants : json := JObj [("title", JStr "Mug")].

Definition push_body (product : json) (shop : string) : json :=
  JObj [("product", product); ("shop", JStr shop)].

Definition push_request (product : json) (shop : string)
  : PushToShopify.Request :=
  PushToShopify.mkRequest (Resolved (push_body product shop)) (Some "sp-1").

Definition shop_named (shop : json) (name : string) : bool :=
  match shop with JStr s => String.eqb s name | _ => false end.

(** [Number.prototype.toString()] on the one number the examples
    convert, the product id 7. *)
Definition show_number (x : float) : string :=
  if PrimFloat.eqb x 7 then "7" else "NaN".

(** Four stores: one whose active direct-config row holds a token and a key
    pair, one whose row holds a key pair only, one whose row holds half a
    key pair, and one with no row. The legacy token store answers with a
    token for every one of them. The platform answers 400 to the store
    [strict.example] and 201 to the others. *)
Definition world : PushToShopify.World :=
  PushToShopify.mkWorld
    (fun shop =>
       if shop_named shop "both.example" then
         Resolved (Some (PushToShopify.mkStoreConfig
                           (Some "shpat_direct") (Some "key") (Some "secret")))
       else if shop_named shop "keys.example" then
         Resolved (Some (PushToShopify.mkStoreConfig
                           None (Some "key") (Some "secret")))
       else if shop_named shop "half.example" then
         Resolved (Some (PushToShopify.mkStoreConfig None (Some "key") None))
       else Resolved None)
    (fun _ => Resolved (Some "shpat_legacy"))
    (fun shop _ product =>
       if shop_named shop "strict.example" then
         Resolved (400, Resolved (JObj [("errors", JStr "Bad Request")]))
       else
         Resolved (201, Resolved (JObj [("product",
                                         JObj [("id", JNum 7%float)])])))
    (fun _ _ _ => Resolved false)
    show_number.

Definition conn_a : StoresUser.SellerConnection :=
  StoresUser.mkSellerConnection "a.example" "Atelier A"
    "2024-01-05T10:00:00Z" "2024-02-01T10:00:00Z" "oauth".

(** A legacy row for the same store, updated later than [conn_a]. *)
Definition legacy_a : StoresUser.TokenStore :=
  StoresUser.mkTokenStore "a.example"
    "2023-11-20T08:00:00Z" "2025-06-01T00:00:00Z".

Definition legacy_b : StoresUser.TokenStore :=
  StoresUser.mkTokenStore "b.example"
    "2023-12-01T08:00:00Z" "2023-12-02T08:00:00Z".

(** A second legacy row for [b.example], later in the list and newer. *)
Definition legacy_b_again : StoresUser.TokenStore :=
  StoresUser.mkTokenStore "b.example"
    "2024-03-01T08:00:00Z" "2024-03-02T08:00:00Z".

Definition getSellerStoreConnections (username : string)
  : awaited (list StoresUser.SellerConnection) :=
  if String.eqb username "asha" then Resolved [conn_a] else Resolved [].

Definition getUserStores (username : string)
  : awaited (list StoresUser.TokenStore) :=
  if String.eqb username "asha" then Resolved [legacy_b] else Resolved [].

End Samples.

(** ** Vocabulary of the statements *)
Module Spec.
Import JS.

(** Every effect of a computation satisfies [P]. *)
Definition all_events {R A} (P : event -> Prop) (m : M R A) : Prop :=
  Forall P (snd m).

(** [e] is not a [console.warn] call. *)
Definition not_warning (e : event) : Prop :=
  match e with
  | Console Warn _ _ => False
  | _ => True
  end.

(** The topics whose [case] reads [payload.id]. *)
Definition reads_payload_id (topicHeader : option string) : bool :=
  ShopifyWebhook.is_case topicHeader "orders/create"
  || ShopifyWebhook.is_case topicHeader "orders/updated"
  || ShopifyWebhook.is_case topicHeader "products/create"
  || ShopifyWebhook.is_case topicHeader "products/update".

(** [v] is missing: [undefined], [null] or otherwise falsy. *)
Definition missing (v : jsval) : bool := negb (truthy_val v).

Definition has_title (product : json) : bool :=
  truthy_val (prop product "title").

(** [variants] is an array whose first element carries a truthy [price]. *)
Definition has_priced_variant (product : json) : bool :=
  match prop product "variants" with
  | Some (JArr (variant :: _)) => truthy_val (opt_prop (Some variant) "price")
  | _ => false
  end.

Definition product_of (body : json) : json := the_val (prop body "product").
Definition shop_of (body : json) : json := the_val (prop body "shop").

(** The product or the shop is missing, or the product lacks a title or a
    priced first variant. *)
Definition incomplete (body : json) : bool :=
  missing (prop body "product") || missing (prop body "shop")
  || negb (has_title (product_of body))
  || negb (has_priced_variant (product_of body)).

Definition is_get_token (e : event) : bool :=
  match e with GetToken _ => true | _ => false end.

Definition is_fetch (e : event) : bool :=
  match e with Fetch _ _ _ => true | _ => false end.

(** The entries of a store list that carry the store key [k]. *)
Definition entries_for (k : string) (stores : list StoresUser.Entry.t)
  : list StoresUser.Entry.t :=
  filter (fun e => String.eqb (StoresUser.Entry.shop e) k) stores.

(** The last seller connection of the list with store key [k]. *)
Fixpoint last_connection (k : string)
    (conns : list StoresUser.SellerConnection)
  : option StoresUser.SellerConnection :=
  match conns with
  | [] => None
  | c :: tl =>
      match last_connection k tl with
      | Some c' => Some c'
      | None => if String.eqb (StoresUser.storeUrl c) k then Some c else None
      end
  end.

(** The first token-store row of the list with store key [k]. *)
Definition first_token_store (k : string) (rows : list StoresUser.TokenStore)
  : option StoresUser.TokenStore :=
  find (fun s => String.eqb (StoresUser.shop s) k) rows.

(** The keys of [keys] in the order in which each occurs first, those
    among [seen] left out. *)
Fixpoint first_occurrences (seen keys : list string) : list string :=
  match keys with
  | [] => []
  | k :: tl =>
      if existsb (String.eqb k) seen then first_occurrences seen tl
      else k :: first_occurrences (seen ++ [k]) tl
  end.

(** Keys occur once, and every entry sits under its own [shop]. *)
Definition keyed (m : StoresUser.StoreMap) : Prop :=
  NoDup (map fst m)
  /\ Forall (fun p => StoresUser.Entry.shop (snd p) = fst p) m.

Definition between (lo hi b : Z) : bool := (lo <=? b) && (b <=? hi).

(** The bounds of the second byte of a sequence that starts with [b0]
    (Unicode Standard, table 3-7). *)
Definition second_lower (b0 : Z) : Z :=
  if b0 =? 0xE0 then 0xA0 else if b0 =? 0xF0 then 0x90 else 0x80.
Definition second_upper (b0 : Z) : Z :=
  if b0 =? 0xED then 0x9F else if b0 =? 0xF4 then 0x8F else 0xBF.

(** [bs] is well-formed UTF-8. *)
Fixpoint well_formed (bs : Crypto.bytes) : bool :=
  match bs with
  | [] => true
  | b0 :: tl =>
      if between 0 0x7F b0 then well_formed tl
      else if between 0xC2 0xDF b0 then
        match tl with
        | b1 :: tl => between 0x80 0xBF b1 && well_formed tl
        | _ => false
        end
      else if between 0xE0 0xEF b0 then
        match tl with
        | b1 :: b2 :: tl =>
            between (second_lower b0) (second_upper b0) b1
            && between 0x80 0xBF b2 && well_formed tl
        | _ => false
        end
      else if between 0xF0 0xF4 b0 then
        match tl with
        | b1 :: b2 :: b3 :: tl =>
            between (second_lower b0) (second_upper b0) b1
            && between 0x80 0xBF b2 && between 0x80 0xBF b3 && well_formed tl
        | _ => false
        end
      else false
  end.
(** [bs] starts with the byte order mark. *)
Definition marked (bs : Crypto.bytes) : bool :=
  match bs with
  | b0 :: b1 :: b2 :: _ => (b0 =? 0xEF) && (b1 =? 0xBB) && (b2 =? 0xBF)
  | _ => false
  end.

(** The request [r] carrying [h] as its signature header instead. *)
Definition with_hmac (r : ShopifyWebhook.Request) (h : option string)
  : ShopifyWebhook.Request :=
  ShopifyWebhook.mkRequest (ShopifyWebhook.text r) h
    (ShopifyWebhook.topicHeader r) (ShopifyWebhook.shopHeader r).

End Spec.

(** ** Vocabulary of the further statements *)
Module SpecExtra.
Import JS.

Definition is_null (v : json) : bool :=
  match v with JNull => true | _ => false end.

(** The signature check of the webhook turns the request down. *)
Definition signature_refused (env : option string)
    (request : ShopifyWebhook.Request) : bool :=
  negb (String.eqb (ShopifyWebhook.WEBHOOK_SECRET env) ShopifyWebhook.placeholder)
  && ShopifyWebhook.strict_ne (ShopifyWebhook.hmacHeader request)
       (Crypto.hmac_sha256_base64 (ShopifyWebhook.WEBHOOK_SECRET env)
          (ShopifyWebhook.text request)).

(** The headers hold the content type and exactly one credential. *)
Definition one_credential (h : PushToShopify.Headers) : Prop :=
  exists k v,
    h = [("Content-Type", "application/json"); (k, v)]
    /\ (k = "X-Shopify-Access-Token" \/ k = "Authorization").

Definition sends_one_credential (e : event) : Prop :=
  match e with
  | Fetch _ h _ => one_credential h
  | _ => True
  end.

(** The world [W] with another answer to the mapping insert. *)
Definition with_insert_mapping (W : PushToShopify.World)
    (answer : string -> string -> json -> awaited bool) : PushToShopify.World :=
  PushToShopify.mkWorld (PushToShopify.store_config W)
    (PushToShopify.getToken W) (PushToShopify.fetch W) answer
    (PushToShopify.numberToString W).

Definition is_insert_mapping (e : event) : bool :=
  match e with InsertMapping _ _ _ => true | _ => false end.

(** A status that a response with a body can carry: within 200..599 and
    not one that allows no body. *)
Definition carries_body (s : Z) : bool :=
  (200 <=? s) && (s <=? 599) && negb (null_body_status s).

(** What the handler puts under [error] when it relays the platform's
    answer [data]: [data.errors || data || "Shopify error"]. *)
Definition relayed_error (data : json) : json :=
  JObj [("error",
         if truthy_val (prop data "errors") then the_val (prop data "errors")
         else if truthy data then data else JStr "Shopify error")].

Definition from_primary (e : StoresUser.Entry.t) : Prop :=
  StoresUser.Entry.source e = "seller_connections".

Definition from_legacy (e : StoresUser.Entry.t) : Prop :=
  StoresUser.Entry.source e = "shopify_tokens".

Definition is_products_query (c : ProductService.call) : bool :=
  match c with
  | ProductService.SelectProductsBySupplier _ => true
  | _ => false
  end.

Definition is_storage_read (c : ProductService.call) : bool :=
  match c with ProductService.LocalStorageGetItem _ => true | _ => false end.

Definition is_insert_product (c : ProductService.call) : bool :=
  match c with ProductService.InsertProduct _ => true | _ => false end.

(** The keys [createProduct] sets itself. *)
Definition set_by_service (k : string) : bool :=
  String.eqb k "supplier_id" || String.eqb k "supplier_name"
  || String.eqb k "status" || String.eqb k "images".

(** The URLs requested, in order. *)
Definition fetched_urls (t : list Delivery.effect) : list string :=
  flat_map (fun e => match e with Delivery.FetchUrl u => [u] | _ => [] end) t.

Definition is_set_orders (e : Delivery.effect) : bool :=
  match e with Delivery.SetOrders _ => true | _ => false end.

(** The two steps of the [catch] block of [fetchOrders]. *)
Definition is_failure_report (e : Delivery.effect) : bool :=
  match e with
  | Delivery.SetError (Some _) => true
  | Delivery.Toast _ _ _ => true
  | _ => false
  end.

(** The effect changes what the page shows. *)
Definition is_page_update (e : Delivery.effect) : bool :=
  match e with
  | Delivery.FetchUrl _ | Delivery.ConsoleLog _ => false
  | _ => true
  end.

(** The source answered, and not with an ok status. *)
Definition not_ok (answer : awaited (bool * awaited json)) : bool :=
  match answer with
  | Resolved (false, _) => true
  | _ => false
  end.

(** The fields the page shows are filled in. *)
Definition has_defaults (o : Delivery.Order) : Prop :=
  truthy_val (Delivery.customerName o) = true
  /\ truthy_val (Delivery.customerEmail o) = true
  /\ truthy_val (Delivery.status o) = true
  /\ truthy_val (Delivery.financialStatus o) = true
  /\ truthy_val (Delivery.currency o) = true
  /\ truthy_val (Delivery.lineItems o) = true
  /\ Delivery.customerPhone o <> None
  /\ Delivery.shippingAddress o <> None
  /\ Delivery.billingAddress o <> None
  /\ Delivery.amount o <> None.

End SpecExtra.

(** ** Further collaborator answers used by the examples *)
Module SamplesExtra.
Import JS.

(** A session service that knows one administrator token. *)
Definition verifySession_admin (token : string)
  : awaited AuthSession.VerifyResult :=
  if String.eqb token "tok-admin" then
    Resolved (AuthSession.mkVerifyResult true
                (Some (AuthSession.mkUser "u-1" "root" "admin")) None)
  else Resolved (AuthSession.mkVerifyResult false None (Some "Invalid session")).

(** A token store that cannot be reached. *)
Definition getUserStores_down (username : string)
  : awaited (list StoresUser.TokenStore) := Rejects.

(** No direct-config row and no legacy token for any store. *)
Definition bare_world : PushToShopify.World :=
  PushToShopify.mkWorld
    (fun _ => Resolved None) (fun _ => Resolved None)
    (fun _ _ _ => Rejects) (fun _ _ _ => Rejects) Samples.show_number.

(** A platform that answers 201 with the JSON body [null]. *)
Definition null_answer_world : PushToShopify.World :=
  PushToShopify.mkWorld
    (fun _ => Resolved None) (fun _ => Resolved (Some "shpat_legacy"))
    (fun _ _ _ => Resolved (201, Resolved JNull)) (fun _ _ _ => Resolved false)
    Samples.show_number.

(** Products are stood for by their titles. *)
Definition catalogue (supplier_id : string)
  : awaited (ProductService.Answer (list string)) :=
  if String.eqb supplier_id "asha" then
    Resolved (ProductService.mkAnswer (Some ["Mug"; "Lamp"]) false)
  else if String.eqb supplier_id "mallory" then
    Resolved (ProductService.mkAnswer (Some ["Hat"]) false)
  else Resolved (ProductService.mkAnswer (Some []) false).

(** A signed-in supplier whose row is found; [localStorage] is not defined. *)
Definition verified_world : ProductService.World string :=
  ProductService.mkWorld string
    (Resolved (Some (ProductService.mkAuthUser (Some "asha@example.com")), false))
    Rejects
    (fun _ => Rejects)
    (fun _ => Resolved (ProductService.mkAnswer
                          (Some (ProductService.mkSupplier "asha")) false))
    catalogue.

(** Nobody is signed in, and [localStorage] names a supplier. *)
Definition anonymous_world : ProductService.World string :=
  ProductService.mkWorld string
    (Resolved (None, true))
    Rejects
    (fun _ => Resolved (Some "mallory"))
    (fun _ => Resolved (ProductService.mkAnswer None true))
    catalogue.

(** A signed-in supplier with a profile row; the insert answers with the
    title of the row it was given. *)
Definition creation_world : ProductService.CreationWorld string :=
  ProductService.mkCreationWorld string
    (Resolved (Some (ProductService.mkAuthUser (Some "asha@example.com")), false))
    (fun _ => Resolved (ProductService.mkAnswer
                          (Some (ProductService.mkSupplierProfile
                                   "asha" (Some "Asha Traders"))) false))
    (fun _ => Rejects)
    (fun row => match assoc "title" row with
                | Some (JStr title) =>
                    Resolved (ProductService.mkAnswer (Some title) false)
                | _ => Resolved (ProductService.mkAnswer None true)
                end).

(** A product sent in with a status of its own. *)
Definition mug_data : list (string * json) :=
  [("title", JStr "Mug"); ("status", JStr "approved")].

(** The order endpoints: for [shop.example] the unified one fails and the
    GraphQL one answers; for [down.example] only the REST one has a
    readable body. *)
Definition orders_api (url : string) : awaited (bool * awaited json) :=
  if String.eqb url (Delivery.graphql_url "shop.example") then
    Resolved (true,
              Resolved (JObj [("orders",
                               JArr [JObj [("id", JStr "o-1");
                                           ("name", JStr "#1001");
                                           ("status", JStr "fulfilled")]])]))
  else if String.eqb url (Delivery.rest_url "down.example") then
    Resolved (false, Resolved (JObj [("error", JStr "Shop not found")]))
  else Resolved (false, Rejects).

(** The order of [shop.example] as the page holds it. *)
Definition order_1001 : Delivery.Order :=
  Delivery.mkOrder (Some (JStr "o-1")) (Some (JStr "#1001"))
    (Some (JStr "#1001")) (Some (JStr "Guest")) (Some (JStr "No email"))
    (Some JNull) (Some JNull) (Some JNull) (Some (JStr "fulfilled"))
    (Some (JStr "pending")) (Some (JNum 0%float)) (Some (JStr "INR"))
    None (Some (JArr [])).

End SamplesExtra.

(** * Properties *)

Import JS Crypto Spec.

(** ** The hash model against published test vectors *)
Section CryptoVectors.

(** FIPS 180-4, the one-block message. *)
Example sha256_abc :
  hex (sha256 (bytes_of_string "abc"))
  = "ba7816bf8f01cfea414140de5dae2223b00361a396177a9cb410ff61f20015ad".
Proof. vm_compute. reflexivity. Qed.

(** FIPS 180-4, the two-block message. *)
Example sha256_two_blocks :
  hex (sha256 (bytes_of_string
                 "abcdbcdecdefdefgefghfghighijhijkijkljklmklmnlmnomnopnopq"))
  = "248d6a61d20638b8e5c026930c3e6039a33ce45964ff2167f6ecedd419db06c1".
Proof. vm_compute. reflexivity. Qed.

(** RFC 4231, test case 2. *)
Example hmac_sha256_rfc4231_2 :
  hex (hmac_sha256 (bytes_of_string "Jefe")
                   (bytes_of_string "what do ya want for nothing?"))
  = "5bdcc146bf60754e6a042426089575c75a003f089d2739839dec58b964ec3843".
Proof. vm_compute. reflexivity. Qed.

(** RFC 4231, test case 6: a key longer than the block is hashed first. *)
Example hmac_sha256_rfc4231_6 :
  hex (hmac_sha256 (repeat 170 131)
         (bytes_of_string
            "Test Using Larger Than Block-Size Key - Hash Key First"))
  = "60e431591ee0b67f0d8a26aacbf5b77f8e0bc6213728c5140546040f0ee37f54".
Proof. vm_compute. reflexivity. Qed.

(** RFC 4648, section 10. *)
Example base64_rfc4648 :
  (base64_of_string "f", base64_of_string "fo", base64_of_string "foo",
   base64_of_string "foobar")
  = ("Zg==", "Zm8=", "Zm9v", "Zm9vYmFy").
Proof. vm_compute. reflexivity. Qed.

End CryptoVectors.

(** ** Effects of composed computations *)
Section TraceLogic.
Context {R : Type} (P : event -> Prop).

Lemma all_events_ret {A} (a : A) : all_events P (ret a : M R A).
Proof. constructor. Qed.

Lemma all_events_leave {A} (r : R) : all_events P (leave r : M R A).
Proof. constructor. Qed.

Lemma all_events_throw {A} (e : exn) : all_events P (throw e : M R A).
Proof. constructor. Qed.

Lemma all_events_console lv msg args :
  P (Console lv msg args) -> all_events P (console lv msg args : M R unit).
Proof. intros H. repeat constructor. exact H. Qed.

Lemma all_events_get v k : all_events P (get v k : M R jsval).
Proof. destruct v; constructor. Qed.

Lemma all_events_bind {A B} (m : M R A) (f : A -> M R B) :
  all_events P m -> (forall a, all_events P (f a)) -> all_events P (bind m f).
Proof.
  unfold all_events. destruct m as [[a|r|e] t]; simpl; intros Hm Hf; auto.
  specialize (Hf a). destruct (f a) as [o t']. simpl in *.
  apply Forall_app; split; assumption.
Qed.

Lemma all_events_when (c : bool) (m : M R unit) :
  all_events P m -> all_events P (when c m).
Proof. destruct c; simpl; [auto | constructor]. Qed.

Lemma all_events_try_catch {A} (m : M R A) (h : exn -> M R A) :
  all_events P m -> (forall e, all_events P (h e)) ->
  all_events P (try_catch m h).
Proof.
  unfold all_events. destruct m as [[a|r|e] t]; simpl; intros Hm Hh; auto.
  specialize (Hh e). destruct (h e) as [o t']. simpl in *.
  apply Forall_app; split; assumption.
Qed.

Lemma all_events_try_handler (m : M R Empty_set) (msg : string) (r500 : R) :
  all_events P m -> P (Console Error msg []) ->
  Forall P (snd (try_handler m msg r500)).
Proof.
  unfold all_events. destruct m as [[[]|r|e] t]; simpl; intros Hm Hc; auto.
  apply Forall_app; split; [assumption | repeat constructor; exact Hc].
Qed.

Lemma in_bind_l {A B} (m : M R A) (f : A -> M R B) (e : event) :
  In e (snd m) -> In e (snd (bind m f)).
Proof.
  destruct m as [[a|r|x] t]; simpl; auto.
  destruct (f a) as [o t']. simpl. intros H. apply in_or_app. auto.
Qed.

Lemma in_bind_r {A B} (m : M R A) (f : A -> M R B) (a : A) (e : event) :
  fst m = Val a -> In e (snd (f a)) -> In e (snd (bind m f)).
Proof.
  destruct m as [o t]. simpl. intros ->. simpl.
  destruct (f a) as [o' t']. simpl. intros H. apply in_or_app. auto.
Qed.

Lemma in_try_handler (m : M R Empty_set) (msg : string) (r500 : R)
    (e : event) :
  In e (snd m) -> In e (snd (try_handler m msg r500)).
Proof.
  destruct m as [[[]|r|x] t]; simpl; auto.
  intros H. apply in_or_app. auto.
Qed.

End TraceLogic.

Create HintDb trace.
#[local] Hint Resolve all_events_ret all_events_leave all_events_throw
  all_events_console all_events_get all_events_bind all_events_when
  all_events_try_catch all_events_try_handler : trace.

(** ** The text of a request body *)
Section Utf8Facts.
Import Utf8.

(** A property of every integer of a short range, from its instances. *)
Lemma in_range (P : Z -> Prop) (lo : Z) (n : nat) :
  (forall i, (i < n)%nat -> P (lo + Z.of_nat i)) ->
  forall b, lo <= b < lo + Z.of_nat n -> P b.
Proof.
  intros H b Hb. replace b with (lo + Z.of_nat (Z.to_nat (b - lo))) by lia.
  apply H. lia.
Qed.

Tactic Notation "each_of" integer(n) :=
  let i := fresh "i" in
  let Hi := fresh "Hi" in
  intros i Hi; do n (destruct i as [|i]; [reflexivity|]); lia.

Lemma continuation_bits (b : Z) :
  0x80 <= b <= 0xBF -> Z.land b 0x3F = b - 0x80.
Proof.
  intros H.
  apply (in_range (fun b => Z.land b 0x3F = b - 0x80) 0x80 64);
    [each_of 64 | lia].
Qed.

Lemma continuation_byte (l : Z) :
  0 <= l < 64 -> Z.lor 0x80 l = 0x80 + l.
Proof.
  intros H.
  apply (in_range (fun l => Z.lor 0x80 l = 0x80 + l) 0 64);
    [each_of 64 | lia].
Qed.

Lemma lead_two (b : Z) :
  0xC2 <= b <= 0xDF ->
  step initial b = ([], mkState 1 0 (b - 0xC0) 0x80 0xBF).
Proof.
  intros H.
  apply (in_range (fun b => step initial b = ([], mkState 1 0 (b - 0xC0) 0x80 0xBF)) 0xC2 30);
    [each_of 30 | lia].
Qed.

Lemma lead_three (b : Z) :
  0xE0 <= b <= 0xEF ->
  step initial b
  = ([], mkState 2 0 (b - 0xE0) (second_lower b) (second_upper b)).
Proof.
  intros H.
  apply (in_range (fun b => step initial b = ([], mkState 2 0 (b - 0xE0) (second_lower b) (second_upper b))) 0xE0 16);
    [each_of 16 | lia].
Qed.

Lemma lead_four (b : Z) :
  0xF0 <= b <= 0xF4 ->
  step initial b
  = ([], mkState 3 0 (b - 0xF0) (second_lower b) (second_upper b)).
Proof.
  intros H.
  apply (in_range (fun b => step initial b = ([], mkState 3 0 (b - 0xF0) (second_lower b) (second_upper b))) 0xF0 5);
    [each_of 5 | lia].
Qed.

(** Six fresh low bits: the shifted code point and the bits of the byte do
    not overlap. *)
Lemma append_bits (cp x : Z) :
  0 <= cp -> 0 <= x < 64 -> Z.lor (Z.shiftl cp 6) x = cp * 64 + x.
Proof.
  intros Hcp Hx. rewrite Z.shiftl_mul_pow2 by lia. change (2 ^ 6) with 64.
  rewrite <- Z.lxor_lor, <- Z.add_nocarry_lxor; try reflexivity.
  all: apply Z.bits_inj'; intros n Hn; rewrite Z.land_spec, Z.bits_0.
  all: destruct (Z.lt_ge_cases n 6) as [Hlt|Hge].
  all: try (change 64 with (2 ^ 6); rewrite Z.mul_pow2_bits_low by lia;
            reflexivity).
  all: rewrite (Z.bits_above_log2 x n), andb_false_r; try reflexivity;
       try lia.
  all: destruct (Z.eq_dec x 0) as [->|Hne]; [cbn; lia|].
  all: assert (Z.log2 x < 6) by (apply Z.log2_lt_pow2; lia); lia.
Qed.

(** A byte that continues the sequence under way. *)
Lemma step_continue (n sn cp lo hi b : Z) :
  n <> 0 -> lo <= b <= hi -> 0x80 <= b <= 0xBF -> 0 <= cp ->
  step (mkState n sn cp lo hi) b
  = if sn + 1 =? n then ([cp * 64 + (b - 0x80)], initial)
    else ([], mkState n (sn + 1) (cp * 64 + (b - 0x80)) 0x80 0xBF).
Proof.
  intros Hn Hb Hc Hcp. unfold step. cbn [needed seen code_point lower upper].
  replace (n =? 0) with false by (symmetry; apply Z.eqb_neq; exact Hn).
  replace ((lo <=? b) && (b <=? hi)) with true
    by (symmetry; apply andb_true_iff; rewrite !Z.leb_le; exact Hb).
  cbn [negb]. rewrite (continuation_bits b Hc), append_bits by lia.
  reflexivity.
Qed.

Lemma second_bounds (b0 : Z) :
  0x80 <= second_lower b0 /\ second_upper b0 <= 0xBF.
Proof.
  unfold second_lower, second_upper.
  destruct (b0 =? 0xE0), (b0 =? 0xF0), (b0 =? 0xED), (b0 =? 0xF4); lia.
Qed.

Lemma low_six (c : Z) : Z.land c 0x3F = c mod 64.
Proof. change 0x3F with (Z.ones 6). rewrite Z.land_ones by lia. reflexivity. Qed.

Lemma encode_two (h l : Z) :
  2 <= h < 32 -> 0 <= l < 64 ->
  encode_code_point (h * 64 + l) = [0xC0 + h; 0x80 + l].
Proof.
  intros Hh Hl. unfold encode_code_point.
  replace (h * 64 + l <=? 0x7F) with false by (symmetry; apply Z.leb_gt; lia).
  replace (h * 64 + l <=? 0x7FF) with true by (symmetry; apply Z.leb_le; lia).
  rewrite low_six, Z.shiftr_div_pow2 by lia. change (2 ^ 6) with 64.
  replace ((h * 64 + l) / 64) with h by (Z.div_mod_to_equations; lia).
  replace ((h * 64 + l) mod 64) with l by (Z.div_mod_to_equations; lia).
  rewrite (continuation_byte l Hl). f_equal. lia.
Qed.

Lemma encode_three (h l1 l2 : Z) :
  0 <= h < 16 -> 0 <= l1 < 64 -> 0 <= l2 < 64 -> (h = 0 -> 32 <= l1) ->
  encode_code_point ((h * 64 + l1) * 64 + l2)
  = [0xE0 + h; 0x80 + l1; 0x80 + l2].
Proof.
  intros Hh Hl1 Hl2 Hmin. unfold encode_code_point.
  set (c := (h * 64 + l1) * 64 + l2).
  assert (Hc : 0x800 <= c <= 0xFFFF) by (unfold c; lia).
  replace (c <=? 0x7F) with false by (symmetry; apply Z.leb_gt; lia).
  replace (c <=? 0x7FF) with false by (symmetry; apply Z.leb_gt; lia).
  replace (c <=? 0xFFFF) with true by (symmetry; apply Z.leb_le; lia).
  rewrite !low_six, !Z.shiftr_div_pow2 by lia.
  change (2 ^ 6) with 64. change (2 ^ 12) with 4096.
  replace (c / 4096) with h by (unfold c; Z.div_mod_to_equations; lia).
  replace ((c / 64) mod 64) with l1 by (unfold c; Z.div_mod_to_equations; lia).
  replace (c mod 64) with l2 by (unfold c; Z.div_mod_to_equations; lia).
  rewrite (continuation_byte l1 Hl1), (continuation_byte l2 Hl2).
  f_equal. lia.
Qed.

Lemma encode_four (h l1 l2 l3 : Z) :
  0 <= h < 8 -> 0 <= l1 < 64 -> 0 <= l2 < 64 -> 0 <= l3 < 64 ->
  (h = 0 -> 16 <= l1) ->
  encode_code_point (((h * 64 + l1) * 64 + l2) * 64 + l3)
  = [0xF0 + h; 0x80 + l1; 0x80 + l2; 0x80 + l3].
Proof.
  intros Hh Hl1 Hl2 Hl3 Hmin. unfold encode_code_point.
  set (c := ((h * 64 + l1) * 64 + l2) * 64 + l3).
  assert (Hc : 0x10000 <= c) by (unfold c; lia).
  replace (c <=? 0x7F) with false by (symmetry; apply Z.leb_gt; lia).
  replace (c <=? 0x7FF) with false by (symmetry; apply Z.leb_gt; lia).
  replace (c <=? 0xFFFF) with false by (symmetry; apply Z.leb_gt; lia).
  rewrite !low_six, !Z.shiftr_div_pow2 by lia.
  change (2 ^ 6) with 64. change (2 ^ 12) with 4096.
  change (2 ^ 18) with 262144.
  replace (c / 262144) with h by (unfold c; Z.div_mod_to_equations; lia).
  replace ((c / 4096) mod 64) with l1
    by (unfold c; Z.div_mod_to_equations; lia).
  replace ((c / 64) mod 64) with l2 by (unfold c; Z.div_mod_to_equations; lia).
  replace (c mod 64) with l3 by (unfold c; Z.div_mod_to_equations; lia).
  rewrite (continuation_byte l1 Hl1), (continuation_byte l2 Hl2),
    (continuation_byte l3 Hl3).
  f_equal. lia.
Qed.

Lemma between_spec (lo hi b : Z) : between lo hi b = true <-> lo <= b <= hi.
Proof. unfold between. rewrite andb_true_iff, !Z.leb_le. tauto. Qed.

Lemma encode_app (a b : list Z) : encode (a ++ b) = encode a ++ encode b.
Proof. apply flat_map_app. Qed.

(** Well-formed bytes decode and encode to themselves. *)
Lemma well_formed_round_trip (n : nat) (bs : bytes) :
  (List.length bs <= n)%nat -> well_formed bs = true ->
  encode (run initial bs) = bs.
Proof.
  revert bs. induction n as [|n IH]; intros bs Hlen Hwf.
  - destruct bs; [reflexivity | cbn in Hlen; lia].
  - destruct bs as [|b0 tl]; [reflexivity|].
    cbn [well_formed] in Hwf. cbn [List.length] in Hlen.
    destruct (between 0 0x7F b0) eqn:H1.
    { apply between_spec in H1. cbn [run].
      assert (E : step initial b0 = ([b0], initial)).
      { unfold step, lead. cbn [needed initial Z.eqb].
        replace (b0 <=? 0x7F) with true by (symmetry; apply Z.leb_le; lia).
        reflexivity. }
      rewrite E. rewrite encode_app, (IH tl) by (lia || exact Hwf).
      cbn [encode flat_map app]. unfold encode_code_point.
      replace (b0 <=? 0x7F) with true by (symmetry; apply Z.leb_le; lia).
      reflexivity. }
    destruct (between 0xC2 0xDF b0) eqn:H2.
    { apply between_spec in H2.
      destruct tl as [|b1 tl]; [discriminate|].
      apply andb_true_iff in Hwf. destruct Hwf as [Hb1 Hwf].
      apply between_spec in Hb1. cbn [List.length] in Hlen.
      cbn [run]. rewrite (lead_two b0 H2). cbn [app].
      rewrite step_continue by lia. cbn [Z.add Z.eqb Pos.eqb Pos.add].
      cbn [app]. change (?x :: run initial tl) with ([x] ++ run initial tl).
      rewrite encode_app, (IH tl) by (lia || exact Hwf).
      cbn [encode flat_map]. rewrite app_nil_r.
      rewrite encode_two by lia. cbn [app]. do 2 (f_equal; try lia). }
    destruct (between 0xE0 0xEF b0) eqn:H3.
    { apply between_spec in H3.
      destruct tl as [|b1 [|b2 tl]]; try discriminate.
      apply andb_true_iff in Hwf. destruct Hwf as [Hwf Hwf'].
      apply andb_true_iff in Hwf. destruct Hwf as [Hb1 Hb2].
      apply between_spec in Hb1. apply between_spec in Hb2.
      cbn [List.length] in Hlen.
      destruct (second_bounds b0) as [Hlo Hhi].
      cbn [run]. rewrite (lead_three b0 H3). cbn [app].
      rewrite step_continue by lia. cbn [Z.add Z.eqb Pos.eqb Pos.add].
      cbn [app]. rewrite step_continue by lia.
      cbn [Z.add Z.eqb Pos.eqb Pos.add]. cbn [app].
      change (?x :: run initial tl) with ([x] ++ run initial tl).
      rewrite encode_app, (IH tl) by (lia || exact Hwf').
      cbn [encode flat_map]. rewrite app_nil_r.
      rewrite encode_three; try lia.
      - cbn [app]. do 3 (f_equal; try lia).
      - intros Hh. unfold second_lower in Hb1.
        replace (b0 =? 0xE0) with true in Hb1
          by (symmetry; apply Z.eqb_eq; lia). lia. }
    destruct (between 0xF0 0xF4 b0) eqn:H4; [|discriminate].
    apply between_spec in H4.
    destruct tl as [|b1 [|b2 [|b3 tl]]]; try discriminate.
    apply andb_true_iff in Hwf. destruct Hwf as [Hwf Hwf'].
    apply andb_true_iff in Hwf. destruct Hwf as [Hwf Hb3].
    apply andb_true_iff in Hwf. destruct Hwf as [Hb1 Hb2].
    apply between_spec in Hb1. apply between_spec in Hb2.
    apply between_spec in Hb3. cbn [List.length] in Hlen.
    destruct (second_bounds b0) as [Hlo Hhi].
    cbn [run]. rewrite (lead_four b0 H4). cbn [app].
    rewrite step_continue by lia. cbn [Z.add Z.eqb Pos.eqb Pos.add].
    cbn [app]. rewrite step_continue by lia.
    cbn [Z.add Z.eqb Pos.eqb Pos.add]. cbn [app].
    rewrite step_continue by lia.
    cbn [Z.add Z.eqb Pos.eqb Pos.add]. cbn [app].
    change (?x :: run initial tl) with ([x] ++ run initial tl).
    rewrite encode_app, (IH tl) by (lia || exact Hwf').
    cbn [encode flat_map]. rewrite app_nil_r.
    rewrite encode_four; try lia.
    + cbn [app]. do 4 (f_equal; try lia).
    + intros Hh. unfold second_lower in Hb1.
      replace (b0 =? 0xE0) with false in Hb1
        by (symmetry; apply Z.eqb_neq; lia).
      replace (b0 =? 0xF0) with true in Hb1
        by (symmetry; apply Z.eqb_eq; lia). lia.
Qed.

Lemma well_formed_bytes (n : nat) (bs : bytes) :
  (List.length bs <= n)%nat -> well_formed bs = true ->
  Forall (fun b => 0 <= b <= 0xFF) bs.
Proof.
  revert bs. induction n as [|n IH]; intros bs Hlen Hwf.
  - destruct bs; [constructor | cbn in Hlen; lia].
  - destruct bs as [|b0 tl]; [constructor|].
    cbn [well_formed] in Hwf. cbn [List.length] in Hlen.
    destruct (between 0 0x7F b0) eqn:H1.
    { apply between_spec in H1. constructor; [lia|]. apply IH; [lia|exact Hwf]. }
    destruct (between 0xC2 0xDF b0) eqn:H2.
    { apply between_spec in H2. destruct tl as [|b1 tl]; [discriminate|].
      apply andb_true_iff in Hwf. destruct Hwf as [Hb1 Hwf].
      apply between_spec in Hb1. cbn [List.length] in Hlen.
      repeat (constructor; [lia|]). apply IH; [lia|exact Hwf]. }
    destruct (second_bounds b0) as [Hlo Hhi].
    destruct (between 0xE0 0xEF b0) eqn:H3.
    { apply between_spec in H3.
      destruct tl as [|b1 [|b2 tl]]; try discriminate.
      apply andb_true_iff in Hwf. destruct Hwf as [Hwf Hwf'].
      apply andb_true_iff in Hwf. destruct Hwf as [Hb1 Hb2].
      apply between_spec in Hb1. apply between_spec in Hb2.
      cbn [List.length] in Hlen.
      repeat (constructor; [lia|]). apply IH; [lia|exact Hwf']. }
    destruct (between 0xF0 0xF4 b0) eqn:H4; [|discriminate].
    apply between_spec in H4.
    destruct tl as [|b1 [|b2 [|b3 tl]]]; try discriminate.
    apply andb_true_iff in Hwf. destruct Hwf as [Hwf Hwf'].
    apply andb_true_iff in Hwf. destruct Hwf as [Hwf Hb3].
    apply andb_true_iff in Hwf. destruct Hwf as [Hb1 Hb2].
    apply between_spec in Hb1. apply between_spec in Hb2.
    apply between_spec in Hb3. cbn [List.length] in Hlen.
    repeat (constructor; [lia|]). apply IH; [lia|exact Hwf'].
Qed.

Lemma bytes_of_string_of_bytes (bs : bytes) :
  Forall (fun b => 0 <= b <= 0xFF) bs ->
  bytes_of_string (string_of_bytes bs) = bs.
Proof.
  induction 1 as [|b bs Hb _ IH]; cbn [string_of_bytes bytes_of_string];
    [reflexivity|].
  rewrite IH, N_ascii_embedding, Z2N.id; [reflexivity | lia | lia].
Qed.

(** The text of a well-formed body without a byte order mark is the body:
    the bytes the handler signs are the bytes that arrived. *)
Lemma text_of_well_formed (raw : bytes) :
  well_formed raw = true -> marked raw = false ->
  bytes_of_string (text_of raw) = raw.
Proof.
  intros Hwf Hm. unfold text_of, decode.
  assert (E : skip_bom raw = raw).
  { unfold skip_bom, marked in *.
    destruct raw as [|b0 [|b1 [|b2 tl]]]; try reflexivity.
    rewrite Hm. reflexivity. }
  rewrite E, (well_formed_round_trip (List.length raw) raw (le_n _) Hwf).
  apply bytes_of_string_of_bytes.
  exact (well_formed_bytes (List.length raw) raw (le_n _) Hwf).
Qed.

End Utf8Facts.

(** ** Inbound webhooks *)
Section WebhookProperties.
Import ShopifyWebhook.

Variable JSON_parse : string -> option json.

Lemma strict_ne_false (h : option string) (expected : string) :
  strict_ne h expected = false <-> h = Some expected.
Proof.
  destruct h as [s|]; simpl.
  - rewrite negb_false_iff, String.eqb_eq. split; congruence.
  - split; discriminate.
Qed.

Lemma strict_ne_true (h : option string) (expected : string) :
  strict_ne h expected = true <-> h <> Some expected.
Proof.
  rewrite <- strict_ne_false. destruct (strict_ne h expected); split; congruence.
Qed.

Lemma real_secret_checked (env : option string) :
  WEBHOOK_SECRET env <> placeholder ->
  negb (String.eqb (WEBHOOK_SECRET env) placeholder) = true.
Proof.
  intros H. apply negb_true_iff, String.eqb_neq, H.
Qed.

Lemma verify_signature_real (env : option string) (body : string)
    (h : option string) :
  WEBHOOK_SECRET env <> placeholder ->
  verify_signature env body h =
    if strict_ne h (hmac_sha256_base64 (WEBHOOK_SECRET env) body)
    then (Return (json_response (error_body "Invalid signature") 401),
          [Console Error "Webhook signature verification failed" []])
    else (Val tt, []).
Proof.
  intros H. unfold verify_signature. rewrite (real_secret_checked env H).
  cbv [when]. destruct (strict_ne h _); reflexivity.
Qed.

Lemma verify_signature_bypass (env : option string) (body : string)
    (h : option string) :
  WEBHOOK_SECRET env = placeholder ->
  verify_signature env body h = (Val tt, []).
Proof.
  intros H. unfold verify_signature. rewrite H. reflexivity.
Qed.

(** The signature check as it acts on the text the handler holds. *)
Lemma signature_checked_on_text (env : option string) (request : Request) :
  WEBHOOK_SECRET env <> placeholder ->
  let expected :=
    base64 (hmac_sha256 (bytes_of_string (WEBHOOK_SECRET env))
                        (bytes_of_string (text request))) in
  (hmacHeader request <> Some expected ->
   POST JSON_parse env request =
     (json_response (error_body "Invalid signature") 401,
      [Console Log ("Webhook received: " ++ show_nullable (topicHeader request)
                    ++ " from " ++ show_nullable (shopHeader request))%string [];
       Console Error "Webhook signature verification failed" []]))
  /\ (hmacHeader request = Some expected ->
      verify_signature env (text request) (hmacHeader request) = (Val tt, []))
  /\ (status (fst (POST JSON_parse env request)) = 200 ->
      hmacHeader request = Some expected).
Proof.
  intros Hreal expected.
  assert (Hrej : hmacHeader request <> Some expected ->
    POST JSON_parse env request =
     (json_response (error_body "Invalid signature") 401,
      [Console Log ("Webhook received: " ++ show_nullable (topicHeader request)
                    ++ " from " ++ show_nullable (shopHeader request))%string [];
       Console Error "Webhook signature verification failed" []])).
  { intros Hne. unfold POST. rewrite (verify_signature_real env _ _ Hreal).
    apply strict_ne_true in Hne. fold (hmac_sha256_base64 (WEBHOOK_SECRET env) (text request)) in expected.
    subst expected. rewrite Hne. reflexivity. }
  split; [exact Hrej|]. split.
  - intros Heq. rewrite (verify_signature_real env _ _ Hreal).
    apply strict_ne_false in Heq. subst expected.
    unfold hmac_sha256_base64. rewrite Heq. reflexivity.
  - intros H200.
    destruct (strict_ne (hmacHeader request) expected) eqn:E.
    + apply strict_ne_true in E. rewrite (Hrej E) in H200. discriminate.
    + apply strict_ne_false in E. exact E.
Qed.

(** C2 as the code has it: the handler signs the text it reads, not the
    bytes that arrived. Under a real secret the expected signature is the
    base64 form of HMAC-SHA256, keyed by the secret, over the UTF-8 bytes of
    the body decoded as text (a leading byte order mark dropped, malformed
    sequences replaced); a header that differs from it in any way (absent
    and empty included) gets the 401 answer through the ordinary return
    path, not the catch block; an equal header passes the check; nothing
    but an equal header leads to the 200 acknowledgement; and for a body
    that is well-formed UTF-8 and does not start with a byte order mark the
    bytes signed are the bytes that arrived. *)
Theorem webhook_signature_checked (env : option string) (raw : bytes)
    (header topic shop : option string) :
  WEBHOOK_SECRET env <> placeholder ->
  let request := received raw header topic shop in
  let expected :=
    base64 (hmac_sha256 (bytes_of_string (WEBHOOK_SECRET env))
                        (bytes_of_string (Utf8.text_of raw))) in
  (header <> Some expected ->
   POST JSON_parse env request =
     (json_response (error_body "Invalid signature") 401,
      [Console Log ("Webhook received: " ++ show_nullable topic
                    ++ " from " ++ show_nullable shop)%string [];
       Console Error "Webhook signature verification failed" []]))
  /\ (header = Some expected ->
      verify_signature env (text request) header = (Val tt, []))
  /\ (status (fst (POST JSON_parse env request)) = 200 ->
      header = Some expected)
  /\ (well_formed raw = true -> marked raw = false ->
      bytes_of_string (Utf8.text_of raw) = raw).
Proof.
  intros Hreal request expected.
  destruct (signature_checked_on_text env request Hreal) as (H1 & H2 & H3).
  split; [exact H1|]. split; [exact H2|]. split; [exact H3|].
  apply text_of_well_formed.
Qed.

Lemma dispatch_acknowledges (topicHeader shopHeader : option string)
    (payload : json) :
  payload <> JNull \/ reads_payload_id topicHeader = false ->
  exists t, dispatch topicHeader shopHeader payload = (Val tt, t).
Proof.
  unfold reads_payload_id, dispatch. intros H.
  destruct (is_case topicHeader "orders/create");
  [|destruct (is_case topicHeader "orders/updated");
  [|destruct (is_case topicHeader "products/create");
  [|destruct (is_case topicHeader "products/update");
  [|destruct (is_case topicHeader "app/uninstalled")]]]];
  try (destruct H as [H|H]; [|discriminate H];
       destruct payload; try congruence; eexists; reflexivity);
  eexists; reflexivity.
Qed.

(** Where the acknowledgement contract does hold: past the signature check
    and the parse, every topic is answered 200 unless the payload is [null]
    and the topic is one whose case reads [payload.id]. *)
Lemma webhook_acknowledged (env : option string) (request : Request)
    (payload : json) :
  verify_signature env (text request) (hmacHeader request) = (Val tt, []) ->
  JSON_parse (text request) = Some payload ->
  payload <> JNull \/ reads_payload_id (topicHeader request) = false ->
  fst (POST JSON_parse env request) = json_response success_body 200.
Proof.
  intros Hv Hp Hd. unfold POST, parse_payload. rewrite Hv, Hp.
  destruct (dispatch_acknowledges (topicHeader request) (shopHeader request)
              payload Hd) as [t Ht].
  cbn [console emit bind ret try_catch]. rewrite Ht. reflexivity.
Qed.

(** C4, at the input where the code departs from it: a correctly signed
    request whose text is the JSON literal [null], with topic
    [orders/create], passes the signature check and the parse, then throws
    on [payload.id] and is answered 500 from the catch block. *)
Theorem webhook_null_payload_answered_500 :
  JSON_parse "null" = Some JNull ->
  verify_signature Samples.secret (text Samples.null_request)
    (hmacHeader Samples.null_request) = (Val tt, [])
  /\ POST JSON_parse Samples.secret Samples.null_request
     = (json_response (error_body "Internal server error") 500,
        [Console Log "Webhook received: orders/create from shop.myshopify.com" [];
         Console Error "Webhook processing error:" []]).
Proof.
  intros Hp.
  assert (Hv : verify_signature Samples.secret (text Samples.null_request)
                 (hmacHeader Samples.null_request) = (Val tt, []))
    by (vm_compute; reflexivity).
  split; [exact Hv|].
  unfold POST, parse_payload. rewrite Hv.
  change (text Samples.null_request) with "null". rewrite Hp.
  reflexivity.
Qed.

Lemma verify_signature_no_warning (env : option string) (body : string)
    (h : option string) :
  all_events not_warning (verify_signature env body h).
Proof.
  unfold verify_signature.
  apply all_events_when, all_events_when, all_events_bind;
    [apply all_events_console; exact I | intros; apply all_events_leave].
Qed.

Lemma dispatch_no_warning (topicHeader shopHeader : option string)
    (payload : json) :
  all_events (R := Response json) not_warning
    (dispatch topicHeader shopHeader payload).
Proof.
  unfold dispatch.
  repeat match goal with
         | |- context [if ?c then _ else _] => destruct c
         end;
  repeat first [ apply all_events_bind; [apply all_events_get | intros]
               | apply all_events_console; exact I ].
Qed.

(** C7 as the code has it: the signature check is skipped exactly when the
    secret equals the placeholder; no request, in either mode, produces a
    [console.warn] call; in bypass mode the answer and the log do not
    depend on the signature header at all; and a bypassed request gets the
    answer and the log, entry for entry, of the same request correctly
    signed under any real secret. *)
Theorem webhook_bypass_mode (env : option string) :
  (WEBHOOK_SECRET env = placeholder <->
   forall body h, verify_signature env body h = (Val tt, []))
  /\ (forall request,
        Forall not_warning (snd (POST JSON_parse env request)))
  /\ (WEBHOOK_SECRET env = placeholder ->
      forall request h,
        POST JSON_parse env (with_hmac request h) = POST JSON_parse env request)
  /\ (WEBHOOK_SECRET env = placeholder ->
      forall request real,
        WEBHOOK_SECRET real <> placeholder ->
        POST JSON_parse env request
        = POST JSON_parse real
            (with_hmac request
               (Some (hmac_sha256_base64 (WEBHOOK_SECRET real)
                        (text request))))).
Proof.
  split; [|split; [|split]].
  - split.
    + intros H body h. apply verify_signature_bypass, H.
    + intros H. destruct (String.eqb_spec (WEBHOOK_SECRET env) placeholder)
        as [E|E]; [exact E|].
      specialize (H EmptyString None).
      rewrite (verify_signature_real env _ _ E) in H. discriminate H.
  - intros request. unfold POST.
    apply all_events_try_handler; [|exact I].
    apply all_events_bind; [apply all_events_console; exact I | intros _].
    apply all_events_bind; [apply verify_signature_no_warning | intros _].
    apply all_events_bind.
    + unfold parse_payload. apply all_events_try_catch.
      * destruct (JSON_parse (text request)); auto with trace.
      * intros e. apply all_events_bind;
          [apply all_events_console; exact I | intros; apply all_events_leave].
    + intros payload.
      apply all_events_bind; [apply dispatch_no_warning | intros _].
      apply all_events_leave.
  - intros H request h. unfold POST, with_hmac. simpl.
    rewrite !(verify_signature_bypass env _ _ H). reflexivity.
  - intros H request real Hreal. unfold POST, with_hmac.
    cbn [text hmacHeader topicHeader shopHeader].
    rewrite (verify_signature_bypass env _ _ H).
    rewrite (verify_signature_real real _ _ Hreal).
    cbn [strict_ne]. rewrite String.eqb_refl. reflexivity.
Qed.

End WebhookProperties.

Section WebhookExamples.
Import ShopifyWebhook.

Lemma sample_secret_real : WEBHOOK_SECRET Samples.secret <> placeholder.
Proof. discriminate. Qed.

(** The signature the examples carry is the one the model computes. *)
Example id_signature_computed :
  hmac_sha256_base64 "s3cret" Samples.id_text = Samples.id_signature.
Proof. vm_compute. reflexivity. Qed.

(** A signature with one character changed is answered 401. *)
Lemma webhook_signature_checked_witness :
  WEBHOOK_SECRET Samples.secret <> placeholder
  /\ status (fst (POST Samples.parse Samples.secret
                    (received (bytes_of_string Samples.id_text)
                       (Some "X92rNNpYOOODVF6ckLQPdKTj2qvF3ZqNSaUYda1LJBg=")
                       (Some "orders/create") (Some "shop.myshopify.com"))))
     = 401.
Proof.
  split; [exact sample_secret_real|].
  destruct (webhook_signature_checked Samples.parse Samples.secret
              (bytes_of_string Samples.id_text)
              (Some "X92rNNpYOOODVF6ckLQPdKTj2qvF3ZqNSaUYda1LJBg=")
              (Some "orders/create") (Some "shop.myshopify.com")
              sample_secret_real) as [Hrej _].
  rewrite Hrej; [reflexivity|].
  vm_compute. discriminate.
Defined.

(** C2 as stated fails: for a body that starts with a byte order mark, the
    signature of the exact bytes that arrived is refused with 401, and the
    signature of the body without the mark, which differs from it, is
    accepted. *)
Lemma raw_body_signature_is_refused :
  well_formed Samples.marked_body = true
  /\ POST Samples.parse Samples.secret
    (received Samples.marked_body (Some Samples.marked_signature)
       (Some "orders/create") (Some "shop.myshopify.com"))
  = (json_response (error_body "Invalid signature") 401,
     [Console Log "Webhook received: orders/create from shop.myshopify.com" [];
      Console Error "Webhook signature verification failed" []])
  /\ Samples.id_signature <> Samples.marked_signature
  /\ POST Samples.parse Samples.secret
       (received Samples.marked_body (Some Samples.id_signature)
          (Some "orders/create") (Some "shop.myshopify.com"))
     = (json_response success_body 200,
        [Console Log "Webhook received: orders/create from shop.myshopify.com" [];
         Console Log "New order created:" [Some (JNum 1%float)]]).
Proof.
  split; [reflexivity|]. split; [vm_compute; reflexivity|].
  split; [vm_compute; discriminate | vm_compute; reflexivity].
Qed.

(** Well-formed text beyond ASCII is signed as it arrived: the bytes of
    "A", U+00E9, U+20AC and U+1F600. *)
Example well_formed_text_unchanged :
  bytes_of_string
    (Utf8.text_of [0x41; 0xC3; 0xA9; 0xE2; 0x82; 0xAC; 0xF0; 0x9F; 0x98; 0x80])
  = [0x41; 0xC3; 0xA9; 0xE2; 0x82; 0xAC; 0xF0; 0x9F; 0x98; 0x80].
Proof. reflexivity. Qed.

(** A byte that is no UTF-8 is signed as U+FFFD. *)
Example malformed_byte_replaced :
  bytes_of_string (Utf8.text_of [0x7B; 0xFF; 0x7D])
  = [0x7B; 0xEF; 0xBF; 0xBD; 0x7D].
Proof. reflexivity. Qed.

Example tampered_signature_rejected :
  POST Samples.parse Samples.secret Samples.tampered_request
  = (json_response (error_body "Invalid signature") 401,
     [Console Log "Webhook received: orders/create from shop.myshopify.com" [];
      Console Error "Webhook signature verification failed" []]).
Proof. vm_compute. reflexivity. Qed.

Example signed_request_accepted :
  POST Samples.parse Samples.secret Samples.signed_request
  = (json_response success_body 200,
     [Console Log "Webhook received: orders/create from shop.myshopify.com" [];
      Console Log "New order created:" [Some (JNum 1%float)]]).
Proof. vm_compute. reflexivity. Qed.

Example empty_signature_rejected :
  POST Samples.parse Samples.secret Samples.empty_signature_request
  = (json_response (error_body "Invalid signature") 401,
     [Console Log "Webhook received: orders/create from shop.myshopify.com" [];
      Console Error "Webhook signature verification failed" []]).
Proof. vm_compute. reflexivity. Qed.

Example absent_signature_rejected :
  POST Samples.parse Samples.secret Samples.unsigned_request
  = (json_response (error_body "Invalid signature") 401,
     [Console Log "Webhook received: orders/create from shop.myshopify.com" [];
      Console Error "Webhook signature verification failed" []]).
Proof. vm_compute. reflexivity. Qed.

Lemma webhook_null_payload_answered_500_witness :
  Samples.parse "null" = Some JNull
  /\ status (fst (POST Samples.parse Samples.secret Samples.null_request)) = 500.
Proof.
  split; [reflexivity|].
  destruct (webhook_null_payload_answered_500 Samples.parse eq_refl) as [_ H].
  rewrite H. reflexivity.
Defined.

(** C7 as stated fails: with no secret configured, an unsigned request is
    processed and acknowledged, and its log holds two [console.log] entries
    and no warning. *)
Lemma bypass_request_logs_no_warning :
  WEBHOOK_SECRET None = placeholder
  /\ POST Samples.parse None Samples.unsigned_request
     = (json_response success_body 200,
        [Console Log "Webhook received: orders/create from shop.myshopify.com" [];
         Console Log "New order created:" [Some (JNum 1%float)]])
  /\ ~ (exists msg args,
          In (Console Warn msg args)
             (snd (POST Samples.parse None Samples.unsigned_request))).
Proof.
  split; [reflexivity|]. split; [vm_compute; reflexivity|].
  intros (msg & args & H). vm_compute in H.
  destruct H as [H|[H|[]]]; discriminate H.
Qed.

Lemma webhook_bypass_mode_witness :
  WEBHOOK_SECRET None = placeholder
  /\ POST Samples.parse None (with_hmac Samples.unsigned_request (Some "forged"))
     = POST Samples.parse None Samples.unsigned_request.
Proof.
  split; [reflexivity|].
  destruct (webhook_bypass_mode Samples.parse None) as (_ & _ & H & _).
  apply H. reflexivity.
Defined.

End WebhookExamples.

(** ** Session verification endpoint *)
Section SessionProperties.
Import AuthSession.

Variable verifySession : string -> awaited VerifyResult.

Lemma GET_no_token (sessionToken : option string) :
  truthy_str sessionToken = false ->
  GET verifySession sessionToken
  = (mkResponse 401 (mkBody false None (Some "No session token found")) [], []).
Proof. intros H. unfold GET. rewrite H. reflexivity. Qed.

Lemma GET_verified (token : string) (result : VerifyResult) :
  token <> EmptyString ->
  verifySession token = Resolved result ->
  GET verifySession (Some token)
  = (if result_success result
     then mkResponse 200 (mkBody true (result_user result) None) []
     else mkResponse 401 (mkBody false None (result_error result))
            ["session_token"],
     [VerifySession token]).
Proof.
  intros Hne Hv. unfold GET.
  destruct token as [|c token]; [congruence|].
  cbn [truthy_str str_truthy negb when the]. unfold await. rewrite Hv.
  cbn [bind ret]. destruct (result_success result); reflexivity.
Qed.

(** C5 as the code has it: a token the session service accepts is answered
    200 with [{success: true, user}]; a token it turns down is answered 401
    with [{success: false, error}] and the [session_token] cookie deleted;
    a request with no token (no cookie, or an empty one) is answered 401
    with nothing deleted and the session service not called. *)
Theorem session_endpoint_contract (sessionToken : option string) :
  (truthy_str sessionToken = false ->
   GET verifySession sessionToken
   = (mkResponse 401 (mkBody false None (Some "No session token found")) [],
      []))
  /\ (forall token result,
        sessionToken = Some token -> token <> EmptyString ->
        verifySession token = Resolved result ->
        (result_success result = true ->
         fst (GET verifySession sessionToken)
         = mkResponse 200 (mkBody true (result_user result) None) [])
        /\ (result_success result = false ->
            fst (GET verifySession sessionToken)
            = mkResponse 401 (mkBody false None (result_error result))
                ["session_token"])).
Proof.
  split; [apply GET_no_token|].
  intros token result -> Hne Hv.
  rewrite (GET_verified token result Hne Hv).
  split; intros ->; reflexivity.
Qed.

End SessionProperties.

Section SessionExamples.
Import AuthSession.

(** C5 as stated fails when the token is absent: the answer is 401 and no
    cookie is deleted. *)
Lemma absent_token_cookie_not_cleared :
  status (fst (GET Samples.verifySession None)) = 401
  /\ deleted_cookies (fst (GET Samples.verifySession None)) = []
  /\ ~ In "session_token"
         (deleted_cookies (fst (GET Samples.verifySession None))).
Proof.
  split; [reflexivity|]. split; [reflexivity|]. intros [].
Qed.

Lemma session_endpoint_contract_witness :
  (Some "tok-old" = Some "tok-old" /\ "tok-old" <> EmptyString)
  /\ fst (GET Samples.verifySession (Some "tok-old"))
     = mkResponse 401 (mkBody false None (Some "Session expired"))
         ["session_token"].
Proof.
  split; [split; [reflexivity | discriminate]|].
  destruct (session_endpoint_contract Samples.verifySession (Some "tok-old"))
    as [_ H].
  destruct (H "tok-old" _ eq_refl ltac:(discriminate) eq_refl) as [_ Hfail].
  apply Hfail. reflexivity.
Defined.

Example live_token_accepted :
  GET Samples.verifySession (Some "tok-live")
  = (mkResponse 200 (mkBody true (Some Samples.seller) None) [],
     [VerifySession "tok-live"]).
Proof. reflexivity. Qed.

Example empty_token_cookie_not_cleared :
  GET Samples.verifySession (Some EmptyString)
  = (mkResponse 401 (mkBody false None (Some "No session token found")) [], []).
Proof. reflexivity. Qed.

End SessionExamples.

(** ** Push operation *)
Section PushProperties.
Import PushToShopify.

Variable W : World.

Lemma get_not_null {R} (v : JS.json) (k : string) :
  v <> JNull -> get (R := R) v k = ret (prop v k).
Proof. destruct v; congruence || reflexivity. Qed.

(** The last three tests of line 12 amount to [has_priced_variant]. *)
Lemma priced_variant_check (product : JS.json) :
  negb (truthy_val (prop product "variants"))
  || (negb (isArray (prop product "variants"))
      || negb (truthy_val
                 (opt_prop (index0 (the_val (prop product "variants")))
                           "price")))
  = negb (has_priced_variant product).
Proof.
  unfold has_priced_variant.
  destruct (prop product "variants") as [[| b | x | s | items | ps]|]; simpl;
    try reflexivity; try (apply orb_true_r).
  destruct items as [|v items]; simpl; [reflexivity|].
  destruct v; reflexivity.
Qed.

Lemma validate_spec (body : JS.json) :
  body <> JNull ->
  validate body =
    if missing (prop body "product") || missing (prop body "shop") then
      (Return (json_response (error_body "Missing shop or product data") 400),
       [])
    else if negb (has_title (product_of body))
            || negb (has_priced_variant (product_of body)) then
      (Return (json_response
                 (error_body
                    "Product must have a title and at least one variant with a price")
                 400), [])
    else (Val (product_of body, shop_of body), []).
Proof.
  intros Hb. unfold validate. rewrite !(get_not_null _ _ Hb).
  cbn [bind ret]. unfold missing.
  destruct (negb (truthy_val (prop body "product"))
            || negb (truthy_val (prop body "shop"))); [reflexivity|].
  cbn [when bind ret]. fold (product_of body) (shop_of body).
  rewrite <- !orb_assoc, priced_variant_check. unfold has_title.
  destruct (negb (truthy_val (prop (product_of body) "title"))
            || negb (has_priced_variant (product_of body))); reflexivity.
Qed.

Lemma POST_complete (request : Request) (body : JS.json) :
  json request = Resolved body -> body <> JNull -> incomplete body = false ->
  POST W request
  = try_handler
      (push W (product_of body) (shop_of body) (supplierProductIdHeader request))
      "Internal server error:" internal_error.
Proof.
  intros Hj Hb Hc. unfold POST. rewrite Hj. cbn [await_silent bind].
  rewrite (validate_spec body Hb).
  unfold incomplete in Hc. rewrite <- orb_assoc in Hc.
  apply orb_false_elim in Hc. destruct Hc as [-> ->].
  cbn [bind fst snd].
  destruct (push W _ _ _) as [[[]|r|e] t]; reflexivity.
Qed.

Lemma POST_incomplete (request : Request) (body : JS.json) :
  json request = Resolved body -> body <> JNull -> incomplete body = true ->
  POST W request
  = (json_response
       (error_body
          (if missing (prop body "product") || missing (prop body "shop")
           then "Missing shop or product data"
           else "Product must have a title and at least one variant with a price"))
       400, []).
Proof.
  intros Hj Hb Hc. unfold POST. rewrite Hj. cbn [await_silent bind].
  rewrite (validate_spec body Hb).
  unfold incomplete in Hc. rewrite <- orb_assoc in Hc.
  destruct (missing (prop body "product") || missing (prop body "shop"));
    [reflexivity|].
  simpl in Hc. rewrite Hc. reflexivity.
Qed.

Lemma resolve_credentials_outcome (shop : JS.json) (headers : Headers) :
  (exists h t, resolve_credentials W shop headers = (Val h, t))
  \/ (exists r t, resolve_credentials W shop headers = (Return r, t)
                  /\ status r = 401)
  \/ (exists e t, resolve_credentials W shop headers = (Throw e, t)).
Proof.
  unfold resolve_credentials.
  destruct (store_config W shop) as [[cfg|]|]; cbn [await bind].
  - destruct (truthy_str (access_token cfg));
      [left; do 2 eexists; reflexivity|].
    destruct (truthy_str (api_key cfg) && truthy_str (api_secret cfg));
      [left; do 2 eexists; reflexivity
      |right; left; do 2 eexists; split; reflexivity].
  - destruct (getToken W shop) as [tok|]; cbn [await bind];
      [|right; right; do 2 eexists; reflexivity].
    destruct (truthy_str tok);
      [left; do 2 eexists; reflexivity
      |right; left; do 2 eexists; split; reflexivity].
  - right; right; do 2 eexists; reflexivity.
Qed.

(** The mapping write never ends the request: whatever the insert does,
    the block falls through. *)
Lemma store_mapping_falls_through (shop : JS.json) (sid : option string)
    (product : jsval) :
  exists t, store_mapping W shop sid product = (Val tt, t).
Proof.
  unfold store_mapping.
  destruct (truthy_val product && truthy_val (opt_prop product "id")
            && truthy_str sid); [|eexists; reflexivity].
  destruct (insert_mapping W _ _ _) as [[|]|]; eexists; reflexivity.
Qed.

(** Past validation, a 400 answer can only be the platform's own 400. *)
Lemma push_400_is_upstream (product shop : JS.json) (sid : option string) :
  status (fst (try_handler (push W product shop sid)
                 "Internal server error:" internal_error)) = 400 ->
  exists headers data,
    In (Fetch shop headers product) (snd (push W product shop sid))
    /\ fetch W shop headers product = Resolved (400, data).
Proof.
  unfold push.
  destruct (resolve_credentials_outcome shop json_headers)
    as [(h & t & E)|[(r & t & E & Hr)|(e & t & E)]]; rewrite E;
    cbn [console emit bind]; cbn [try_handler fst snd status];
    try (rewrite Hr); try discriminate.
  destruct (convertible shop); cbn [negb when throw ret bind console emit];
    cbn [try_handler fst snd status]; [|discriminate].
  destruct (fetch W shop h product) as [[st d]|] eqn:F;
    cbn [await bind try_handler fst snd]; [|discriminate].
  destruct d as [data|]; cbn [await_silent bind try_handler fst snd];
    [|discriminate].
  destruct (ok st) eqn:Hok; cbn [negb when bind ret console emit].
  - destruct data;
      cbn [get throw ret bind try_handler fst snd status]; try discriminate.
    all: match goal with
         | |- context [when ?c _] => destruct c
         end;
         cbn [when throw ret bind console emit try_handler fst snd status];
         try discriminate.
    all: match goal with
         | |- context [store_mapping W ?a ?b ?c] =>
             destruct (store_mapping_falls_through a b c) as [t' ->]
         end.
    all: cbn; discriminate.
  - unfold return_json.
    destruct (negb ((200 <=? st) && (st <=? 599)));
      [destruct data; cbn; discriminate|].
    destruct (null_body_status st); [destruct data; cbn; discriminate|].
    destruct data;
      cbn [get throw ret bind leave try_handler fst snd status json_response];
      try discriminate.
    all: intros ->; do 2 eexists; split; [|exact F].
    all: apply in_or_app; right; apply in_or_app; right.
    all: simpl; auto.
Qed.

Lemma nonempty_truthy (s : string) : s <> EmptyString -> str_truthy s = true.
Proof. destruct s; [congruence | reflexivity]. Qed.

(** C1: with an active direct-config row, the headers carry that row's
    token when it has one, and otherwise the Basic form of that row's key
    pair, base64 of [apiKey:apiSecret]; in neither case both, and in no case
    is the legacy token store asked, whatever it holds. The legacy store is
    asked only when the query found no such row. *)
Theorem credential_precedence (shop : JS.json) :
  (forall cfg, store_config W shop = Resolved (Some cfg) ->
     (forall token, access_token cfg = Some token -> token <> EmptyString ->
        resolve_credentials W shop json_headers
        = (Val [("Content-Type", "application/json");
                ("X-Shopify-Access-Token", token)],
           [SelectStoreConfig shop]))
     /\ (truthy_str (access_token cfg) = false ->
         forall key secret,
           api_key cfg = Some key -> api_secret cfg = Some secret ->
           key <> EmptyString -> secret <> EmptyString ->
           resolve_credentials W shop json_headers
           = (Val [("Content-Type", "application/json");
                   ("Authorization",
                    ("Basic " ++ base64 (bytes_of_string (key ++ ":" ++ secret)))%string)],
              [SelectStoreConfig shop]))
     /\ Forall (fun e => is_get_token e = false)
               (snd (resolve_credentials W shop json_headers)))
  /\ (forall s, In (GetToken s) (snd (resolve_credentials W shop json_headers)) ->
      store_config W shop = Resolved None).
Proof.
  split.
  - intros cfg Hc. unfold resolve_credentials. rewrite Hc.
    cbn [await bind]. split; [|split].
    + intros token Ht Hne. rewrite Ht. cbn [truthy_str the].
      rewrite (nonempty_truthy token Hne). reflexivity.
    + intros Hno key secret Hk Hs Hkne Hsne. rewrite Hno, Hk, Hs.
      cbn [truthy_str the].
      rewrite (nonempty_truthy key Hkne), (nonempty_truthy secret Hsne).
      reflexivity.
    + destruct (truthy_str (access_token cfg));
        [repeat constructor|].
      destruct (truthy_str (api_key cfg) && truthy_str (api_secret cfg));
        repeat constructor.
  - intros s. unfold resolve_credentials.
    destruct (store_config W shop) as [[cfg|]|]; cbn [await bind];
      [|reflexivity|].
    + destruct (truthy_str (access_token cfg));
        [|destruct (truthy_str (api_key cfg) && truthy_str (api_secret cfg))];
        cbn; intros [H|[]]; discriminate H.
    + cbn. intros [H|[]]; discriminate H.
Qed.

(** What [resolve_credentials] puts in the headers is what [fetch] gets,
    for a shop that the URL can be built from. *)
Lemma POST_fetches_with_resolved_headers (request : Request)
    (body : JS.json) (headers : Headers) (t : list event) :
  json request = Resolved body -> body <> JNull -> incomplete body = false ->
  resolve_credentials W (shop_of body) json_headers = (Val headers, t) ->
  convertible (shop_of body) = true ->
  In (Fetch (shop_of body) headers (product_of body)) (snd (POST W request)).
Proof.
  intros Hj Hb Hc Hr Hs. rewrite (POST_complete request body Hj Hb Hc).
  apply in_try_handler. unfold push.
  eapply in_bind_r; [reflexivity|].
  eapply in_bind_r; [rewrite Hr; reflexivity|].
  eapply in_bind_r; [rewrite Hs; reflexivity|].
  eapply in_bind_r; [reflexivity|].
  apply in_bind_l. destruct (fetch W _ _ _); simpl; auto.
Qed.

(** C10: an active direct-config row with neither a token nor a complete key
    pair ends the push with 401 right after the row is read: the legacy
    token store is not asked and nothing is sent to the platform. *)
Theorem malformed_direct_config_is_terminal (request : Request)
    (body : JS.json) (cfg : StoreConfig) :
  json request = Resolved body -> body <> JNull -> incomplete body = false ->
  store_config W (shop_of body) = Resolved (Some cfg) ->
  truthy_str (access_token cfg) = false ->
  truthy_str (api_key cfg) && truthy_str (api_secret cfg) = false ->
  POST W request
  = (json_response
       (error_body "No valid credentials found for direct API store") 401,
     [Console Log "Supplier Product ID from headers:"
        [option_map JStr (supplierProductIdHeader request)];
      SelectStoreConfig (shop_of body)])
  /\ Forall (fun e => is_get_token e = false /\ is_fetch e = false)
            (snd (POST W request)).
Proof.
  intros Hj Hb Hc Hcfg Htok Hpair.
  assert (E : POST W request
    = (json_response
         (error_body "No valid credentials found for direct API store") 401,
       [Console Log "Supplier Product ID from headers:"
          [option_map JStr (supplierProductIdHeader request)];
        SelectStoreConfig (shop_of body)])).
  { rewrite (POST_complete request body Hj Hb Hc).
    unfold push, resolve_credentials. rewrite Hcfg. cbn [await bind].
    rewrite Htok, Hpair. reflexivity. }
  split; [exact E|]. rewrite E. repeat constructor.
Qed.

(** C9 as the code has it, for a request whose JSON body is not [null]:
    an incomplete body is answered 400 before any collaborator is called,
    with the error "Missing shop or product data" when the product or the
    shop is missing and, in every other case (no truthy title, or
    [variants] not an array whose first element has a truthy price), with
    the error about the title and the priced variant; in particular a
    product without [variants] gets that error; and for a complete body a
    400 answer is the platform's own 400, relayed after the call was
    made. *)
Theorem push_validation_contract (request : Request) (body : JS.json) :
  json request = Resolved body -> body <> JNull ->
  (incomplete body = true ->
   POST W request
   = (json_response
        (error_body
           (if missing (prop body "product") || missing (prop body "shop")
            then "Missing shop or product data"
            else "Product must have a title and at least one variant with a price"))
        400, []))
  /\ (missing (prop body "product") = false ->
      missing (prop body "shop") = false ->
      has_title (product_of body) = false
      \/ has_priced_variant (product_of body) = false ->
      POST W request
      = (json_response
           (error_body
              "Product must have a title and at least one variant with a price")
           400, []))
  /\ (missing (prop body "product") = false ->
      missing (prop body "shop") = false ->
      prop (product_of body) "variants" = None ->
      POST W request
      = (json_response
           (error_body
              "Product must have a title and at least one variant with a price")
           400, []))
  /\ (incomplete body = false -> status (fst (POST W request)) = 400 ->
      exists headers data,
        In (Fetch (shop_of body) headers (product_of body))
           (snd (POST W request))
        /\ fetch W (shop_of body) headers (product_of body)
           = Resolved (400, data)).
Proof.
  intros Hj Hb. split; [|split; [|split]].
  - intros Hc. exact (POST_incomplete request body Hj Hb Hc).
  - intros Hp Hs Hbad.
    assert (Hc : incomplete body = true).
    { unfold incomplete. rewrite Hp, Hs. cbn [orb].
      destruct Hbad as [-> | ->]; [reflexivity | apply orb_true_r]. }
    rewrite (POST_incomplete request body Hj Hb Hc), Hp, Hs. reflexivity.
  - intros Hp Hs Hv.
    assert (Hc : incomplete body = true).
    { unfold incomplete, has_priced_variant. rewrite Hv. apply orb_true_r. }
    rewrite (POST_incomplete request body Hj Hb Hc), Hp, Hs. reflexivity.
  - intros Hc H400. rewrite (POST_complete request body Hj Hb Hc) in *.
    destruct (push_400_is_upstream _ _ _ H400) as (h & d & Hin & Hf).
    exists h, d. split; [|exact Hf].
    destruct (push W _ _ _) as [[[]|r|e] t]; cbn in *;
      rewrite ?in_app_iff; auto.
Qed.

End PushProperties.

Section PushExamples.
Import PushToShopify.

(** The store [keys.example] has a direct-config row with a key pair only,
    and the legacy store holds a token for it: the key pair is used. *)
Lemma credential_precedence_witness :
  (store_config Samples.world (JStr "keys.example")
   = Resolved (Some (mkStoreConfig None (Some "key") (Some "secret")))
   /\ getToken Samples.world (JStr "keys.example")
      = Resolved (Some "shpat_legacy"))
  /\ resolve_credentials Samples.world (JStr "keys.example") json_headers
     = (Val [("Content-Type", "application/json");
             ("Authorization", "Basic a2V5OnNlY3JldA==")],
        [SelectStoreConfig (JStr "keys.example")]).
Proof.
  split; [split; reflexivity|].
  destruct (credential_precedence Samples.world (JStr "keys.example"))
    as [H _].
  destruct (H _ eq_refl) as (_ & Hpair & _).
  rewrite (Hpair eq_refl "key" "secret" eq_refl eq_refl);
    [reflexivity | discriminate | discriminate].
Defined.

Example token_preferred_over_key_pair :
  resolve_credentials Samples.world (JStr "both.example") json_headers
  = (Val [("Content-Type", "application/json");
          ("X-Shopify-Access-Token", "shpat_direct")],
     [SelectStoreConfig (JStr "both.example")]).
Proof. reflexivity. Qed.

Example legacy_token_used_without_direct_config :
  resolve_credentials Samples.world (JStr "other.example") json_headers
  = (Val [("Content-Type", "application/json");
          ("X-Shopify-Access-Token", "shpat_legacy")],
     [SelectStoreConfig (JStr "other.example");
      GetToken (JStr "other.example")]).
Proof. reflexivity. Qed.

Lemma malformed_direct_config_is_terminal_witness :
  (json (Samples.push_request Samples.mug "half.example")
   = Resolved (Samples.push_body Samples.mug "half.example")
   /\ incomplete (Samples.push_body Samples.mug "half.example") = false
   /\ getToken Samples.world (JStr "half.example")
      = Resolved (Some "shpat_legacy"))
  /\ POST Samples.world (Samples.push_request Samples.mug "half.example")
     = (json_response
          (error_body "No valid credentials found for direct API store") 401,
        [Console Log "Supplier Product ID from headers:" [Some (JStr "sp-1")];
         SelectStoreConfig (JStr "half.example")]).
Proof.
  split; [repeat split|].
  apply (malformed_direct_config_is_terminal Samples.world
           (Samples.push_request Samples.mug "half.example")
           (Samples.push_body Samples.mug "half.example")
           (mkStoreConfig None (Some "key") None));
    try reflexivity; discriminate.
Defined.

(** C9 as stated fails in one direction: a complete body, pushed to a store
    the platform answers 400 for, is answered 400 after the call. *)
Lemma upstream_400_is_relayed :
  incomplete (Samples.push_body Samples.mug "strict.example") = false
  /\ status (fst (POST Samples.world
                    (Samples.push_request Samples.mug "strict.example"))) = 400
  /\ In (Fetch (JStr "strict.example")
           [("Content-Type", "application/json");
            ("X-Shopify-Access-Token", "shpat_legacy")]
           Samples.mug)
        (snd (POST Samples.world
                (Samples.push_request Samples.mug "strict.example"))).
Proof.
  split; [reflexivity|]. split; [reflexivity|].
  vm_compute. do 4 right. left. reflexivity.
Qed.

Lemma push_validation_contract_witness :
  (json (Samples.push_request Samples.mug_without_variants "both.example")
   = Resolved (Samples.push_body Samples.mug_without_variants "both.example")
   /\ Samples.push_body Samples.mug_without_variants "both.example" <> JNull)
  /\ POST Samples.world
       (Samples.push_request Samples.mug_without_variants "both.example")
     = (json_response
          (error_body
             "Product must have a title and at least one variant with a price")
          400, []).
Proof.
  assert (Hb : Samples.push_body Samples.mug_without_variants "both.example"
               <> JNull) by discriminate.
  split; [split; [reflexivity | exact Hb]|].
  destruct (push_validation_contract Samples.world
              (Samples.push_request Samples.mug_without_variants "both.example")
              (Samples.push_body Samples.mug_without_variants "both.example")
              eq_refl Hb) as (_ & _ & Hvariants & _).
  apply Hvariants; reflexivity.
Defined.

(** A [null] body is answered 500, not 400. *)
Example null_body_answered_500 :
  POST Samples.world (mkRequest (Resolved JNull) None)
  = (internal_error, [Console Error "Internal server error:" []]).
Proof. reflexivity. Qed.

(** Only the first variant is looked at. *)
Example priced_second_variant_rejected :
  status (fst (POST Samples.world
                 (Samples.push_request
                    (JObj [("title", JStr "Mug");
                           ("variants",
                            JArr [JObj []; JObj [("price", JStr "9.99")]])])
                    "both.example"))) = 400.
Proof. reflexivity. Qed.

End PushExamples.

(** ** Store list *)
Section MapFacts.
Context {A : Type}.

Lemma assoc_set (k k' : string) (v : A) (m : list (string * A)) :
  assoc k (set k' v m) = if String.eqb k k' then Some v else assoc k m.
Proof.
  induction m as [|[k0 v0] m IH]; simpl.
  - reflexivity.
  - destruct (String.eqb_spec k0 k') as [->|Hne]; simpl.
    + destruct (String.eqb k k'); reflexivity.
    + rewrite IH. destruct (String.eqb_spec k k0) as [->|Hne'].
      * destruct (String.eqb_spec k0 k'); [contradiction | reflexivity].
      * reflexivity.
Qed.

Lemma assoc_None (k : string) (m : list (string * A)) :
  assoc k m = None <-> ~ In k (map fst m).
Proof.
  induction m as [|[k0 v0] m IH]; simpl.
  - tauto.
  - destruct (String.eqb_spec k k0) as [->|Hne].
    + split; [discriminate | intros H; exfalso; apply H; auto].
    + rewrite IH. split; [intros H [E|E]; [congruence | auto] | tauto].
Qed.

Lemma keys_set (k : string) (v : A) (m : list (string * A)) :
  map fst (set k v m) = if has k m then map fst m else map fst m ++ [k].
Proof.
  unfold has. induction m as [|[k0 v0] m IH]; simpl.
  - reflexivity.
  - rewrite (String.eqb_sym k k0).
    destruct (String.eqb_spec k0 k) as [->|Hne]; simpl.
    + reflexivity.
    + rewrite IH. destruct (assoc k m); reflexivity.
Qed.

Lemma In_set (k : string) (v : A) (m : list (string * A)) (p : string * A) :
  In p (set k v m) -> (k, v) = p \/ In p m.
Proof.
  induction m as [|[k0 v0] m IH]; simpl.
  - tauto.
  - destruct (String.eqb_spec k0 k) as [->|Hne]; simpl; intuition.
Qed.

Lemma has_keys (k : string) (m : list (string * A)) :
  has k m = existsb (String.eqb k) (map fst m).
Proof.
  unfold has. induction m as [|[k0 v0] m IH]; simpl; [reflexivity|].
  destruct (String.eqb k k0); [reflexivity | exact IH].
Qed.

Lemma has_set (k k' : string) (v : A) (m : list (string * A)) :
  has k m = true -> has k (set k' v m) = true.
Proof.
  unfold has. rewrite assoc_set. destruct (String.eqb k k'); [reflexivity|].
  auto.
Qed.

Lemma set_set (k : string) (v v' : A) (m : list (string * A)) :
  set k v' (set k v m) = set k v' m.
Proof.
  induction m as [|[k0 v0] m IH]; simpl.
  - rewrite String.eqb_refl. reflexivity.
  - destruct (String.eqb k0 k) eqn:E; simpl; rewrite E; [reflexivity|].
    rewrite IH. reflexivity.
Qed.

(** Writing under a key that is present keeps every position, so it
    commutes with a write under another key. *)
Lemma set_comm_present (k k' : string) (v v' : A) (m : list (string * A)) :
  k <> k' -> has k m = true ->
  set k v (set k' v' m) = set k' v' (set k v m).
Proof.
  intros Hne. unfold has.
  induction m as [|[k0 v0] m IH]; simpl; [discriminate|].
  rewrite (String.eqb_sym k k0).
  destruct (String.eqb_spec k0 k) as [->|Hk]; simpl.
  - intros _. destruct (String.eqb_spec k k') as [E|_]; [contradiction|].
    simpl. rewrite String.eqb_refl. reflexivity.
  - intros Hin. destruct (String.eqb_spec k0 k') as [->|Hk']; simpl.
    + destruct (String.eqb_spec k' k) as [E|_]; [congruence | reflexivity].
    + destruct (String.eqb_spec k0 k) as [E|_]; [contradiction|].
      rewrite (IH Hin). reflexivity.
Qed.

End MapFacts.

Section StoresProperties.
Import StoresUser.

Lemma keyed_nil : keyed [].
Proof. split; constructor. Qed.

Lemma keyed_set (k : string) (e : Entry.t) (m : StoreMap) :
  keyed m -> Entry.shop e = k -> keyed (set k e m).
Proof.
  intros [Hnd Hsh] He. split.
  - rewrite keys_set. unfold has. destruct (assoc k m) eqn:E; [exact Hnd|].
    apply assoc_None in E. apply NoDup_app; [exact Hnd | repeat constructor; intros [] | ].
    intros x Hx [<-|[]]. contradiction.
  - apply Forall_forall. intros p Hp. apply In_set in Hp.
    destruct Hp as [<-|Hp]; [exact He|].
    rewrite Forall_forall in Hsh. auto.
Qed.

Lemma keyed_add_seller (m : StoreMap) (conn : SellerConnection) :
  keyed m -> keyed (add_seller_connection m conn).
Proof. intros H. apply keyed_set; [exact H | reflexivity]. Qed.

Lemma keyed_add_token (m : StoreMap) (store : TokenStore) :
  keyed m -> keyed (add_token_store m store).
Proof.
  intros H. unfold add_token_store.
  destruct (negb (has (shop store) m)); [|exact H].
  apply keyed_set; [exact H | reflexivity].
Qed.

Lemma keyed_store_map (sc : list SellerConnection) (ts : list TokenStore) :
  keyed (store_map sc ts).
Proof.
  unfold store_map.
  assert (H1 : forall m, keyed m -> keyed (fold_left add_seller_connection sc m)).
  { induction sc as [|c sc IH]; simpl; intros m Hm; [exact Hm|].
    apply IH, keyed_add_seller, Hm. }
  assert (H2 : forall m, keyed m -> keyed (fold_left add_token_store ts m)).
  { induction ts as [|s ts IH]; simpl; intros m Hm; [exact Hm|].
    apply IH, keyed_add_token, Hm. }
  apply H2, H1, keyed_nil.
Qed.

Lemma entries_for_absent (k : string) (m : StoreMap) :
  keyed m -> assoc k m = None -> entries_for k (values m) = [].
Proof.
  intros [_ Hsh] Hk. apply assoc_None in Hk.
  induction m as [|[k0 e0] m IH]; simpl in *; [reflexivity|].
  inversion Hsh as [|? ? Hh Ht]; subst. simpl in Hh. rewrite Hh.
  destruct (String.eqb_spec k0 k) as [->|Hne]; [exfalso; auto|].
  apply IH; [exact Ht | tauto].
Qed.

Lemma entries_for_values (k : string) (m : StoreMap) :
  keyed m ->
  entries_for k (values m)
  = match assoc k m with Some e => [e] | None => [] end.
Proof.
  induction m as [|[k0 e0] m IH]; intros Hm; [reflexivity|].
  destruct Hm as [Hnd Hsh].
  inversion Hnd as [|? ? Hnotin Hnd']; subst.
  inversion Hsh as [|? ? Hh Ht]; subst. simpl in Hh.
  assert (Hm' : keyed m) by (split; assumption).
  simpl. rewrite Hh, (String.eqb_sym k0 k).
  destruct (String.eqb_spec k k0) as [->|Hne].
  - f_equal. apply entries_for_absent; [exact Hm'|]. apply assoc_None, Hnotin.
  - apply IH, Hm'.
Qed.

Lemma assoc_fold_seller (k : string) (sc : list SellerConnection) (m : StoreMap) :
  assoc k (fold_left add_seller_connection sc m)
  = match last_connection k sc with
    | Some c => Some (seller_entry c)
    | None => assoc k m
    end.
Proof.
  revert m. induction sc as [|c sc IH]; intros m; simpl; [reflexivity|].
  rewrite IH. destruct (last_connection k sc); [reflexivity|].
  unfold add_seller_connection. rewrite assoc_set, (String.eqb_sym k).
  destruct (String.eqb (storeUrl c) k); reflexivity.
Qed.

Lemma assoc_fold_token (k : string) (ts : list TokenStore) (m : StoreMap) :
  assoc k (fold_left add_token_store ts m)
  = match assoc k m with
    | Some e => Some e
    | None => option_map legacy_entry (first_token_store k ts)
    end.
Proof.
  revert m. induction ts as [|s ts IH]; intros m; simpl.
  - destruct (assoc k m); reflexivity.
  - rewrite IH. unfold add_token_store, has.
    destruct (assoc (shop s) m) as [e|] eqn:E; simpl.
    + destruct (assoc k m) eqn:E'; [reflexivity|].
      destruct (String.eqb_spec (shop s) k) as [Heq|Hne]; [congruence | reflexivity].
    + rewrite assoc_set, (String.eqb_sym k).
      destruct (String.eqb_spec (shop s) k) as [Heq|Hne].
      * subst k. rewrite E. reflexivity.
      * reflexivity.
Qed.

Lemma assoc_store_map (k : string) (sc : list SellerConnection) (ts : list TokenStore) :
  assoc k (store_map sc ts)
  = match last_connection k sc with
    | Some c => Some (seller_entry c)
    | None => option_map legacy_entry (first_token_store k ts)
    end.
Proof.
  unfold store_map. rewrite assoc_fold_token, assoc_fold_seller.
  destruct (last_connection k sc); reflexivity.
Qed.

Lemma entries_for_merge (k : string) (sc : list SellerConnection) (ts : list TokenStore) :
  entries_for k (merge_stores sc ts)
  = match last_connection k sc with
    | Some c => [seller_entry c]
    | None => match first_token_store k ts with
              | Some s => [legacy_entry s]
              | None => []
              end
    end.
Proof.
  unfold merge_stores. rewrite (entries_for_values k _ (keyed_store_map sc ts)), assoc_store_map.
  destruct (last_connection k sc); [reflexivity|].
  destruct (first_token_store k ts); reflexivity.
Qed.

Lemma last_connection_In (k : string) (sc : list SellerConnection) (c : SellerConnection) :
  last_connection k sc = Some c -> In c sc /\ storeUrl c = k.
Proof.
  induction sc as [|c0 sc IH]; simpl; [discriminate|].
  destruct (last_connection k sc) as [c'|].
  - intros H. destruct (IH H). auto.
  - destruct (String.eqb_spec (storeUrl c0) k); [|discriminate].
    intros [= <-]. auto.
Qed.

Lemma last_connection_None (k : string) (sc : list SellerConnection) :
  last_connection k sc = None <-> forall c, In c sc -> storeUrl c <> k.
Proof.
  induction sc as [|c0 sc IH]; simpl.
  - split; [intros _ c [] | reflexivity].
  - destruct (last_connection k sc) as [c'|].
    + split; [discriminate|]. intros H. 
      assert (E : Some c' = None) by (apply IH; intros c Hc; apply H; auto).
      discriminate E.
    + destruct (String.eqb_spec (storeUrl c0) k) as [Heq|Hne].
      * split; [discriminate|]. intros H. exfalso. apply (H c0); auto.
      * split; [|reflexivity]. intros _ c [<-|Hc]; [exact Hne|].
        apply IH; auto.
Qed.

Lemma last_connection_app (k : string) (sc1 sc2 : list SellerConnection) (c : SellerConnection) :
  storeUrl c = k -> (forall c', In c' sc2 -> storeUrl c' <> k) ->
  last_connection k (sc1 ++ c :: sc2) = Some c.
Proof.
  intros Hk Hlater. apply last_connection_None in Hlater.
  induction sc1 as [|c0 sc1 IH]; simpl.
  - rewrite Hlater. destruct (String.eqb_spec (storeUrl c) k); [reflexivity | contradiction].
  - rewrite IH. reflexivity.
Qed.

Lemma first_token_store_app (k : string) (ts1 ts2 : list TokenStore) (s : TokenStore) :
  shop s = k -> (forall s', In s' ts1 -> shop s' <> k) ->
  first_token_store k (ts1 ++ s :: ts2) = Some s.
Proof.
  intros Hk Hearlier. unfold first_token_store.
  induction ts1 as [|s0 ts1 IH]; simpl.
  - destruct (String.eqb_spec (shop s) k); [reflexivity | contradiction].
  - destruct (String.eqb_spec (shop s0) k) as [Heq|Hne].
    + exfalso. apply (Hearlier s0); simpl; auto.
    + apply IH. intros s' Hs'. apply Hearlier. simpl; auto.
Qed.

Lemma keyed_shops (m : StoreMap) :
  keyed m -> map Entry.shop (values m) = map fst m.
Proof.
  intros [_ H]. unfold values. rewrite map_map.
  induction H as [|p m Hp _ IH]; simpl; [reflexivity|].
  rewrite Hp, IH. reflexivity.
Qed.

Lemma first_occurrences_app (seen a b : list string) :
  first_occurrences seen (a ++ b)
  = first_occurrences seen a
    ++ first_occurrences (seen ++ first_occurrences seen a) b.
Proof.
  revert seen. induction a as [|k a IH]; intros seen; simpl.
  - rewrite app_nil_r. reflexivity.
  - destruct (existsb (String.eqb k) seen); [apply IH|].
    simpl. rewrite IH, <- app_assoc. reflexivity.
Qed.

Lemma keys_fold_seller (sc : list SellerConnection) (m : StoreMap) :
  map fst (fold_left add_seller_connection sc m)
  = map fst m ++ first_occurrences (map fst m) (map storeUrl sc).
Proof.
  revert m. induction sc as [|c sc IH]; intros m; simpl.
  - rewrite app_nil_r. reflexivity.
  - rewrite IH. unfold add_seller_connection. rewrite keys_set, <- has_keys.
    destruct (has (storeUrl c) m); [reflexivity|].
    rewrite <- app_assoc. reflexivity.
Qed.

Lemma keys_fold_token (ts : list TokenStore) (m : StoreMap) :
  map fst (fold_left add_token_store ts m)
  = map fst m ++ first_occurrences (map fst m) (map shop ts).
Proof.
  revert m. induction ts as [|s ts IH]; intros m; simpl.
  - rewrite app_nil_r. reflexivity.
  - rewrite IH. unfold add_token_store. rewrite <- has_keys.
    destruct (has (shop s) m) eqn:E; cbn [negb]; [reflexivity|].
    rewrite keys_set, E, <- app_assoc. reflexivity.
Qed.

(** The store keys of the merged list, in order. *)
Lemma merged_key_order (sc : list SellerConnection) (ts : list TokenStore) :
  map Entry.shop (merge_stores sc ts)
  = first_occurrences [] (map storeUrl sc ++ map shop ts).
Proof.
  unfold merge_stores. rewrite (keyed_shops _ (keyed_store_map sc ts)).
  unfold store_map. rewrite keys_fold_token, keys_fold_seller.
  rewrite first_occurrences_app. reflexivity.
Qed.

(** A write under a key that is present moves past the later connections
    of other keys. *)
Lemma set_past_other_keys (k : string) (e : Entry.t)
    (sc : list SellerConnection) (m : StoreMap) :
  (forall c, In c sc -> storeUrl c <> k) -> has k m = true ->
  set k e (fold_left add_seller_connection sc m)
  = fold_left add_seller_connection sc (set k e m).
Proof.
  revert m. induction sc as [|c sc IH]; intros m Hsc Hk; simpl;
    [reflexivity|].
  unfold add_seller_connection at 2 4.
  rewrite IH; [|intros c' Hc'; apply Hsc; right; exact Hc'
               |apply has_set; exact Hk].
  rewrite set_comm_present;
    [reflexivity | intros E; apply (Hsc c); [left; reflexivity | auto] | exact Hk].
Qed.

Variable verifySession : string -> awaited AuthSession.VerifyResult.
Variable getSellerStoreConnections : string -> awaited (list SellerConnection).
Variable getUserStores : string -> awaited (list TokenStore).

Lemma merge_one_each (conn : SellerConnection) (legacy : TokenStore) :
  shop legacy <> storeUrl conn ->
  merge_stores [conn] [legacy] = [seller_entry conn; legacy_entry legacy].
Proof.
  intros Hdiff. apply String.eqb_neq in Hdiff.
  unfold merge_stores, store_map, add_token_store, add_seller_connection, has.
  cbn [fold_left set assoc]. rewrite Hdiff. cbn [negb set].
  rewrite String.eqb_sym, Hdiff. reflexivity.
Qed.

Lemma GET_seller (token : string) (user : AuthSession.User)
    (err : option string) (sc : list SellerConnection) (ts : list TokenStore) :
  token <> EmptyString ->
  verifySession token
  = Resolved (AuthSession.mkVerifyResult true (Some user) err) ->
  AuthSession.userType user = "seller" ->
  getSellerStoreConnections (AuthSession.username user) = Resolved sc ->
  getUserStores (AuthSession.username user) = Resolved ts ->
  GET verifySession getSellerStoreConnections getUserStores (Some token)
  = (json_response
       (Stores (merge_stores sc ts) (AuthSession.username user)
               (List.length (merge_stores sc ts))) 200,
     [VerifySession token;
      GetSellerStoreConnections (AuthSession.username user);
      GetUserStores (AuthSession.username user)]).
Proof.
  intros Hne Hv Hseller Hsc Hts. unfold GET.
  destruct token as [|a token]; [congruence|].
  cbn [truthy_str str_truthy negb when the]. rewrite Hv.
  cbn [await bind ret AuthSession.result_success AuthSession.result_user
       not_seller negb orb username_of].
  rewrite Hseller, Hsc, Hts. reflexivity.
Qed.

(** C3: whatever the legacy source holds for a store key that the primary
    registry also holds, timestamps included, the merged list has exactly
    one entry for that key and it is built from a primary connection, so no
    legacy entry for the key is in the list; when the connection is the only
    primary one for its key the entry is its own, with its [storeName] as
    the name. And a seller with one primary store and one legacy-only store
    gets the two entries, the primary one first, and [totalStores] 2. *)
Theorem primary_registry_wins :
  (forall sc ts conn,
     In conn sc ->
     (exists c, In c sc /\ storeUrl c = storeUrl conn
                /\ entries_for (storeUrl conn) (merge_stores sc ts)
                   = [seller_entry c])
     /\ (forall legacy, In legacy ts -> shop legacy = storeUrl conn ->
         ~ In (legacy_entry legacy) (merge_stores sc ts))
     /\ ((forall c, In c sc -> storeUrl c = storeUrl conn -> c = conn) ->
         entries_for (storeUrl conn) (merge_stores sc ts) = [seller_entry conn]
         /\ Entry.name (seller_entry conn) = storeName conn))
  /\ (forall token user err conn legacy,
        token <> EmptyString ->
        verifySession token
        = Resolved (AuthSession.mkVerifyResult true (Some user) err) ->
        AuthSession.userType user = "seller" ->
        getSellerStoreConnections (AuthSession.username user)
        = Resolved [conn] ->
        getUserStores (AuthSession.username user) = Resolved [legacy] ->
        shop legacy <> storeUrl conn ->
        fst (GET verifySession getSellerStoreConnections getUserStores
               (Some token))
        = json_response
            (Stores [seller_entry conn; legacy_entry legacy]
                    (AuthSession.username user) 2) 200).
Proof.
  split.
  - intros sc ts conn Hin.
    assert (Hex : exists c, last_connection (storeUrl conn) sc = Some c).
    { destruct (last_connection (storeUrl conn) sc) as [c|] eqn:E;
        [eauto|].
      exfalso. exact (proj1 (last_connection_None _ _) E conn Hin eq_refl). }
    destruct Hex as [c Hc].
    destruct (last_connection_In _ _ _ Hc) as [Hcin Hcurl].
    assert (Hent : entries_for (storeUrl conn) (merge_stores sc ts)
                   = [seller_entry c])
      by (rewrite entries_for_merge, Hc; reflexivity).
    split; [exists c; auto|]. split.
    + intros legacy _ Hshop Hmem.
      assert (Hf : In (legacy_entry legacy)
                      (entries_for (storeUrl conn) (merge_stores sc ts))).
      { apply filter_In. split; [exact Hmem|].
        apply String.eqb_eq. exact Hshop. }
      rewrite Hent in Hf. destruct Hf as [Hf|[]]. discriminate Hf.
    + intros Honly. rewrite Hent, (Honly c Hcin Hcurl). split; reflexivity.
  - intros token user err conn legacy Hne Hv Hseller Hsc Hts Hdiff.
    rewrite (GET_seller token user err [conn] [legacy] Hne Hv Hseller Hsc Hts).
    rewrite (merge_one_each conn legacy Hdiff). reflexivity.
Qed.

(** C6 as the code has it: among primary connections with one store key the
    last one in iteration order supplies the entry; among legacy rows with
    one store key (absent from the primary registry) the first one does,
    and the later ones are skipped. The entry of a key stands where the
    key occurred first: the keys of the merged list are those of the
    primary source followed by those of the legacy source, each at its
    first occurrence; and the merged list with a later primary duplicate
    is the list obtained with the later connection put in the place of the
    earlier one. *)
Theorem duplicates_within_a_source :
  (forall sc1 conn sc2 ts,
     (forall c, In c sc2 -> storeUrl c <> storeUrl conn) ->
     entries_for (storeUrl conn) (merge_stores (sc1 ++ conn :: sc2) ts)
     = [seller_entry conn])
  /\ (forall sc ts1 store ts2,
        (forall c, In c sc -> storeUrl c <> shop store) ->
        (forall s, In s ts1 -> shop s <> shop store) ->
        entries_for (shop store) (merge_stores sc (ts1 ++ store :: ts2))
        = [legacy_entry store])
  /\ (forall sc ts,
        map Entry.shop (merge_stores sc ts)
        = first_occurrences [] (map storeUrl sc ++ map shop ts))
  /\ (forall sc1 earlier sc2 conn sc3 ts,
        storeUrl earlier = storeUrl conn ->
        (forall c, In c sc2 -> storeUrl c <> storeUrl conn) ->
        merge_stores (sc1 ++ earlier :: sc2 ++ conn :: sc3) ts
        = merge_stores (sc1 ++ conn :: sc2 ++ sc3) ts).
Proof.
  split; [|split; [|split]].
  - intros sc1 conn sc2 ts Hlater.
    rewrite entries_for_merge, (last_connection_app _ sc1 sc2 conn eq_refl Hlater).
    reflexivity.
  - intros sc ts1 store ts2 Hprimary Hearlier.
    rewrite entries_for_merge.
    rewrite (proj2 (last_connection_None _ _) Hprimary).
    rewrite (first_token_store_app _ ts1 ts2 store eq_refl Hearlier).
    reflexivity.
  - exact merged_key_order.
  - intros sc1 earlier sc2 conn sc3 ts Hkey Hsc2.
    assert (E : fold_left add_seller_connection
                  (sc1 ++ earlier :: sc2 ++ conn :: sc3) []
                = fold_left add_seller_connection
                    (sc1 ++ conn :: sc2 ++ sc3) []).
    { rewrite !fold_left_app. cbn [fold_left]. rewrite !fold_left_app.
      cbn [fold_left]. f_equal.
      set (m := fold_left add_seller_connection sc1 []).
      change (add_seller_connection
                (fold_left add_seller_connection sc2
                   (add_seller_connection m earlier)) conn)
        with (set (storeUrl conn) (seller_entry conn)
                (fold_left add_seller_connection sc2
                   (set (storeUrl earlier) (seller_entry earlier) m))).
      rewrite Hkey, set_past_other_keys; [|exact Hsc2|].
      - rewrite set_set. reflexivity.
      - unfold has. rewrite assoc_set, String.eqb_refl. reflexivity. }
    unfold merge_stores, store_map. rewrite E. reflexivity.
Qed.

End StoresProperties.

Section StoresExamples.
Import StoresUser.

(** The primary entry survives a legacy row of the same store that was
    updated later, and keeps its name. *)
Lemma primary_registry_wins_witness :
  In Samples.conn_a [Samples.conn_a]
  /\ entries_for "a.example"
       (merge_stores [Samples.conn_a] [Samples.legacy_a; Samples.legacy_b])
     = [seller_entry Samples.conn_a].
Proof.
  assert (Hin : In Samples.conn_a [Samples.conn_a]) by (left; reflexivity).
  split; [exact Hin|].
  destruct (primary_registry_wins Samples.verifySession
              Samples.getSellerStoreConnections Samples.getUserStores)
    as [H _].
  destruct (H [Samples.conn_a] [Samples.legacy_a; Samples.legacy_b]
              Samples.conn_a Hin) as (_ & _ & Honly).
  apply Honly. intros c [<-|[]] _. reflexivity.
Defined.

Example listing_end_to_end :
  GET Samples.verifySession Samples.getSellerStoreConnections
      Samples.getUserStores (Some "tok-live")
  = (json_response
       (Stores [seller_entry Samples.conn_a; legacy_entry Samples.legacy_b]
               "asha" 2) 200,
     [VerifySession "tok-live"; GetSellerStoreConnections "asha";
      GetUserStores "asha"]).
Proof. reflexivity. Qed.

(** C6 as stated fails for the legacy source: of two legacy rows with one
    store key, the merged list holds the entry of the first; the later row
    does not replace it. *)
Lemma later_legacy_duplicate_is_skipped :
  shop Samples.legacy_b = shop Samples.legacy_b_again
  /\ merge_stores [] [Samples.legacy_b; Samples.legacy_b_again]
     = [legacy_entry Samples.legacy_b]
  /\ ~ In (legacy_entry Samples.legacy_b_again)
         (merge_stores [] [Samples.legacy_b; Samples.legacy_b_again]).
Proof.
  split; [reflexivity|]. split; [reflexivity|].
  intros [H|[]]. discriminate H.
Qed.

Lemma duplicates_within_a_source_witness :
  (forall s, In s [] -> shop s <> shop Samples.legacy_b)
  /\ entries_for "b.example"
       (merge_stores [Samples.conn_a]
          ([] ++ Samples.legacy_b :: [Samples.legacy_b_again]))
     = [legacy_entry Samples.legacy_b].
Proof.
  assert (Hearlier : forall s : TokenStore,
             In s [] -> shop s <> shop Samples.legacy_b) by (intros s []).
  split; [exact Hearlier|].
  destruct duplicates_within_a_source as (_ & H & _).
  apply (H [Samples.conn_a] [] Samples.legacy_b [Samples.legacy_b_again]);
    [|exact Hearlier].
  intros c [<-|[]]. discriminate.
Defined.

(** The renamed connection of [a.example] comes after the one of another
    store, and its entry still stands first. *)
Example later_primary_duplicate_keeps_position :
  map Entry.name
    (merge_stores
       [Samples.conn_a;
        mkSellerConnection "c.example" "Comptoir C"
          "2024-02-05T10:00:00Z" "2024-02-06T10:00:00Z" "oauth";
        mkSellerConnection "a.example" "Atelier A (renamed)"
          "2024-01-05T10:00:00Z" "2024-05-01T10:00:00Z" "oauth"]
       [Samples.legacy_b])
  = ["Atelier A (renamed)"; "Comptoir C"; "b.example"].
Proof. reflexivity. Qed.

Example later_primary_duplicate_overwrites :
  merge_stores
    [Samples.conn_a;
     mkSellerConnection "a.example" "Atelier A (renamed)"
       "2024-01-05T10:00:00Z" "2024-05-01T10:00:00Z" "oauth"] []
  = [Entry.mk "a.example" "Atelier A (renamed)" "2024-01-05T10:00:00Z"
       "2024-05-01T10:00:00Z" "oauth" "seller_connections"].
Proof. reflexivity. Qed.

End StoresExamples.

(** * Further properties *)

Import SpecExtra.

(** ** Inbound webhooks: the whole answer *)
Section WebhookMore.
Import ShopifyWebhook.
Variable JSON_parse : string -> option json.

Lemma verify_signature_cases (env : option string) (request : Request) :
  verify_signature env (text request) (hmacHeader request)
  = if signature_refused env request
    then (Return (json_response (error_body "Invalid signature") 401),
          [Console Error "Webhook signature verification failed" []])
    else (Val tt, []).
Proof.
  unfold verify_signature, signature_refused.
  destruct (negb (String.eqb (WEBHOOK_SECRET env) placeholder)); [|reflexivity].
  cbn [when andb]. destruct (strict_ne _ _); reflexivity.
Qed.

Lemma dispatch_null (topicHeader shopHeader : option string) :
  reads_payload_id topicHeader = true ->
  dispatch topicHeader shopHeader JNull = (Throw TypeError, []).
Proof.
  unfold reads_payload_id, dispatch.
  destruct (is_case topicHeader "orders/create"); [reflexivity|].
  destruct (is_case topicHeader "orders/updated"); [reflexivity|].
  destruct (is_case topicHeader "products/create"); [reflexivity|].
  destruct (is_case topicHeader "products/update"); [reflexivity|].
  discriminate.
Qed.

Lemma POST_refused (env : option string) (request : Request) :
  signature_refused env request = true ->
  fst (POST JSON_parse env request)
  = json_response (error_body "Invalid signature") 401.
Proof.
  intros H. unfold POST. rewrite verify_signature_cases, H. reflexivity.
Qed.

Lemma POST_past_signature (env : option string) (request : Request) :
  signature_refused env request = false ->
  fst (POST JSON_parse env request)
  = match JSON_parse (text request) with
    | None => json_response (error_body "Invalid JSON") 400
    | Some payload =>
        if is_null payload && reads_payload_id (topicHeader request)
        then json_response (error_body "Internal server error") 500
        else json_response success_body 200
    end.
Proof.
  intros H. unfold POST. rewrite verify_signature_cases, H.
  unfold parse_payload. destruct (JSON_parse (text request)) as [payload|];
    [|reflexivity].
  cbn [console emit bind ret try_catch].
  destruct (is_null payload && reads_payload_id (topicHeader request)) eqn:E.
  - apply andb_prop in E. destruct E as [Hn Hr].
    destruct payload; try discriminate Hn.
    rewrite (dispatch_null _ _ Hr). reflexivity.
  - destruct (dispatch_acknowledges (topicHeader request)
                (shopHeader request) payload) as [t Ht].
    + apply andb_false_iff in E. destruct E as [E|E]; [left|right; exact E].
      destruct payload; discriminate || congruence.
    + rewrite Ht. reflexivity.
Qed.

(** X1: the answer of the webhook as a table: 401 when a real secret is set
    and the header differs from the expected signature; otherwise 400 when
    the text does not parse; otherwise 500 when the payload is [null] and
    the topic is one whose case reads [payload.id]; otherwise 200. The
    signature is checked before the text is parsed. *)
Theorem webhook_response_table (env : option string) (request : Request) :
  fst (POST JSON_parse env request)
  = if signature_refused env request then
      json_response (error_body "Invalid signature") 401
    else
      match JSON_parse (text request) with
      | None => json_response (error_body "Invalid JSON") 400
      | Some payload =>
          if is_null payload && reads_payload_id (topicHeader request)
          then json_response (error_body "Internal server error") 500
          else json_response success_body 200
      end.
Proof.
  destruct (signature_refused env request) eqn:E.
  - apply POST_refused, E.
  - apply POST_past_signature, E.
Qed.

(** X2: the signature header has no influence on the answer exactly when
    the environment variable is unset, empty, or equal to the placeholder;
    an empty value switches the check off like an absent one. *)
Theorem signature_header_ignored_iff (env : option string) :
  (env = None \/ env = Some EmptyString \/ env = Some placeholder)
  <-> (forall request h,
         fst (POST JSON_parse env (with_hmac request h))
         = fst (POST JSON_parse env request)).
Proof.
  split.
  - intros H request h.
    assert (Hp : WEBHOOK_SECRET env = placeholder)
      by (destruct H as [->|[->| ->]]; reflexivity).
    unfold POST, with_hmac. cbn [text hmacHeader topicHeader shopHeader].
    rewrite !(verify_signature_bypass env _ _ Hp). reflexivity.
  - intros H.
    destruct (String.eqb_spec (WEBHOOK_SECRET env) placeholder) as [E|E].
    + destruct env as [s|]; [|auto]. right.
      destruct s as [|c s]; [auto|]. right. simpl in E. congruence.
    + exfalso. apply String.eqb_neq in E.
      pose (request := mkRequest EmptyString
              (Some (hmac_sha256_base64 (WEBHOOK_SECRET env) EmptyString))
              None None).
      specialize (H request None).
      rewrite (POST_refused env (with_hmac request None)) in H
        by (unfold signature_refused; rewrite E; reflexivity).
      rewrite (POST_past_signature env request) in H.
      * cbn [text topicHeader request] in H.
        destruct (JSON_parse EmptyString) as [p|]; [|discriminate H].
        destruct (is_null p && reads_payload_id None); discriminate H.
      * unfold signature_refused. rewrite E.
        cbn [negb andb hmacHeader text request strict_ne].
        rewrite String.eqb_refl. reflexivity.
Qed.
End WebhookMore.

(** ** Session verification endpoint: cookie and failure *)
Section SessionMore.
Import AuthSession.
Variable verifySession : string -> awaited VerifyResult.

Lemma GET_rejected (token : string) :
  token <> EmptyString -> verifySession token = Rejects ->
  GET verifySession (Some token)
  = (mkResponse 500 (mkBody false None (Some "Internal server error")) [],
     [VerifySession token; Console Error "Session API error:" []]).
Proof.
  intros Hne Hv. unfold GET. destruct token as [|c token]; [congruence|].
  cbn [truthy_str str_truthy negb when the]. unfold await. rewrite Hv.
  reflexivity.
Qed.

Lemma truthy_str_Some (v : option string) :
  truthy_str v = true -> exists s, v = Some s /\ s <> EmptyString.
Proof.
  destruct v as [[|c s]|]; try discriminate. intros _. eexists. split; [reflexivity | discriminate].
Qed.

(** X3: the session route deletes the [session_token] cookie exactly when a
    non-empty token was sent and the session service answered with
    [success] false; not when the token is missing, not when the token is
    accepted, not when the service throws. *)
Theorem session_cookie_cleared_iff (sessionToken : option string) :
  In "session_token" (deleted_cookies (fst (GET verifySession sessionToken)))
  <-> exists token result,
        sessionToken = Some token /\ token <> EmptyString
        /\ verifySession token = Resolved result
        /\ result_success result = false.
Proof.
  split.
  - intros Hin. destruct (truthy_str sessionToken) eqn:Ht.
    + destruct (truthy_str_Some _ Ht) as (token & -> & Hne).
      destruct (verifySession token) as [result|] eqn:Hv.
      * rewrite (GET_verified verifySession token result Hne Hv) in Hin.
        destruct (result_success result) eqn:Hs; [destruct Hin|].
        exists token, result. auto.
      * rewrite (GET_rejected token Hne Hv) in Hin. destruct Hin.
    + rewrite (GET_no_token verifySession _ Ht) in Hin. destruct Hin.
  - intros (token & result & -> & Hne & Hv & Hs).
    rewrite (GET_verified verifySession token result Hne Hv), Hs.
    left. reflexivity.
Qed.

(** X4: the session route answers 500 exactly when a non-empty token was
    sent and the session service throws; the answer then is
    [{success: false, error: 'Internal server error'}], the error is
    logged and no cookie is deleted. *)
Theorem session_500_iff_service_fails (sessionToken : option string) :
  (status (fst (GET verifySession sessionToken)) = 500
   <-> exists token, sessionToken = Some token /\ token <> EmptyString
                     /\ verifySession token = Rejects)
  /\ (status (fst (GET verifySession sessionToken)) = 500 ->
      GET verifySession sessionToken
      = (mkResponse 500 (mkBody false None (Some "Internal server error")) [],
         [VerifySession (the sessionToken);
          Console Error "Session API error:" []])).
Proof.
  assert (H : status (fst (GET verifySession sessionToken)) = 500 ->
              exists token, sessionToken = Some token /\ token <> EmptyString
                            /\ verifySession token = Rejects).
  { intros Hst. destruct (truthy_str sessionToken) eqn:Ht.
    - destruct (truthy_str_Some _ Ht) as (token & -> & Hne).
      destruct (verifySession token) as [result|] eqn:Hv; [|eauto].
      rewrite (GET_verified verifySession token result Hne Hv) in Hst.
      destruct (result_success result); discriminate Hst.
    - rewrite (GET_no_token verifySession _ Ht) in Hst. discriminate Hst. }
  split; [split; [exact H|]|].
  - intros (token & -> & Hne & Hv). rewrite (GET_rejected token Hne Hv).
    reflexivity.
  - intros Hst. destruct (H Hst) as (token & -> & Hne & Hv).
    apply (GET_rejected token Hne Hv).
Qed.
End SessionMore.

(** ** Push operation: credentials, relay and mapping *)
Section PushResponses.
Import PushToShopify.
Variable W : World.

(** The response to a validated push, read off the answers of the
    collaborators; the mapping insert is not among them. *)
Lemma push_response (product shop : JS.json) (sid : option string) :
  fst (try_handler (push W product shop sid) "Internal server error:"
         internal_error)
  = match resolve_credentials W shop json_headers with
    | (Val headers, _) =>
        if convertible shop then
          match fetch W shop headers product with
          | Resolved (st, Resolved data) =>
              match data with
              | JNull => internal_error
              | _ =>
                  if ok st then
                    if convertible_val (opt_prop (prop data "product") "title")
                       && convertible_val (opt_prop (prop data "product") "id")
                    then json_response (success_body (prop data "product")) 200
                    else internal_error
                  else if carries_body st
                       then json_response (relayed_error data) st
                       else internal_error
              end
          | _ => internal_error
          end
        else internal_error
    | (Return r, _) => r
    | (Throw _, _) => internal_error
    end.
Proof.
  unfold push.
  destruct (resolve_credentials W shop json_headers) as [[headers|r|e] t];
    cbn [console emit bind]; [|reflexivity|reflexivity].
  destruct (convertible shop); cbn [negb when throw ret bind console emit];
    [|reflexivity].
  destruct (fetch W shop headers product) as [[st [data|]]|];
    cbn [await await_silent bind fst snd console emit];
    [|reflexivity|reflexivity].
  unfold carries_body, relayed_error, return_json.
  destruct (ok st); cbn [negb when bind ret].
  - destruct data; try reflexivity.
    all: cbn [get ret bind].
    all: match goal with
         | |- context [convertible_val ?a && convertible_val ?b] =>
             destruct (convertible_val a); [destruct (convertible_val b)|];
             cbn [negb orb andb when throw ret bind console emit];
             try reflexivity
         end.
    all: match goal with
         | |- context [store_mapping W ?a ?b ?c] =>
             destruct (store_mapping_falls_through W a b c) as [t' ->]
         end; reflexivity.
  - destruct data; try reflexivity.
    all: cbn [get ret bind console emit].
    all: destruct ((200 <=? st) && (st <=? 599)); cbn [negb andb];
         [|reflexivity].
    all: destruct (null_body_status st); reflexivity.
Qed.

End PushResponses.

Section PushMore.
Import PushToShopify.
Variable W : World.

Ltac break_push :=
  repeat (cbn [await await_silent bind ret leave throw get console emit when
               return_json try_catch try_handler negb andb orb fst snd];
          match goal with
          | |- context [convertible ?x] => destruct (convertible x) eqn:?
          | |- context [convertible_val ?x] =>
              destruct (convertible_val x) eqn:?
          | |- context [(200 <=? ?x) && (?x <=? 599)] =>
              destruct ((200 <=? x) && (x <=? 599)) eqn:?
          | |- context [null_body_status ?x] =>
              destruct (null_body_status x) eqn:?
          | |- context [store_config W ?s] =>
              destruct (store_config W s) as [[?cfg|]|] eqn:?
          | |- context [getToken W ?s] =>
              destruct (getToken W s) as [?tok|] eqn:?
          | |- context [fetch W ?s ?h ?p] =>
              destruct (fetch W s h p) as [[?st [?data|]]|] eqn:?
          | |- context [insert_mapping W ?a ?b ?c] =>
              destruct (insert_mapping W a b c) as [[|]|] eqn:?
          | |- context [ok ?st] => destruct (ok st) eqn:?
          | |- context [get ?d _] => is_var d; destruct d
          | |- context [truthy_str ?x] => destruct (truthy_str x) eqn:?
          | |- context [truthy_val ?x] => destruct (truthy_val x) eqn:?
          | |- context [truthy ?x] => destruct (truthy x) eqn:?
          end).

Lemma push_sends_one_credential (product shop : JS.json) (sid : option string) :
  Forall sends_one_credential
    (snd (try_handler (push W product shop sid) "Internal server error:" internal_error))
  /\ (List.length (filter is_fetch
        (snd (try_handler (push W product shop sid) "Internal server error:" internal_error))) <= 1)%nat.
Proof.
  unfold push, resolve_credentials, store_mapping, json_headers, return_json.
  break_push.
  all: cbn [await await_silent bind ret leave throw get console emit when
            return_json try_catch try_handler negb andb orb fst snd
            set String.eqb Ascii.eqb Bool.eqb app].
  all: split; [repeat constructor; cbn; unfold one_credential; eauto | cbn; lia].
Qed.

Lemma truthy_str_the (v : option string) :
  truthy_str v = true -> v = Some (the v) /\ the v <> EmptyString.
Proof.
  destruct v as [[|c s]|]; try discriminate. intros _.
  split; [reflexivity | discriminate].
Qed.

Lemma push_mapping_only_after_success (product shop : JS.json)
    (sid : option string) (sid' pid : string) (shop' : JS.json) :
  In (InsertMapping sid' pid shop')
     (snd (try_handler (push W product shop sid) "Internal server error:"
             internal_error)) ->
  sid = Some sid' /\ sid' <> EmptyString /\ shop' = shop
  /\ status (fst (try_handler (push W product shop sid)
                    "Internal server error:" internal_error)) = 200.
Proof.
  unfold push, resolve_credentials, store_mapping, json_headers, return_json.
  break_push.
  all: cbn [await await_silent bind ret leave throw get console emit when
            return_json try_catch try_handler negb andb orb fst snd
            set String.eqb Ascii.eqb Bool.eqb app In status json_response].
  all: intros Hin;
       repeat match type of Hin with
              | _ \/ _ => destruct Hin as [Hin|Hin]
              end;
       try discriminate Hin; try contradiction.
  all: injection Hin as <- <- <-.
  all: match goal with
       | H : truthy_str ?s = true |- ?s = Some _ /\ _ =>
           destruct (truthy_str_the s H) as [Hs Hne]
       end.
  all: auto.
Qed.

Lemma POST_unreadable (request : Request) :
  json request = Rejects \/ json request = Resolved JNull ->
  POST W request
  = (internal_error, [Console Error "Internal server error:" []]).
Proof. intros [H|H]; unfold POST; rewrite H; reflexivity. Qed.

Lemma POST_shape (request : Request) :
  POST W request = (internal_error, [Console Error "Internal server error:" []])
  \/ (exists r, POST W request = (r, []) /\ status r = 400)
  \/ (exists body,
        json request = Resolved body /\ body <> JNull
        /\ incomplete body = false
        /\ POST W request
           = try_handler
               (push W (product_of body) (shop_of body)
                  (supplierProductIdHeader request))
               "Internal server error:" internal_error).
Proof.
  destruct (json request) as [body|] eqn:Hj;
    [|left; apply POST_unreadable; auto].
  assert (Hd : body = JNull \/ body <> JNull)
    by (destruct body; (left; reflexivity) || (right; discriminate)).
  destruct Hd as [->|Hb]; [left; apply POST_unreadable; auto|].
  destruct (incomplete body) eqn:Hc.
  - right; left. eexists. rewrite (POST_incomplete W request body Hj Hb Hc).
    split; reflexivity.
  - right; right. exists body. repeat split; auto.
    apply POST_complete; assumption.
Qed.

(** X6: whatever the request and the collaborators, the push handler calls
    the platform at most once, and every such call carries the content type
    and exactly one credential header, [X-Shopify-Access-Token] or
    [Authorization]. *)
Theorem push_sends_exactly_one_credential (request : Request) :
  Forall sends_one_credential (snd (POST W request))
  /\ (List.length (filter is_fetch (snd (POST W request))) <= 1)%nat.
Proof.
  destruct (POST_shape request)
    as [E|[(r & E & _)|(body & _ & _ & _ & E)]]; rewrite E.
  - split; [repeat constructor | cbn; lia].
  - split; [constructor | cbn; lia].
  - apply push_sends_one_credential.
Qed.

(** X7: a row is inserted into [product_shopify_mappings] only for a push
    the handler answers with 200, only when the [X-Supplier-Product-ID]
    header is present and non-empty (its value is the row's supplier
    product), and for the shop of the request. *)
Theorem mapping_written_only_after_accepted_push (request : Request)
    (sid pid : string) (shop : JS.json) :
  In (InsertMapping sid pid shop) (snd (POST W request)) ->
  supplierProductIdHeader request = Some sid /\ sid <> EmptyString
  /\ status (fst (POST W request)) = 200
  /\ exists body, json request = Resolved body /\ shop = shop_of body.
Proof.
  intros Hin.
  destruct (POST_shape request)
    as [E|[(r & E & _)|(body & Hj & _ & _ & E)]]; rewrite E in *.
  - destruct Hin as [Hin|[]]. discriminate Hin.
  - destruct Hin.
  - destruct (push_mapping_only_after_success _ _ _ _ _ _ Hin)
      as (Hs & Hne & Hshop & Hst).
    repeat split; auto. exists body. auto.
Qed.

(** X5: a complete push for a store with no active direct-config row and no
    (or an empty) legacy token is answered 401 after the two lookups;
    nothing is sent to the platform. *)
Theorem push_without_credential (request : Request) (body : JS.json)
    (token : option string) :
  json request = Resolved body -> body <> JNull -> incomplete body = false ->
  store_config W (shop_of body) = Resolved None ->
  getToken W (shop_of body) = Resolved token ->
  truthy_str token = false ->
  POST W request
  = (json_response
       (error_body "Missing access token. Please connect to Shopify first.")
       401,
     [Console Log "Supplier Product ID from headers:"
        [option_map JStr (supplierProductIdHeader request)];
      SelectStoreConfig (shop_of body); GetToken (shop_of body)]).
Proof.
  intros Hj Hb Hc Hcfg Htok Hfalsy.
  rewrite (POST_complete W request body Hj Hb Hc).
  unfold push, resolve_credentials. rewrite Hcfg. cbn [await bind].
  rewrite Htok. cbn [await bind]. rewrite Hfalsy. reflexivity.
Qed.

Lemma push_response_insert_independent (product shop : JS.json)
    (sid : option string)
    (answer : string -> string -> JS.json -> awaited bool) :
  fst (try_handler (push (with_insert_mapping W answer) product shop sid)
         "Internal server error:" internal_error)
  = fst (try_handler (push W product shop sid)
           "Internal server error:" internal_error).
Proof. rewrite !push_response. reflexivity. Qed.

(** X8: the mapping write is best effort: replacing the answer of the
    insert by any other (an error, a thrown exception) leaves the response
    of every push request unchanged. *)
Theorem mapping_outcome_never_changes_the_response (request : Request)
    (answer : string -> string -> JS.json -> awaited bool) :
  fst (POST (with_insert_mapping W answer) request) = fst (POST W request).
Proof.
  destruct (json request) as [body|] eqn:Hj.
  - assert (Hd : body = JNull \/ body <> JNull)
      by (destruct body; (left; reflexivity) || (right; discriminate)).
    destruct Hd as [->|Hb].
    + unfold POST. rewrite Hj. reflexivity.
    + destruct (incomplete body) eqn:Hc.
      * rewrite !(POST_incomplete _ request body Hj Hb Hc). reflexivity.
      * rewrite !(POST_complete _ request body Hj Hb Hc).
        apply push_response_insert_independent.
  - unfold POST. rewrite Hj. reflexivity.
Qed.

Lemma no_insert_unless_200 (product shop : JS.json) (sid : option string) :
  status (fst (try_handler (push W product shop sid)
                 "Internal server error:" internal_error)) <> 200 ->
  Forall (fun e => is_insert_mapping e = false)
         (snd (try_handler (push W product shop sid)
                 "Internal server error:" internal_error)).
Proof.
  intros Hst. apply Forall_forall. intros e He.
  destruct e; try reflexivity. exfalso.
  destruct (push_mapping_only_after_success _ _ _ _ _ _ He)
    as (_ & _ & _ & H200).
  exact (Hst H200).
Qed.

(** X9: when the platform answers a complete, credentialed push with a
    non-2xx status and a JSON body other than [null], the handler answers
    with that same status and [{error: data.errors || data ||
    "Shopify error"}] if the status is one a response with a body can
    carry (300..599 except 304), and with 500 otherwise; in both cases it
    writes no mapping row. *)
Theorem upstream_error_is_relayed (request : Request) (body : JS.json)
    (headers : Headers) (t : list event) (st : Z) (data : JS.json) :
  json request = Resolved body -> body <> JNull -> incomplete body = false ->
  resolve_credentials W (shop_of body) json_headers = (Val headers, t) ->
  convertible (shop_of body) = true ->
  fetch W (shop_of body) headers (product_of body)
  = Resolved (st, Resolved data) ->
  ok st = false -> data <> JNull ->
  fst (POST W request)
  = (if carries_body st then json_response (relayed_error data) st
     else internal_error)
  /\ (carries_body st = true <-> (300 <= st <= 599 /\ st <> 304))
  /\ Forall (fun e => is_insert_mapping e = false) (snd (POST W request)).
Proof.
  intros Hj Hb Hc Hr Hs Hf Hok Hd.
  rewrite (POST_complete W request body Hj Hb Hc).
  assert (E : fst (try_handler
                 (push W (product_of body) (shop_of body)
                    (supplierProductIdHeader request))
                 "Internal server error:" internal_error)
              = if carries_body st then json_response (relayed_error data) st
                else internal_error).
  { rewrite push_response, Hr, Hs, Hf, Hok.
    destruct data; congruence || reflexivity. }
  split; [exact E|]. split.
  - unfold carries_body, null_body_status, ok in *. cbn [existsb].
    rewrite !andb_true_iff, negb_true_iff, !orb_false_iff.
    rewrite !Z.leb_le, !Z.eqb_neq.
    apply andb_false_iff in Hok. rewrite !Z.leb_gt in Hok. lia.
  - apply no_insert_unless_200. rewrite E.
    destruct (carries_body st) eqn:Hcb; cbn; [|discriminate].
    intros ->. discriminate Hok.
Qed.

(** X10: when the body of the platform's answer cannot be read as JSON, or
    is the JSON [null], the handler answers 500 whatever the platform's
    status was, after the call was made (for a shop whose URL can be
    built, without which no call is made), and writes no mapping row. *)
Theorem unreadable_platform_answer_is_500 (request : Request) (body : JS.json)
    (headers : Headers) (t : list event) (st : Z) (d : awaited JS.json) :
  json request = Resolved body -> body <> JNull -> incomplete body = false ->
  resolve_credentials W (shop_of body) json_headers = (Val headers, t) ->
  fetch W (shop_of body) headers (product_of body) = Resolved (st, d) ->
  d = Rejects \/ d = Resolved JNull ->
  fst (POST W request) = internal_error
  /\ (convertible (shop_of body) = true ->
      In (Fetch (shop_of body) headers (product_of body))
         (snd (POST W request)))
  /\ Forall (fun e => is_insert_mapping e = false) (snd (POST W request)).
Proof.
  intros Hj Hb Hc Hr Hf Hd.
  assert (E : fst (POST W request) = internal_error).
  { rewrite (POST_complete W request body Hj Hb Hc).
    rewrite push_response, Hr, Hf.
    destruct (convertible (shop_of body)); [|reflexivity].
    destruct Hd as [->| ->]; reflexivity. }
  split; [exact E|]. split.
  - intros Hs.
    apply (POST_fetches_with_resolved_headers W request body headers t);
      assumption.
  - rewrite (POST_complete W request body Hj Hb Hc) in *.
    apply no_insert_unless_200. rewrite E. discriminate.
Qed.
End PushMore.

(** ** Store list: access and shape *)
Section StoresMore.
Import StoresUser.

Lemma set_absent {A} (k : string) (v : A) (m : list (string * A)) :
  has k m = false -> set k v m = m ++ [(k, v)].
Proof.
  unfold has. induction m as [|[k0 v0] m IH]; simpl; [reflexivity|].
  rewrite (String.eqb_sym k k0). destruct (String.eqb k0 k); [discriminate|].
  intros H. rewrite (IH H). reflexivity.
Qed.

Lemma fold_token_appends (ts : list TokenStore) (m : StoreMap) :
  exists l, fold_left add_token_store ts m = m ++ l
            /\ Forall from_legacy (values l).
Proof.
  revert m. induction ts as [|s ts IH]; intros m; simpl.
  - exists []. rewrite app_nil_r. split; constructor.
  - unfold add_token_store at 2.
    destruct (has (shop s) m) eqn:E; simpl.
    + apply IH.
    + rewrite (set_absent _ _ _ E).
      destruct (IH (m ++ [(shop s, legacy_entry s)])) as (l & -> & Hl).
      exists ((shop s, legacy_entry s) :: l). rewrite <- app_assoc.
      split; [reflexivity|]. constructor; [reflexivity | exact Hl].
Qed.

Lemma fold_seller_primary (sc : list SellerConnection) (m : StoreMap) :
  Forall from_primary (values m) ->
  Forall from_primary (values (fold_left add_seller_connection sc m)).
Proof.
  revert m. induction sc as [|c sc IH]; intros m Hm; simpl; [exact Hm|].
  apply IH. unfold add_seller_connection, values in *.
  rewrite Forall_map in *. apply Forall_forall. intros p Hp.
  apply In_set in Hp. destruct Hp as [<-|Hp]; [reflexivity|].
  rewrite Forall_forall in Hm. auto.
Qed.

(** X14: in the merged store list every entry built from the primary
    registry comes before every entry built from the legacy token store:
    the list is the primary-only list followed by legacy entries. *)
Theorem primary_entries_come_first (sc : list SellerConnection)
    (ts : list TokenStore) :
  exists legacy_part,
    merge_stores sc ts = merge_stores sc [] ++ legacy_part
    /\ Forall from_primary (merge_stores sc [])
    /\ Forall from_legacy legacy_part.
Proof.
  unfold merge_stores, store_map.
  destruct (fold_token_appends ts (fold_left add_seller_connection sc []))
    as (l & -> & Hl).
  exists (values l). unfold values at 1. rewrite map_app.
  split; [reflexivity|]. split; [|exact Hl].
  apply fold_seller_primary. constructor.
Qed.

Lemma first_token_store_None (k : string) (ts : list TokenStore) :
  first_token_store k ts = None <-> ~ In k (map shop ts).
Proof.
  unfold first_token_store. induction ts as [|s ts IH]; simpl; [tauto|].
  destruct (String.eqb_spec (shop s) k) as [E|E].
  - split; [discriminate | intros H; exfalso; auto].
  - rewrite IH. tauto.
Qed.

Lemma last_connection_None_keys (k : string) (sc : list SellerConnection) :
  last_connection k sc = None <-> ~ In k (map storeUrl sc).
Proof.
  rewrite last_connection_None. rewrite in_map_iff. split.
  - intros H (c & Hk & Hc). exact (H c Hc Hk).
  - intros H c Hc Hk. apply H. exists c. auto.
Qed.

Lemma length_fold_seller (sc : list SellerConnection) (m : StoreMap) :
  (List.length (fold_left add_seller_connection sc m)
   <= List.length m + List.length sc)%nat.
Proof.
  revert m. induction sc as [|c sc IH]; intros m; simpl; [lia|].
  specialize (IH (add_seller_connection m c)).
  assert (List.length (add_seller_connection m c) <= S (List.length m))%nat.
  { unfold add_seller_connection.
    rewrite <- (length_map fst), keys_set.
    destruct (has _ _); rewrite ?length_app, length_map; simpl; lia. }
  lia.
Qed.

Lemma length_fold_token (ts : list TokenStore) (m : StoreMap) :
  (List.length (fold_left add_token_store ts m)
   <= List.length m + List.length ts)%nat.
Proof.
  revert m. induction ts as [|s ts IH]; intros m; simpl; [lia|].
  specialize (IH (add_token_store m s)).
  assert (List.length (add_token_store m s) <= S (List.length m))%nat.
  { unfold add_token_store. destruct (has (shop s) m) eqn:E; simpl; [lia|].
    rewrite (set_absent _ _ _ E), length_app. simpl. lia. }
  lia.
Qed.

(** X13: the merged store list holds each store key once; its keys are
    exactly the keys of the two sources; so it has at most as many entries
    as the two sources together. *)
Theorem merged_store_keys (sc : list SellerConnection) (ts : list TokenStore) :
  NoDup (map Entry.shop (merge_stores sc ts))
  /\ (forall k, In k (map Entry.shop (merge_stores sc ts))
                <-> In k (map storeUrl sc) \/ In k (map shop ts))
  /\ (List.length (merge_stores sc ts) <= List.length sc + List.length ts)%nat.
Proof.
  pose proof (keyed_store_map sc ts) as Hk.
  unfold merge_stores. rewrite (keyed_shops _ Hk).
  split; [exact (proj1 Hk)|]. split.
  - intros k.
    destruct (in_dec string_dec k (map fst (store_map sc ts))) as [Hin|Hout].
    + split; [intros _|auto].
      destruct (in_dec string_dec k (map storeUrl sc)) as [|Hsc]; [auto|].
      destruct (in_dec string_dec k (map shop ts)) as [|Hts]; [auto|].
      exfalso. revert Hin. apply assoc_None. rewrite assoc_store_map.
      rewrite (proj2 (last_connection_None_keys k sc) Hsc).
      rewrite (proj2 (first_token_store_None k ts) Hts). reflexivity.
    + split; [contradiction|]. intros H. exfalso.
      apply assoc_None in Hout. rewrite assoc_store_map in Hout.
      destruct (last_connection k sc) as [c|] eqn:Ec; [discriminate|].
      destruct (first_token_store k ts) as [s|] eqn:Es; [discriminate|].
      apply last_connection_None_keys in Ec.
      apply first_token_store_None in Es. tauto.
  - unfold values, store_map. rewrite length_map.
    pose proof (length_fold_seller sc []) as H1.
    pose proof (length_fold_token ts (fold_left add_seller_connection sc []))
      as H2.
    simpl in H1. lia.
Qed.

Variable verifySession : string -> awaited AuthSession.VerifyResult.
Variable getSellerStoreConnections : string -> awaited (list SellerConnection).
Variable getUserStores : string -> awaited (list TokenStore).

(** X11: the store list is refused with 401 before either registry is
    asked: without a token the session service is not asked either; with a
    token that is turned down, that carries no user, or whose user is not a
    seller, only the session service is asked. No cookie is deleted. *)
Theorem store_list_requires_seller (sessionToken : option string) :
  (truthy_str sessionToken = false ->
   GET verifySession getSellerStoreConnections getUserStores sessionToken
   = (json_response (Failure "Authentication required") 401, []))
  /\ (forall token result,
        sessionToken = Some token -> token <> EmptyString ->
        verifySession token = Resolved result ->
        AuthSession.result_success result = false
        \/ AuthSession.result_user result = None
        \/ (exists u, AuthSession.result_user result = Some u
                      /\ AuthSession.userType u <> "seller") ->
        GET verifySession getSellerStoreConnections getUserStores sessionToken
        = (json_response (Failure "Seller authentication required") 401,
           [VerifySession token])).
Proof.
  split.
  - intros H. unfold GET. rewrite H. reflexivity.
  - intros token result -> Hne Hv Hbad. unfold GET.
    destruct token as [|c token]; [congruence|].
    cbn [truthy_str str_truthy negb when the]. rewrite Hv.
    cbn [await bind ret].
    assert (E : negb (AuthSession.result_success result)
                || match AuthSession.result_user result with
                   | Some _ => false | None => true end
                || not_seller (AuthSession.result_user result) = true).
    { destruct Hbad as [->|[->|(u & -> & Hu)]].
      - reflexivity.
      - apply orb_true_r.
      - simpl. apply String.eqb_neq in Hu. rewrite Hu. apply orb_true_r. }
    rewrite E. reflexivity.
Qed.

(** X12: for a seller, a failure of either registry fails the listing as a
    whole with 500: when the seller connections cannot be read the token
    store is not asked, and when the token store cannot be read the seller
    connections already read are not returned. *)
Theorem store_list_fails_as_a_whole (token : string) (user : AuthSession.User)
    (err : option string) :
  token <> EmptyString ->
  verifySession token
  = Resolved (AuthSession.mkVerifyResult true (Some user) err) ->
  AuthSession.userType user = "seller" ->
  (getSellerStoreConnections (AuthSession.username user) = Rejects ->
   GET verifySession getSellerStoreConnections getUserStores (Some token)
   = (json_response (Failure "Internal server error") 500,
      [VerifySession token;
       GetSellerStoreConnections (AuthSession.username user);
       Console Error "Error in GET /api/stores/user:" []]))
  /\ (forall sc,
        getSellerStoreConnections (AuthSession.username user) = Resolved sc ->
        getUserStores (AuthSession.username user) = Rejects ->
        GET verifySession getSellerStoreConnections getUserStores (Some token)
        = (json_response (Failure "Internal server error") 500,
           [VerifySession token;
            GetSellerStoreConnections (AuthSession.username user);
            GetUserStores (AuthSession.username user);
            Console Error "Error in GET /api/stores/user:" []])).
Proof.
  intros Hne Hv Hseller.
  split.
  - intros Hsc. unfold GET. destruct token as [|c token]; [congruence|].
    cbn [truthy_str str_truthy negb when the]. rewrite Hv.
    cbn [await bind ret AuthSession.result_success AuthSession.result_user
         not_seller negb orb username_of].
    rewrite Hseller, Hsc. reflexivity.
  - intros sc Hsc Hts. unfold GET. destruct token as [|c token]; [congruence|].
    cbn [truthy_str str_truthy negb when the]. rewrite Hv.
    cbn [await bind ret AuthSession.result_success AuthSession.result_user
         not_seller negb orb username_of].
    rewrite Hseller, Hsc, Hts. reflexivity.
Qed.
End StoresMore.

(** ** Supplier products *)
Section ServiceProperties.
Import ProductService.
Variable Product : Type.
Variable W : World Product.

Ltac break_service :=
  repeat (cbn [Eff.bind Eff.ret Eff.leave Eff.emit Eff.invoke Eff.try_catch
               Eff.await_call ProductService.say ProductService.ask
               fst snd data error username];
          match goal with
          | |- context [getUser ?w] =>
              destruct (getUser w) as [[[?user|] [|]]|] eqn:?
          | |- context [refreshSession ?w] =>
              destruct (refreshSession w) as [[[?user|] [|]]|] eqn:?
          | |- context [getItem ?w ?k] =>
              destruct (getItem w k) as [?stored|] eqn:?
          | |- context [supplier_by_email ?w ?e] =>
              destruct (supplier_by_email w e) as [[[?row|] [|]]|] eqn:?
          | |- context [products_by_supplier ?w ?i] =>
              destruct (products_by_supplier w i) as [[?d [|]]|] eqn:?
          | |- context [truthy_str ?x] => destruct (truthy_str x) eqn:?
          end).

Ltac finish_service :=
  cbn [Eff.bind Eff.ret Eff.leave Eff.emit Eff.invoke Eff.try_catch
       Eff.await_call ProductService.say ProductService.ask
       fst snd data error username app].

Lemma getSupplierProducts_returns :
  exists products t, getSupplierProducts W = (Eff.Returned products, t).
Proof.
  unfold getSupplierProducts, authenticate, from_supplier_row,
    from_local_storage.
  break_service. all: finish_service. all: eexists; eexists; reflexivity.
Qed.

(** X15: the supplier-products route answers 200 with the list that
    [getSupplierProducts] returns, whatever the auth client, the tables and
    [localStorage] do: the service returns in every case, so the route's
    own 500 branch is never taken. *)
Theorem supplier_route_always_200 :
  exists products t,
    GET W = (Eff.Returned (json_response (Products products) 200), t)
    /\ fst (getSupplierProducts W) = Eff.Returned products.
Proof.
  destruct getSupplierProducts_returns as (products & t & E).
  exists products, t. unfold GET. rewrite E. split; [|reflexivity].
  cbn. rewrite app_nil_r. reflexivity.
Qed.

(** X16: [getSupplierProducts] queries the products table at most once,
    and a non-empty result is always the data of that query, answered
    without an error. *)
Theorem products_come_from_one_clean_query (products : list Product) :
  fst (getSupplierProducts W) = Eff.Returned products ->
  (List.length (filter is_products_query (snd (getSupplierProducts W)))
   <= 1)%nat
  /\ (products <> [] ->
      exists id,
        In (SelectProductsBySupplier id) (snd (getSupplierProducts W))
        /\ products_by_supplier W id
           = Resolved (mkAnswer (Some products) false)).
Proof.
  unfold getSupplierProducts, authenticate, from_supplier_row,
    from_local_storage.
  break_service. all: finish_service.
  all: intros [= <-]; split; [cbn; lia|]; intros Hne; try congruence.
  all: try (destruct d; [|cbn in Hne; congruence]).
  all: eexists; split; [cbn; eauto 20 | cbn [rows]; eassumption].
Qed.

(** X17: when the auth check yields a user without an error and the
    suppliers table has that user's row, the products are those of the
    row's [username] (the empty list if that query fails); [localStorage]
    is not read and the session is not refreshed. *)
Theorem verified_supplier_identity_is_used (user : AuthUser)
    (row : Supplier) :
  getUser W = Resolved (Some user, false) ->
  supplier_by_email W (email user) = Resolved (mkAnswer (Some row) false) ->
  fst (getSupplierProducts W)
  = Eff.Returned match products_by_supplier W (username row) with
           | Resolved answer =>
               if error answer then [] else rows (data answer)
           | Rejects => []
           end
  /\ Forall (fun c => is_storage_read c = false /\ c <> AuthRefreshSession)
            (snd (getSupplierProducts W))
  /\ In (SelectProductsBySupplier (username row))
        (snd (getSupplierProducts W)).
Proof.
  intros Hu Hs.
  unfold getSupplierProducts, authenticate, from_supplier_row.
  rewrite Hu. finish_service. rewrite Hs. finish_service.
  destruct (products_by_supplier W (username row)) as [[d [|]]|];
    finish_service; (split; [reflexivity|]);
    (split; [repeat constructor; discriminate | cbn; auto 10]).
Qed.

(** X18: when the auth check yields no user or an error, the supplier is
    the one [localStorage] names under [supplierName]: with no name there
    the result is empty and the products table is not queried; with a name
    the products are those of that name (the empty list if the query
    fails), and the suppliers table is never consulted. *)
Theorem unverified_identity_comes_from_local_storage
    (user : option AuthUser) (err : bool) (stored : option string) :
  getUser W = Resolved (user, err) ->
  err = true \/ user = None ->
  getItem W "supplierName" = Resolved stored ->
  (truthy_str stored = false ->
   fst (getSupplierProducts W) = Eff.Returned []
   /\ Forall (fun c => is_products_query c = false)
             (snd (getSupplierProducts W)))
  /\ (forall name, stored = Some name -> name <> EmptyString ->
      fst (getSupplierProducts W)
      = Eff.Returned match products_by_supplier W name with
               | Resolved answer =>
                   if error answer then [] else rows (data answer)
               | Rejects => []
               end
      /\ Forall (fun c => forall e, c <> SelectSupplierByEmail e)
                (snd (getSupplierProducts W))).
Proof.
  intros Hu Hbad Hst.
  assert (E : fst (getSupplierProducts W)
              = fst (Eff.try_catch (from_local_storage W)
                  (fun _ => Eff.bind
                              (say Error "Error in getSupplierProducts:")
                              (fun _ => Eff.leave [])))
           /\ forall P, Forall P (snd (getSupplierProducts W)) <->
              Forall P ([Say Log "🔍 PRODUCT SERVICE - Getting supplier products..."; AuthGetUser; Say Log "🔐 PRODUCT SERVICE - Auth check:"] ++ snd (Eff.try_catch (from_local_storage W)
                  (fun _ => Eff.bind
                              (say Error "Error in getSupplierProducts:")
                              (fun _ => Eff.leave []))))).
  { unfold getSupplierProducts, authenticate. rewrite Hu.
    destruct Hbad as [->| ->]; [|destruct err]; finish_service;
      destruct (from_local_storage W) as [[[]|r|e] t];
      cbn; split; reflexivity. }
  destruct E as [E1 E2]. rewrite E1. split.
  - intros Hf. rewrite E2. unfold from_local_storage. rewrite Hst.
    finish_service. rewrite Hf. cbn. split; [reflexivity|repeat constructor].
  - intros name -> Hne. rewrite E2. unfold from_local_storage. rewrite Hst.
    finish_service. cbn [truthy_str]. rewrite (nonempty_truthy name Hne).
    cbn [the].
    destruct (products_by_supplier W name) as [[d [|]]|]; finish_service;
      (split; [reflexivity|]); repeat constructor; discriminate.
Qed.
End ServiceProperties.

(** ** Product creation *)
Section CreationProperties.
Import ProductService.
Variable Product : Type.
Variable C : CreationWorld Product.

Ltac break_creation :=
  repeat (cbn [Eff.bind Eff.ret Eff.leave Eff.emit Eff.invoke Eff.try_catch
               ProductService.say ProductService.ask
               fst snd data error];
          match goal with
          | |- context [creator ?w] =>
              destruct (creator w) as [[[?user|] [|]]|] eqn:?
          | |- context [profile_by_email ?w ?e] =>
              destruct (profile_by_email w e) as [[[?profile|] [|]]|] eqn:?
          | |- context [stored_item ?w ?k] =>
              destruct (stored_item w k) as [?stored|] eqn:?
          | |- context [insert_product ?w ?r] =>
              destruct (insert_product w r) as [[?created [|]]|] eqn:?
          end).

Ltac finish_creation :=
  cbn [Eff.bind Eff.ret Eff.leave Eff.emit Eff.invoke Eff.try_catch
       ProductService.say ProductService.ask
       fst snd data error app In filter is_insert_product List.length].

Lemma new_row_fields (productData : list (string * json))
    (supplierId supplierName : string) :
  assoc "status" (new_row productData supplierId supplierName)
  = Some (JStr "pending")
  /\ assoc "supplier_id" (new_row productData supplierId supplierName)
     = Some (JStr supplierId)
  /\ assoc "supplier_name" (new_row productData supplierId supplierName)
     = Some (JStr supplierName)
  /\ (forall k, set_by_service k = false ->
        assoc k (new_row productData supplierId supplierName)
        = assoc k productData).
Proof.
  unfold new_row. repeat split.
  - rewrite !assoc_set. reflexivity.
  - rewrite !assoc_set. reflexivity.
  - rewrite !assoc_set. reflexivity.
  - intros k Hk. unfold set_by_service in Hk.
    repeat (apply orb_false_elim in Hk; destruct Hk as [Hk ?]).
    rewrite !assoc_set.
    repeat match goal with H : String.eqb _ _ = false |- _ => rewrite H; clear H end.
    reflexivity.
Qed.

(** X19: every row [createProduct] inserts was built for a user the auth
    check returned without an error; its [status] is ["pending"] whatever
    the caller sent, [supplier_id] and [supplier_name] are strings set by
    the service, every other key except [images] is the caller's, and at
    most one row is inserted per call. *)
Theorem created_rows_are_pending (productData : list (string * json))
    (row : list (string * json)) :
  In (InsertProduct row) (snd (createProduct C productData)) ->
  (exists user, creator C = Resolved (Some user, false))
  /\ assoc "status" row = Some (JStr "pending")
  /\ (exists id name,
        assoc "supplier_id" row = Some (JStr id)
        /\ assoc "supplier_name" row = Some (JStr name))
  /\ (forall k, set_by_service k = false -> assoc k row = assoc k productData)
  /\ (List.length (filter is_insert_product (snd (createProduct C productData)))
      <= 1)%nat.
Proof.
  unfold createProduct. break_creation. all: finish_creation.
  all: intros Hin;
       repeat match type of Hin with
              | _ \/ _ => destruct Hin as [Hin|Hin]
              end;
       try discriminate Hin; try contradiction.
  all: injection Hin as <-.
  all: match goal with
       | |- context [new_row ?pd ?i ?n] =>
           destruct (new_row_fields pd i n) as (Hs & Hi & Hn & Hk)
       end.
  all: repeat split; eauto; lia.
Qed.

(** X20: [createProduct] always returns, never throws; a product it
    returns is the data of an insert it made and that was answered
    without an error. *)
Theorem created_product_comes_from_the_insert (productData : list (string * json)) :
  exists result,
    fst (createProduct C productData) = Eff.Returned result
    /\ (forall product, result = Some product ->
          exists row,
            In (InsertProduct row) (snd (createProduct C productData))
            /\ insert_product C row
               = Resolved (mkAnswer (Some product) false)).
Proof.
  unfold createProduct. break_creation. all: finish_creation.
  all: eexists; split; [reflexivity|]; intros product Hp;
       try discriminate Hp.
  all: subst; eexists; split; [eauto 10 | eassumption].
Qed.

(** X21: when the auth check yields a user without an error and the
    suppliers table has that user's profile, the inserted row carries the
    profile's [username] as [supplier_id] and its [name] (the [username]
    when the name is empty or missing) as [supplier_name], and
    [localStorage] is not read. *)
Theorem verified_profile_names_the_row (productData : list (string * json))
    (user : AuthUser) (profile : SupplierProfile) :
  creator C = Resolved (Some user, false) ->
  profile_by_email C (email user) = Resolved (mkAnswer (Some profile) false) ->
  In (InsertProduct
        (new_row productData (profile_username profile)
           (if truthy_str (profile_name profile)
            then the (profile_name profile) else profile_username profile)))
     (snd (createProduct C productData))
  /\ Forall (fun c => is_storage_read c = false)
            (snd (createProduct C productData)).
Proof.
  intros Hu Hp. unfold createProduct. rewrite Hu. finish_creation.
  rewrite Hp. finish_creation.
  destruct (insert_product C _) as [[created [|]]|]; finish_creation;
    (split; [auto 10 | repeat constructor]).
Qed.
End CreationProperties.

(** ** The delivery page *)
Section DeliveryProperties.
Import Delivery.
Variable fetch : string -> awaited (bool * awaited json).

Ltac step_page :=
  cbn [Eff.bind Eff.ret Eff.leave Eff.throw Eff.emit Eff.invoke
       Eff.settle Eff.when Eff.try_catch Eff.finally
       Delivery.read fst snd negb app].

Ltac tidy_page :=
  unfold Eff.finally; cbn [fst snd app];
  rewrite <- ?app_assoc; cbn [app]; reflexivity.

Ltac break_load :=
  repeat (step_page;
          match goal with
          | |- context [Eff.invoke _ _ (fetch ?u)] =>
              destruct (fetch u) as [[[|] [?data|]]|] eqn:?
          | |- context [Delivery.read ?d _] => is_var d; destruct d
          end);
  step_page.

Lemma load_quiet (store : string) :
  Forall (fun e => is_page_update e = false) (snd (load fetch store))
  /\ (forall r, fst (load fetch store) <> Eff.Returned r).
Proof.
  unfold load, request. break_load.
  all: split; [repeat constructor | discriminate].
Qed.

Lemma load_urls (store : string) :
  fetched_urls (snd (load fetch store))
  = unified_url store ::
    (if not_ok (fetch (unified_url store)) then
       graphql_url store ::
       (if not_ok (fetch (graphql_url store)) then [rest_url store] else [])
     else []).
Proof.
  unfold load, request. break_load.
  all: cbn [fetched_urls flat_map app not_ok];
       repeat match goal with H : fetch _ = _ |- _ => rewrite ?H; clear H end;
       reflexivity.
Qed.

Lemma load_value (store : string) (data : json) :
  fst (load fetch store) = Eff.Value data ->
  exists url,
    last (fetched_urls (snd (load fetch store))) EmptyString = url
    /\ fetch url = Resolved (true, Resolved data).
Proof.
  unfold load, request. break_load.
  all: intros [= <-] || (intros; discriminate).
  all: cbn [fetched_urls flat_map app last]; eexists; split;
       [reflexivity | assumption].
Qed.

Lemma load_thrown (store : string) (m : message) :
  fst (load fetch store) = Eff.Thrown m ->
  m = EngineMessage
  \/ exists errorData,
       not_ok (fetch (unified_url store)) = true
       /\ not_ok (fetch (graphql_url store)) = true
       /\ fetch (rest_url store) = Resolved (false, Resolved errorData)
       /\ m = if truthy_val (prop errorData "error")
              then message_of (the_val (prop errorData "error"))
              else Text "Failed to fetch orders from all APIs".
Proof.
  unfold load, request. break_load.
  all: intros [= <-] || (intros; discriminate).
  all: try (left; reflexivity).
  all: right; eexists;
       repeat match goal with H : fetch _ = _ |- _ => rewrite ?H; clear H end;
       repeat split; reflexivity.
Qed.

Lemma quiet_filters (t : list effect) :
  Forall (fun e => is_page_update e = false) t ->
  filter is_set_orders t = [] /\ filter is_failure_report t = []
  /\ (forall os, ~ In (SetOrders os) t)
  /\ (forall m, ~ In (SetError m) t).
Proof.
  induction 1 as [|e t He _ (IH1 & IH2 & IH3 & IH4)].
  - repeat split; intros ? [].
  - destruct e; try discriminate He; cbn; repeat split; auto;
      intros ? [?|?]; try discriminate; firstorder.
Qed.

Lemma fetchOrders_no_store (selectedStore : option string) :
  truthy_str selectedStore = false ->
  fetchOrders fetch selectedStore
  = (Eff.Value tt,
     [SetLoading true; SetError None;
      SetError (Some (Text "No store selected"));
      Toast "Error" "Failed to fetch orders from store" true;
      SetLoading false]).
Proof. intros H. unfold fetchOrders. rewrite H. reflexivity. Qed.

(** The tail of [fetchOrders] after a store is known. *)
Lemma fetchOrders_store (selectedStore : option string) :
  truthy_str selectedStore = true ->
  fetchOrders fetch selectedStore
  = match load fetch (the selectedStore) with
    | (Eff.Value data, t) =>
        match data, normalized_orders (prop data "orders") with
        | JNull, _ | _, None =>
            (Eff.Value tt,
             SetLoading true :: SetError None :: t
             ++ [SetError (Some EngineMessage);
                 Toast "Error" "Failed to fetch orders from store" true;
                 SetLoading false])
        | _, Some os =>
            (Eff.Value tt,
             SetLoading true :: SetError None :: t
             ++ [SetOrders os; SetLoading false])
        end
    | (Eff.Thrown m, t) =>
        (Eff.Value tt,
         SetLoading true :: SetError None :: t
         ++ [SetError (Some m);
             Toast "Error" "Failed to fetch orders from store" true;
             SetLoading false])
    | (Eff.Returned r, t) =>
        (Eff.Returned r, SetLoading true :: SetError None :: t ++ [SetLoading false])
    end.
Proof.
  intros H. unfold fetchOrders. rewrite H.
  destruct (load fetch (the selectedStore)) as [[data|r|m] t]; step_page.
  - destruct data; step_page;
      try destruct (normalized_orders _); step_page; tidy_page.
  - tidy_page.
  - tidy_page.
Qed.

(** X22: [fetchOrders] never rejects. It starts by switching the loading
    flag on and clearing the error, ends by switching the loading flag
    off, and in between either sets the orders once and reports no
    failure, or sets no orders and reports the failure once (the error
    state and the toast). *)
Theorem fetch_orders_always_settles (selectedStore : option string) :
  fst (fetchOrders fetch selectedStore) = Eff.Value tt
  /\ (exists mid,
        snd (fetchOrders fetch selectedStore)
        = SetLoading true :: SetError None :: mid ++ [SetLoading false])
  /\ (List.length (filter is_set_orders (snd (fetchOrders fetch selectedStore)))
      = 1%nat
      /\ filter is_failure_report (snd (fetchOrders fetch selectedStore)) = []
      \/ filter is_set_orders (snd (fetchOrders fetch selectedStore)) = []
         /\ List.length
              (filter is_failure_report
                 (snd (fetchOrders fetch selectedStore))) = 2%nat).
Proof.
  destruct (truthy_str selectedStore) eqn:Hs.
  2:{ rewrite (fetchOrders_no_store _ Hs). split; [reflexivity|].
      split; [eexists [_; _]; reflexivity | right; split; reflexivity]. }
  rewrite (fetchOrders_store _ Hs).
  destruct (load_quiet (the selectedStore)) as [Hq Hr].
  destruct (load fetch (the selectedStore)) as [[data|r|m] t];
    cbn [fst snd] in Hq, Hr; [| destruct (Hr r eq_refl) |].
  all: destruct (quiet_filters t Hq) as (F1 & F2 & _).
  - destruct data; try destruct (normalized_orders _); cbn [fst snd].
    all: split; [reflexivity|].
    all: split;
         [ (eexists (t ++ [_; _]); rewrite <- app_assoc; reflexivity)
           || (eexists (t ++ [_]); rewrite <- app_assoc; reflexivity) |].
    all: cbn [filter is_set_orders is_failure_report];
         rewrite !filter_app, F1, F2; cbn; auto.
  - cbn [fst snd]. split; [reflexivity|].
    split; [eexists (t ++ [_; _]); rewrite <- app_assoc; reflexivity|].
    cbn [filter is_set_orders is_failure_report];
    rewrite !filter_app, F1, F2; cbn; auto.
Qed.

Lemma fetchOrders_urls (selectedStore : option string) :
  truthy_str selectedStore = true ->
  fetched_urls (snd (fetchOrders fetch selectedStore))
  = fetched_urls (snd (load fetch (the selectedStore))).
Proof.
  intros Hs. rewrite (fetchOrders_store _ Hs).
  destruct (load fetch (the selectedStore)) as [[data|r|m] t];
    [destruct data; try destruct (normalized_orders _)| |];
    cbn [fst snd fetched_urls flat_map app]; fold (fetched_urls t);
    unfold fetched_urls; rewrite flat_map_app; cbn; apply app_nil_r.
Qed.

(** X23: with no store selected nothing is requested. Otherwise the
    unified endpoint is requested first, the GraphQL endpoint only when
    the unified one answered with a status that is not ok, and the REST
    endpoint only when both did; a request that fails outright ends the
    sequence. *)
Theorem sources_are_tried_in_order (selectedStore : option string) :
  fetched_urls (snd (fetchOrders fetch selectedStore))
  = if truthy_str selectedStore then
      unified_url (the selectedStore) ::
      (if not_ok (fetch (unified_url (the selectedStore))) then
         graphql_url (the selectedStore) ::
         (if not_ok (fetch (graphql_url (the selectedStore)))
          then [rest_url (the selectedStore)] else [])
       else [])
    else [].
Proof.
  destruct (truthy_str selectedStore) eqn:Hs.
  - rewrite (fetchOrders_urls _ Hs). apply load_urls.
  - rewrite (fetchOrders_no_store _ Hs). reflexivity.
Qed.

(** X24: the orders the page is given are the normalised [orders] of the
    body of the last endpoint requested, which answered ok with a body
    other than [null]. *)
Theorem shown_orders_come_from_the_last_request (selectedStore : option string)
    (os : list Order) :
  In (SetOrders os) (snd (fetchOrders fetch selectedStore)) ->
  exists data,
    fetch (last (fetched_urls (snd (fetchOrders fetch selectedStore)))
             EmptyString)
    = Resolved (true, Resolved data)
    /\ data <> JNull
    /\ normalized_orders (prop data "orders") = Some os.
Proof.
  destruct (truthy_str selectedStore) eqn:Hs.
  2:{ rewrite (fetchOrders_no_store _ Hs). cbn.
      intros H; repeat destruct H as [H|H]; discriminate || contradiction. }
  rewrite (fetchOrders_urls _ Hs), (fetchOrders_store _ Hs).
  destruct (load_quiet (the selectedStore)) as [Hq Hr].
  pose proof (load_value (the selectedStore)) as Hv.
  destruct (load fetch (the selectedStore)) as [[data|r|m] t];
    cbn [fst snd] in Hq, Hr, Hv |- *; [| destruct (Hr r eq_refl) |].
  all: destruct (quiet_filters t Hq) as (_ & _ & F3 & _).
  all: try (destruct data eqn:Ed;
            try destruct (normalized_orders (prop _ "orders")) eqn:En).
  all: cbn [fst snd]; intros Hin.
  all: repeat (destruct Hin as [Hin|Hin]; [discriminate|]).
  all: apply in_app_or in Hin; destruct Hin as [Hin|Hin];
       [destruct (F3 _ Hin)|].
  all: repeat (destruct Hin as [Hin|Hin]; try discriminate Hin);
       try contradiction.
  all: injection Hin as <-.
  all: destruct (Hv _ eq_refl) as (url & <- & Hf).
  all: eexists; split; [exact Hf|]; split; [discriminate | exact En].
Qed.

(** X25: the error the page shows is "No store selected" (with no store
    selected), a message of the engine, or, only when all three endpoints
    answered with a status that is not ok, the [error] of the REST
    endpoint's body (a fixed text when that is falsy). The bodies of the
    first two endpoints are never the source of the message. *)
Theorem reported_errors (selectedStore : option string) (m : message) :
  In (SetError (Some m)) (snd (fetchOrders fetch selectedStore)) ->
  (m = Text "No store selected" /\ truthy_str selectedStore = false)
  \/ m = EngineMessage
  \/ exists errorData,
       not_ok (fetch (unified_url (the selectedStore))) = true
       /\ not_ok (fetch (graphql_url (the selectedStore))) = true
       /\ fetch (rest_url (the selectedStore))
          = Resolved (false, Resolved errorData)
       /\ m = if truthy_val (prop errorData "error")
              then message_of (the_val (prop errorData "error"))
              else Text "Failed to fetch orders from all APIs".
Proof.
  destruct (truthy_str selectedStore) eqn:Hs.
  2:{ rewrite (fetchOrders_no_store _ Hs). cbn.
      intros H; repeat destruct H as [H|H]; try discriminate H;
        try contradiction.
      injection H as <-. left; split; reflexivity. }
  rewrite (fetchOrders_store _ Hs).
  destruct (load_quiet (the selectedStore)) as [Hq Hr].
  pose proof (load_thrown (the selectedStore)) as Ht.
  destruct (load fetch (the selectedStore)) as [[data|r|m'] t];
    cbn [fst snd] in Hq, Hr, Ht |- *; [| destruct (Hr r eq_refl) |].
  all: destruct (quiet_filters t Hq) as (_ & _ & _ & F4).
  all: try (destruct data eqn:Ed;
            try destruct (normalized_orders (prop _ "orders")) eqn:En).
  all: cbn [fst snd]; intros Hin.
  all: repeat (destruct Hin as [Hin|Hin]; [discriminate|]).
  all: apply in_app_or in Hin; destruct Hin as [Hin|Hin];
       [destruct (F4 _ Hin)|].
  all: repeat (destruct Hin as [Hin|Hin]; try discriminate Hin);
       try contradiction.
  all: injection Hin as <-.
  all: try (right; left; reflexivity).
  right. destruct (Ht _ eq_refl) as [->|H]; [left; reflexivity | right; exact H].
Qed.
End DeliveryProperties.

Section OrderProperties.
Import Delivery.

Lemma or_else_truthy (a b : jsval) :
  truthy_val b = true -> truthy_val (or_else a b) = true.
Proof. unfold or_else. destruct (truthy_val a) eqn:E; auto. Qed.

Lemma or_else_defined (a : jsval) (b : json) : or_else a (Some b) <> None.
Proof.
  unfold or_else. destruct a as [j|]; [|discriminate].
  destruct (truthy_val (Some j)); discriminate.
Qed.

Lemma normalize_defaults (order : json) (o : Order) :
  normalize order = Some o -> has_defaults o.
Proof.
  unfold normalize.
  destruct order; intros [= <-]; unfold has_defaults;
    cbn [customerName customerEmail status financialStatus currency lineItems
         customerPhone shippingAddress billingAddress amount];
    repeat split;
    try (repeat apply or_else_truthy; reflexivity);
    apply or_else_defined.
Qed.

Lemma normalize_all_defaults (items : list json) (os : list Order) :
  normalize_all items = Some os ->
  Forall has_defaults os
  /\ List.length os = List.length items
  /\ Forall (fun item => item <> JNull) items.
Proof.
  revert os. induction items as [|item items IH]; cbn [normalize_all].
  - intros os [= <-]. repeat constructor.
  - intros os. destruct (normalize item) as [o|] eqn:En; [|discriminate].
    destruct (normalize_all items) as [os'|]; [|discriminate].
    intros [= <-]. destruct (IH _ eq_refl) as (H1 & H2 & H3).
    repeat split.
    + constructor; [exact (normalize_defaults _ _ En) | exact H1].
    + cbn. congruence.
    + constructor; [|exact H3]. intros ->. discriminate En.
Qed.

Lemma normalize_all_succeeds (items : list json) :
  Forall (fun item => item <> JNull) items ->
  exists os, normalize_all items = Some os.
Proof.
  induction 1 as [|item items Hitem _ [os IH]]; cbn [normalize_all].
  - eexists; reflexivity.
  - rewrite IH. destruct item; [contradiction| | | | |]; eexists; reflexivity.
Qed.

(** X26: normalisation succeeds on a falsy [orders], giving no order, and
    on an array without [null] elements, giving one order per element; it
    succeeds on nothing else. In every normalised order the customer name
    and email, both statuses, the currency and the line items are truthy,
    and phone, addresses and amount are never [undefined]. *)
Theorem normalized_orders_have_defaults (orders : jsval) :
  (truthy_val orders = false -> normalized_orders orders = Some [])
  /\ (forall items,
        orders = Some (JArr items) ->
        Forall (fun item => item <> JNull) items ->
        exists os,
          normalized_orders orders = Some os
          /\ List.length os = List.length items)
  /\ (forall os,
        normalized_orders orders = Some os ->
        Forall has_defaults os
        /\ (truthy_val orders = false /\ os = []
            \/ exists items,
                 orders = Some (JArr items)
                 /\ List.length os = List.length items
                 /\ Forall (fun item => item <> JNull) items)).
Proof.
  split; [|split].
  - intros Hf. unfold normalized_orders. rewrite Hf. reflexivity.
  - intros items -> Hitems.
    destruct (normalize_all_succeeds items Hitems) as [os Hos].
    exists os. split; [exact Hos|].
    exact (proj1 (proj2 (normalize_all_defaults _ _ Hos))).
  - intros os. unfold normalized_orders.
    destruct (truthy_val orders) eqn:Et.
    + destruct orders as [[| | | |items|]|]; try discriminate.
      intros H. destruct (normalize_all_defaults _ _ H) as (H1 & H2 & H3).
      split; [exact H1|]. right. exists items. auto.
    + intros [= <-]. split; [constructor | left; auto].
Qed.

Lemma has_id_set_status (o : Order) (i s : string) :
  has_id (set_status o s) i = has_id o i.
Proof. reflexivity. Qed.

(** X27: updating the status of the same order id twice is the same as
    the second update alone; an update keeps the number of orders and
    their ids. *)
Theorem status_update_last_wins (orderId s1 s2 : string) (prev : list Order) :
  with_status orderId s2 (with_status orderId s1 prev)
  = with_status orderId s2 prev
  /\ List.length (with_status orderId s1 prev) = List.length prev
  /\ map id (with_status orderId s1 prev) = map id prev.
Proof.
  unfold with_status. repeat split.
  - rewrite map_map. apply map_ext. intros o.
    destruct (has_id o orderId) eqn:E.
    + rewrite has_id_set_status, E. reflexivity.
    + rewrite E. reflexivity.
  - apply length_map.
  - rewrite map_map. apply map_ext. intros o.
    destruct (has_id o orderId); reflexivity.
Qed.

(** X28: an update for an id that no order has (as a string) leaves the
    list as it is. *)
Theorem status_update_unknown_id (orderId newStatus : string)
    (prev : list Order) :
  Forall (fun o => id o <> Some (JStr orderId)) prev ->
  with_status orderId newStatus prev = prev.
Proof.
  unfold with_status. induction 1 as [|o prev Ho _ IH]; cbn [map].
  - reflexivity.
  - rewrite IH. f_equal. unfold has_id.
    destruct (id o) as [[| | |s| |]|]; try reflexivity.
    destruct (String.eqb_spec s orderId) as [->|]; [contradiction|reflexivity].
Qed.

(** X29: a status update never lowers the page's counter of the new
    status and never raises the counter of any other status. *)
Theorem status_update_counters (orderId newStatus other : string)
    (prev : list Order) :
  other <> newStatus ->
  (count_status newStatus prev
   <= count_status newStatus (with_status orderId newStatus prev))%nat
  /\ (count_status other (with_status orderId newStatus prev)
      <= count_status other prev)%nat.
Proof.
  intros Hne. unfold count_status, with_status.
  induction prev as [|o prev [IH1 IH2]]; cbn [map filter List.length].
  - split; lia.
  - destruct (has_id o orderId); cbn [status set_status].
    + rewrite String.eqb_refl.
      destruct (String.eqb_spec newStatus other) as [->|_]; [contradiction|].
      split.
      * destruct (status o) as [[| | |x| |]|]; try (cbn [List.length]; lia).
        destruct (String.eqb x newStatus); cbn [List.length]; lia.
      * destruct (status o) as [[| | |x| |]|]; try (cbn [List.length]; lia).
        destruct (String.eqb x other); cbn [List.length]; lia.
    + split.
      * destruct (status o) as [[| | |x| |]|]; try (cbn [List.length]; lia).
        destruct (String.eqb x newStatus); cbn [List.length]; lia.
      * destruct (status o) as [[| | |x| |]|]; try (cbn [List.length]; lia).
        destruct (String.eqb x other); cbn [List.length]; lia.
Qed.
End OrderProperties.

(** ** Instances of the further properties *)
Section FurtherExamples.

(** An empty secret switches the signature check off. *)
Lemma signature_header_ignored_iff_witness :
  fst (ShopifyWebhook.POST Samples.parse (Some EmptyString)
         (with_hmac Samples.signed_request (Some "forged")))
  = fst (ShopifyWebhook.POST Samples.parse (Some EmptyString)
           Samples.signed_request).
Proof.
  apply (proj1 (signature_header_ignored_iff Samples.parse (Some EmptyString))).
  right; left; reflexivity.
Defined.

Lemma session_cookie_cleared_iff_witness :
  In "session_token"
     (deleted_cookies
        (fst (AuthSession.GET Samples.verifySession (Some "tok-old")))).
Proof.
  apply (proj2 (session_cookie_cleared_iff Samples.verifySession
                  (Some "tok-old"))).
  exists "tok-old", (AuthSession.mkVerifyResult false None
                       (Some "Session expired")).
  repeat split; [discriminate].
Defined.

Lemma session_500_iff_service_fails_witness :
  status (fst (AuthSession.GET (fun _ => Rejects) (Some "tok-live"))) = 500.
Proof.
  apply (proj2 (proj1 (session_500_iff_service_fails (fun _ => Rejects)
                         (Some "tok-live")))).
  exists "tok-live". repeat split; [discriminate].
Defined.

Lemma push_without_credential_witness :
  (PushToShopify.json (Samples.push_request Samples.mug "new.example")
   = Resolved (Samples.push_body Samples.mug "new.example")
   /\ incomplete (Samples.push_body Samples.mug "new.example") = false)
  /\ PushToShopify.POST SamplesExtra.bare_world
       (Samples.push_request Samples.mug "new.example")
     = (json_response
          (PushToShopify.error_body
             "Missing access token. Please connect to Shopify first.") 401,
        [Console Log "Supplier Product ID from headers:" [Some (JStr "sp-1")];
         SelectStoreConfig (JStr "new.example");
         GetToken (JStr "new.example")]).
Proof.
  split; [split; reflexivity|].
  apply (push_without_credential SamplesExtra.bare_world
           (Samples.push_request Samples.mug "new.example")
           (Samples.push_body Samples.mug "new.example") None);
    try reflexivity; discriminate.
Defined.

Lemma mapping_written_only_after_accepted_push_witness :
  In (InsertMapping "sp-1" "7" (JStr "both.example"))
     (snd (PushToShopify.POST Samples.world
             (Samples.push_request Samples.mug "both.example")))
  /\ status (fst (PushToShopify.POST Samples.world
                    (Samples.push_request Samples.mug "both.example"))) = 200.
Proof.
  assert (Hin : In (InsertMapping "sp-1" "7" (JStr "both.example"))
                  (snd (PushToShopify.POST Samples.world
                          (Samples.push_request Samples.mug "both.example"))))
    by (vm_compute; do 8 right; left; reflexivity).
  split; [exact Hin|].
  exact (proj1 (proj2 (proj2
           (mapping_written_only_after_accepted_push Samples.world _ _ _ _
              Hin)))).
Defined.

Lemma upstream_error_is_relayed_witness :
  PushToShopify.ok 400 = false
  /\ fst (PushToShopify.POST Samples.world
            (Samples.push_request Samples.mug "strict.example"))
     = json_response (JObj [("error", JStr "Bad Request")]) 400.
Proof.
  split; [reflexivity|].
  refine (proj1 (upstream_error_is_relayed Samples.world
                   (Samples.push_request Samples.mug "strict.example")
                   (Samples.push_body Samples.mug "strict.example")
                   [("Content-Type", "application/json");
                    ("X-Shopify-Access-Token", "shpat_legacy")]
                   [SelectStoreConfig (JStr "strict.example");
                    GetToken (JStr "strict.example")]
                   400 (JObj [("errors", JStr "Bad Request")])
                   eq_refl _ eq_refl eq_refl eq_refl eq_refl eq_refl _));
    discriminate.
Defined.

(** A status no response can carry: the platform's 600 is answered 500. *)
Example upstream_600_is_answered_500 :
  fst (PushToShopify.POST
         (PushToShopify.mkWorld
            (fun _ => Resolved None) (fun _ => Resolved (Some "shpat_legacy"))
            (fun _ _ _ =>
               Resolved (600, Resolved (JObj [("errors", JStr "Odd")])))
            (fun _ _ _ => Resolved false) Samples.show_number)
         (Samples.push_request Samples.mug "odd.example"))
  = PushToShopify.internal_error.
Proof. reflexivity. Qed.

(** A pushed product whose title cannot be converted to a string: the
    handler answers 500 and writes no mapping row. *)
Example unprintable_title_is_answered_500 :
  PushToShopify.POST
    (PushToShopify.mkWorld
       (fun _ => Resolved None) (fun _ => Resolved (Some "shpat_legacy"))
       (fun _ _ _ =>
          Resolved (201,
                    Resolved (JObj [("product",
                                     JObj [("id", JNum 7%float);
                                           ("title",
                                            JObj [("toString", JNum 1%float)])])])))
       (fun _ _ _ => Resolved false) Samples.show_number)
    (Samples.push_request Samples.mug "odd.example")
  = (PushToShopify.internal_error,
     [Console Log "Supplier Product ID from headers:" [Some (JStr "sp-1")];
      SelectStoreConfig (JStr "odd.example");
      GetToken (JStr "odd.example");
      Console Log "Pushing product to shop:"
        [Some (JStr "odd.example"); Some Samples.mug];
      Fetch (JStr "odd.example")
        [("Content-Type", "application/json");
         ("X-Shopify-Access-Token", "shpat_legacy")] Samples.mug;
      Console Log "Push response status:" [];
      Console Log "Shopify response:"
        [Some (JObj [("product",
                      JObj [("id", JNum 7%float);
                            ("title", JObj [("toString", JNum 1%float)])])])];
      Console Error "Internal server error:" []]).
Proof. reflexivity. Qed.

Lemma unreadable_platform_answer_is_500_witness :
  PushToShopify.ok 201 = true
  /\ fst (PushToShopify.POST SamplesExtra.null_answer_world
            (Samples.push_request Samples.mug "any.example"))
     = PushToShopify.internal_error.
Proof.
  split; [reflexivity|].
  refine (proj1 (unreadable_platform_answer_is_500
                   SamplesExtra.null_answer_world
                   (Samples.push_request Samples.mug "any.example")
                   (Samples.push_body Samples.mug "any.example")
                   [("Content-Type", "application/json");
                    ("X-Shopify-Access-Token", "shpat_legacy")]
                   [SelectStoreConfig (JStr "any.example");
                    GetToken (JStr "any.example")]
                   201 (Resolved JNull)
                   eq_refl _ eq_refl eq_refl eq_refl _));
    [discriminate | right; reflexivity].
Defined.

(** An administrator's session does not open the store list. *)
Lemma store_list_requires_seller_witness :
  StoresUser.GET SamplesExtra.verifySession_admin
    Samples.getSellerStoreConnections Samples.getUserStores (Some "tok-admin")
  = (json_response (StoresUser.Failure "Seller authentication required") 401,
     [VerifySession "tok-admin"]).
Proof.
  refine (proj2 (store_list_requires_seller SamplesExtra.verifySession_admin
                   Samples.getSellerStoreConnections Samples.getUserStores
                   (Some "tok-admin"))
            "tok-admin" _ eq_refl _ eq_refl _); [discriminate|].
  right; right. eexists. split; [reflexivity | discriminate].
Defined.

Lemma store_list_fails_as_a_whole_witness :
  Samples.getSellerStoreConnections "asha" = Resolved [Samples.conn_a]
  /\ status (fst (StoresUser.GET Samples.verifySession
                    Samples.getSellerStoreConnections
                    SamplesExtra.getUserStores_down (Some "tok-live"))) = 500.
Proof.
  split; [reflexivity|].
  destruct (store_list_fails_as_a_whole Samples.verifySession
              Samples.getSellerStoreConnections SamplesExtra.getUserStores_down
              "tok-live" Samples.seller None) as [_ H];
    [discriminate | reflexivity | reflexivity |].
  rewrite (H [Samples.conn_a] eq_refl eq_refl). reflexivity.
Defined.

Lemma products_come_from_one_clean_query_witness :
  fst (ProductService.getSupplierProducts SamplesExtra.verified_world)
  = Eff.Returned ["Mug"; "Lamp"]
  /\ exists id,
       In (ProductService.SelectProductsBySupplier id)
          (snd (ProductService.getSupplierProducts SamplesExtra.verified_world))
       /\ ProductService.products_by_supplier SamplesExtra.verified_world id
          = Resolved (ProductService.mkAnswer (Some ["Mug"; "Lamp"]) false).
Proof.
  split; [reflexivity|].
  apply (products_come_from_one_clean_query string
           SamplesExtra.verified_world ["Mug"; "Lamp"] eq_refl).
  discriminate.
Defined.

Lemma verified_supplier_identity_is_used_witness :
  ProductService.getItem SamplesExtra.verified_world "supplierName" = Rejects
  /\ fst (ProductService.getSupplierProducts SamplesExtra.verified_world)
     = Eff.Returned ["Mug"; "Lamp"].
Proof.
  split; [reflexivity|].
  exact (proj1 (verified_supplier_identity_is_used string
                  SamplesExtra.verified_world
                  (ProductService.mkAuthUser (Some "asha@example.com"))
                  (ProductService.mkSupplier "asha") eq_refl eq_refl)).
Defined.

(** With nobody signed in, the name in [localStorage] decides whose
    products are returned. *)
Lemma unverified_identity_comes_from_local_storage_witness :
  ProductService.getUser SamplesExtra.anonymous_world = Resolved (None, true)
  /\ fst (ProductService.getSupplierProducts SamplesExtra.anonymous_world)
     = Eff.Returned ["Hat"].
Proof.
  split; [reflexivity|].
  destruct (unverified_identity_comes_from_local_storage string
              SamplesExtra.anonymous_world None true (Some "mallory")
              eq_refl (or_introl eq_refl) eq_refl) as [_ H].
  exact (proj1 (H "mallory" eq_refl ltac:(discriminate))).
Defined.

(** The status the caller sent is replaced. *)
Lemma created_rows_are_pending_witness :
  In (ProductService.InsertProduct
        [("title", JStr "Mug"); ("status", JStr "pending");
         ("supplier_id", JStr "asha"); ("supplier_name", JStr "Asha Traders");
         ("images", JArr [])])
     (snd (ProductService.createProduct SamplesExtra.creation_world
             SamplesExtra.mug_data))
  /\ assoc "status"
       [("title", JStr "Mug"); ("status", JStr "pending");
        ("supplier_id", JStr "asha"); ("supplier_name", JStr "Asha Traders");
        ("images", JArr [])]
     = Some (JStr "pending").
Proof.
  assert (Hin : In (ProductService.InsertProduct
        [("title", JStr "Mug"); ("status", JStr "pending");
         ("supplier_id", JStr "asha"); ("supplier_name", JStr "Asha Traders");
         ("images", JArr [])])
     (snd (ProductService.createProduct SamplesExtra.creation_world
             SamplesExtra.mug_data)))
    by (vm_compute; do 2 right; left; reflexivity).
  split; [exact Hin|].
  exact (proj1 (proj2 (created_rows_are_pending string
                         SamplesExtra.creation_world _ _ Hin))).
Defined.

Lemma verified_profile_names_the_row_witness :
  In (ProductService.InsertProduct
        (ProductService.new_row SamplesExtra.mug_data "asha" "Asha Traders"))
     (snd (ProductService.createProduct SamplesExtra.creation_world
             SamplesExtra.mug_data)).
Proof.
  exact (proj1 (verified_profile_names_the_row string
                  SamplesExtra.creation_world SamplesExtra.mug_data
                  (ProductService.mkAuthUser (Some "asha@example.com"))
                  (ProductService.mkSupplierProfile "asha" (Some "Asha Traders"))
                  eq_refl eq_refl)).
Defined.

(** The unified endpoint fails for [shop.example], the GraphQL one
    answers. *)
Lemma shown_orders_come_from_the_last_request_witness :
  In (Delivery.SetOrders [SamplesExtra.order_1001])
     (snd (Delivery.fetchOrders SamplesExtra.orders_api (Some "shop.example")))
  /\ exists data,
       SamplesExtra.orders_api (Delivery.graphql_url "shop.example")
       = Resolved (true, Resolved data)
       /\ Delivery.normalized_orders (prop data "orders")
          = Some [SamplesExtra.order_1001].
Proof.
  assert (Hin : In (Delivery.SetOrders [SamplesExtra.order_1001])
                  (snd (Delivery.fetchOrders SamplesExtra.orders_api
                          (Some "shop.example"))))
    by (vm_compute; do 5 right; left; reflexivity).
  split; [exact Hin|].
  destruct (shown_orders_come_from_the_last_request SamplesExtra.orders_api
              _ _ Hin) as (data & Hf & _ & Hn).
  exists data. split; [exact Hf | exact Hn].
Defined.

Lemma reported_errors_witness :
  In (Delivery.SetError (Some (Delivery.Text "Shop not found")))
     (snd (Delivery.fetchOrders SamplesExtra.orders_api (Some "down.example")))
  /\ not_ok (SamplesExtra.orders_api (Delivery.unified_url "down.example"))
     = true.
Proof.
  assert (Hin : In (Delivery.SetError (Some (Delivery.Text "Shop not found")))
                  (snd (Delivery.fetchOrders SamplesExtra.orders_api
                          (Some "down.example"))))
    by (vm_compute; do 7 right; left; reflexivity).
  split; [exact Hin|].
  destruct (reported_errors SamplesExtra.orders_api _ _ Hin)
    as [[H _]|[H|(errorData & H & _)]]; [discriminate H | discriminate H |].
  exact H.
Defined.

Lemma normalized_orders_have_defaults_witness :
  Delivery.normalized_orders
    (Some (JArr [JObj [("id", JStr "o-1"); ("name", JStr "#1001");
                       ("status", JStr "fulfilled")]]))
  = Some [SamplesExtra.order_1001]
  /\ Forall has_defaults [SamplesExtra.order_1001].
Proof.
  split; [reflexivity|].
  exact (proj1 (proj2 (proj2 (normalized_orders_have_defaults
                  (Some (JArr [JObj [("id", JStr "o-1"); ("name", JStr "#1001");
                                     ("status", JStr "fulfilled")]]))))
                  [SamplesExtra.order_1001] eq_refl)).
Defined.

Lemma status_update_unknown_id_witness :
  Delivery.with_status "o-2" "cancelled" [SamplesExtra.order_1001]
  = [SamplesExtra.order_1001].
Proof.
  apply status_update_unknown_id. repeat constructor. discriminate.
Defined.

Lemma status_update_counters_witness :
  (Delivery.count_status "cancelled" [SamplesExtra.order_1001]
   <= Delivery.count_status "cancelled"
        (Delivery.with_status "o-1" "cancelled" [SamplesExtra.order_1001]))%nat
  /\ (Delivery.count_status "fulfilled"
        (Delivery.with_status "o-1" "cancelled" [SamplesExtra.order_1001])
      <= Delivery.count_status "fulfilled" [SamplesExtra.order_1001])%nat.
Proof.
  apply status_update_counters. discriminate.
Defined.

End FurtherExamples.
